(** * dingo.gw.SVD: reduced SVD bases for waveform compression

    A shallow embedding of [dingo/gw/SVD.py] and the properties of its
    specification.  Arrays keep their shape next to their data, the way
    NumPy does; Python exceptions are values of [exn]; the scalar kernel
    (complex and real arithmetic, reductions, the two factorization
    routines of SciPy and scikit-learn) is an interface, so that every
    statement holds for any implementation of it, IEEE arithmetic
    included. *)

From Stdlib Require Import ZArith Lia.
From stdpp Require Import base option list strings gmap.

(** ** Exceptions and results *)

Inductive exn : Set :=
  | IndexError | KeyError | ValueError | TypeError | AttributeError
  | FileNotFoundError | OSError | LinAlgError | RuntimeError.

#[global] Instance exn_eq_dec : EqDecision exn.
Proof. solve_decision. Defined.

Inductive result (A : Type) : Type :=
  | Ok (a : A)
  | Raise (e : exn).
Arguments Ok {A} a.
Arguments Raise {A} e.

#[global] Instance result_ret : MRet result := @Ok.
#[global] Instance result_bind : MBind result := λ A B f r,
  match r with Ok a => f a | Raise e => Raise e end.

(** [for x in xs: f x], collecting the values, stopping at the first
    exception. *)
Fixpoint for_each {A B} (f : A → result B) (xs : list A) : result (list B) :=
  match xs with
  | [] => Ok []
  | x :: xs' => y ← f x; ys ← for_each f xs'; Ok (y :: ys)
  end.

(** ** Insertion-ordered dictionaries with string keys

    A Python [dict] iterates in insertion order, and the builder's result
    list follows that order, so the per-channel dictionaries are kept as
    association lists (keys pairwise distinct). *)

Definition dict (A : Type) : Type := list (string * A).

Definition keys {A} (d : dict A) : list string := d.*1.

Fixpoint dict_get {A} (d : dict A) (k : string) : result A :=
  match d with
  | [] => Raise KeyError
  | (k', v) :: d' => if decide (k' = k) then Ok v else dict_get d' k
  end.

(** [{k: f(v) for k, v in d.items()}] *)
Definition dict_comprehension {A B} (f : A → result B) (d : dict A) : result (dict B) :=
  for_each (λ kv, v ← f kv.2; Ok (kv.1, v)) d.

(** ** The numeric kernel *)

Class Numeric (C R : Type) := {
  conj : C → C;                    (* z.conj() *)
  astype_complex128 : C → C;       (* z.astype(np.complex128) *)
  csub : C → C → C;
  cmul : C → C → C;
  cdot : list C → list C → C;      (* the sum of products inside [@] *)
  cabs : C → R;                    (* np.abs *)
  creal : C → R;                   (* z.real *)
  cmean : list C → C;              (* np.mean of a complex vector *)
  rmean : list R → R;              (* np.mean of a real vector *)
  rsquare : R → R;                 (* x ** 2 *)
  rmul : R → R → R;
  rdiv : R → R → R;
  rsub : R → R → R;
  rsqrt : R → R;                   (* np.sqrt *)
  rone : R;
  rmax : R → R → R;                (* one step of np.max *)
  conj_involutive : ∀ z, conj (conj z) = z
}.

(** ** Arrays

    A two-dimensional array with its shape, row by row. *)

Record matrix (C : Type) : Type := Matrix {
  shape0 : nat;                    (* A.shape[0], also len(A) *)
  shape1 : nat;                    (* A.shape[1] *)
  rows : list (list C)
}.
Arguments Matrix {C} shape0 shape1 rows.
Arguments shape0 {C} A : rename.
Arguments shape1 {C} A : rename.
Arguments rows {C} A : rename.

(** The data agree with the shape. *)
Definition wf_matrix {C} (A : matrix C) : Prop :=
  length (rows A) = shape0 A ∧ Forall (λ r, length r = shape1 A) (rows A).

(** An array of any dimension at least one, of shape [lead ++ [last_dim]];
    [vecs] are the vectors along the last axis in row-major order. *)
Record ndarray (C : Type) : Type := NdArray {
  lead : list nat;
  last_dim : nat;
  vecs : list (list C)
}.
Arguments NdArray {C} lead last_dim vecs.
Arguments lead {C} x : rename.
Arguments last_dim {C} x : rename.
Arguments vecs {C} x : rename.

(** ** Factorization routines

    [scipy.linalg.svd(A, full_matrices=False)] and
    [sklearn.utils.extmath.randomized_svd(A, n, random_state=seed)], each
    returning [(U, s, Vh)] or raising.  Of their behaviour only the shape
    of [Vh] is assumed: the economy factorization of an [m x k] matrix has
    [min m k] rows of length [k], and the randomized routine returns the
    leading [n] of the rows it has. *)

Class Factorization (C R : Type) := {
  scipy_linalg_svd : matrix C → result (matrix C * list R * matrix C);
  randomized_svd : matrix C → nat → nat → result (matrix C * list R * matrix C);
  scipy_linalg_svd_Vh : ∀ A U sv Vh,
    wf_matrix A → scipy_linalg_svd A = Ok (U, sv, Vh) →
    wf_matrix Vh ∧ shape0 Vh = shape0 A `min` shape1 A ∧ shape1 Vh = shape1 A;
  randomized_svd_Vh : ∀ A k seed U sv Vh,
    wf_matrix A → randomized_svd A k seed = Ok (U, sv, Vh) →
    wf_matrix Vh ∧ shape0 Vh = k `min` (shape0 A `min` shape1 A) ∧
    shape1 Vh = shape1 A
}.

(** ** The state of an [SVDBasis] object

    [V], [Vh] and [n] are [None] on a fresh object; the attribute [s]
    does not exist until a fit creates it, which is [None] here. *)
Record SVDBasis (C R : Type) : Type := mkSVDBasis {
  V : option (matrix C);
  Vh : option (matrix C);
  n : option nat;
  s : option (list R)
}.
Arguments mkSVDBasis {C R} V Vh n s.
Arguments V {C R} self : rename.
Arguments Vh {C R} self : rename.
Arguments n {C R} self : rename.
Arguments s {C R} self : rename.

(** ** The attributes of an [SVDBasis] object at any time

    [from_V] and [from_file] assign the array they are given to [V], and
    its conjugate transpose to [Vh], before they read its second
    dimension.  After such a load has raised, [V] and [Vh] hold an array
    that is no matrix: a one-dimensional complex array passed to
    [from_V], or the one-dimensional real array of a file of singular
    values.  An [object] records the four attributes with these values
    too; an [SVDBasis] is an object whose [V] and [Vh] are matrices or
    [None], on which the other methods are described. *)
Inductive array (C R : Type) : Type :=
  | Array2 (A : matrix C)
  | Array1 (v : list C)
  | Array1_real (v : list R).
Arguments Array2 {C R} A.
Arguments Array1 {C R} v.
Arguments Array1_real {C R} v.

Record object (C R : Type) : Type := mkObject {
  obj_V : option (array C R);
  obj_Vh : option (array C R);
  obj_n : option nat;
  obj_s : option (list R)
}.
Arguments mkObject {C R} obj_V obj_Vh obj_n obj_s.
Arguments obj_V {C R} self : rename.
Arguments obj_Vh {C R} self : rename.
Arguments obj_n {C R} self : rename.
Arguments obj_s {C R} self : rename.

Definition object_of {C R} (b : SVDBasis C R) : object C R :=
  mkObject (Array2 <$> V b) (Array2 <$> Vh b) (n b) (s b).
Coercion object_of : SVDBasis >-> object.

(** ** Validation statistics and stored files *)

(** The dictionary [test_stats] of [test_basis]. *)
Record test_stats (R : Type) : Type := TestStats {
  stats_s : list R;                          (* test_stats["s"] *)
  mismatches : gmap nat (list R);            (* test_stats["mismatches"] *)
  max_deviations : gmap nat (list R)         (* test_stats["max_deviations"] *)
}.
Arguments TestStats {R} stats_s mismatches max_deviations.
Arguments stats_s {R} t : rename.
Arguments mismatches {R} t : rename.
Arguments max_deviations {R} t : rename.

(** What a [.npy] file holds: a matrix, a real vector, or a pickled
    statistics record. *)
Inductive npy (C R : Type) : Type :=
  | NpyMatrix (A : matrix C)
  | NpyVector (v : list R)
  | NpyPickle (st : test_stats R).
Arguments NpyMatrix {C R} A.
Arguments NpyVector {C R} v.
Arguments NpyPickle {C R} st.

(** The file system: the files by path, and the paths that can be
    written (an existing directory, with permission). *)
Record storage (C R : Type) : Type := Storage {
  files : gmap string (npy C R);
  writable : string → bool
}.
Arguments Storage {C R} files writable.
Arguments files {C R} st : rename.
Arguments writable {C R} st : rename.

(** ** The data source

    Modelled from the spec: the [WaveformDataset] class and its pipeline
    stages are not part of this module.  A stage has a class, by which
    the builder filters, and a configuration; the dataset yields sample
    [i] as a pair of metadata and per-channel signal under the pipeline
    it currently holds. *)

Record Transform : Type := mkTransform {
  tr_type : string;                (* type(tr) *)
  tr_config : nat
}.

#[global] Instance Transform_eq_dec : EqDecision Transform.
Proof. solve_decision. Defined.

Definition Sample (C R : Type) : Type := dict R * dict (list C).

Record WaveformDataset (C R : Type) : Type := mkWaveformDataset {
  transform : list Transform;      (* wfd.transform, a Compose of stages *)
  wfd_len : nat;                   (* len(wfd) *)
  wfd_item : list Transform → nat → result (Sample C R)
}.
Arguments mkWaveformDataset {C R} transform wfd_len wfd_item.
Arguments transform {C R} wfd : rename.
Arguments wfd_len {C R} wfd : rename.
Arguments wfd_item {C R} wfd : rename.

(** What the builder reads and writes: the data source object and the
    file system. *)
Record World (C R : Type) : Type := mkWorld {
  wfd : WaveformDataset C R;
  disk : storage C R
}.
Arguments mkWorld {C R} wfd disk.
Arguments wfd {C R} w : rename.
Arguments disk {C R} w : rename.

(** A computation on a state that may raise; the state persists after
    an exception. *)
Definition prog (S A : Type) : Type := S → result A * S.

#[global] Instance prog_ret {S} : MRet (prog S) := λ A a st, (Ok a, st).
#[global] Instance prog_bind {S} : MBind (prog S) := λ A B f m st,
  match m st with
  | (Ok a, st') => f a st'
  | (Raise e, st') => (Raise e, st')
  end.

(** A pure step, and a step that yields the new state or raises without
    a change. *)
Definition lift {S A} (r : result A) : prog S A := λ st, (r, st).
Definition update {S A} (f : S → result (A * S)) : prog S A := λ st,
  match f st with
  | Ok (a, st') => (Ok a, st')
  | Raise e => (Raise e, st)
  end.

(** A [for] loop in [prog] that threads an accumulator. *)
Fixpoint prog_fold {S X Y} (f : Y → X → prog S Y) (acc : Y) (xs : list X)
    : prog S Y :=
  match xs with
  | [] => mret acc
  | x :: xs' => acc' ← f acc x; prog_fold f acc' xs'
  end.

Section model.
Context {C R : Type} `{!Numeric C R} `{!Factorization C R}.

(** *** Operations on arrays *)

(** The rows of the transpose of a list of rows of length [k]. *)
Fixpoint transpose_rows (k : nat) (rs : list (list C)) : list (list C) :=
  match rs with
  | [] => replicate k []
  | r :: rs' => zip_with cons r (transpose_rows k rs')
  end.

(** [A.T] *)
Definition transpose (A : matrix C) : matrix C :=
  Matrix (shape1 A) (shape0 A) (transpose_rows (shape1 A) (rows A)).

(** [A.conj()] and [A.astype(np.complex128)], element by element *)
Definition map_matrix (f : C → C) (A : matrix C) : matrix C :=
  Matrix (shape0 A) (shape1 A) ((λ r : list C, f <$> r) <$> rows A).

(** [A.T.conj()] *)
Definition conj_transpose (A : matrix C) : matrix C :=
  map_matrix conj (transpose A).

(** [A[:, :k]]: a slice end beyond the axis is clamped. *)
Definition slice_cols (k : nat) (A : matrix C) : matrix C :=
  Matrix (shape0 A) (k `min` shape1 A) (take k <$> rows A).

(** [A[:k, :]] and [A[:k]] *)
Definition slice_rows (k : nat) (A : matrix C) : matrix C :=
  Matrix (k `min` shape0 A) (shape1 A) (take k (rows A)).

(** [A[k:]] *)
Definition slice_rows_from (k : nat) (A : matrix C) : matrix C :=
  Matrix (shape0 A - k) (shape1 A) (drop k (rows A)).

(** Column [j], as a vector. *)
Definition column (j : nat) (A : matrix C) : list C :=
  omap (λ r, r !! j) (rows A).

(** [h @ A] for a vector [h]: the inner dimensions must agree. *)
Definition vecmat (h : list C) (A : matrix C) : result (list C) :=
  if decide (length h = shape0 A)
  then Ok ((λ j, cdot h (column j A)) <$> seq 0 (shape1 A))
  else Raise ValueError.

Definition shape (x : ndarray C) : list nat := lead x ++ [last_dim x].

Definition wf_ndarray (x : ndarray C) : Prop :=
  length (vecs x) = foldr Nat.mul 1 (lead x) ∧
  Forall (λ v, length v = last_dim x) (vecs x).

(** [x @ A] for a two-dimensional [A]: the product acts on the last axis
    and is broadcast over the leading ones. *)
Definition matmul (x : ndarray C) (A : matrix C) : result (ndarray C) :=
  if decide (last_dim x = shape0 A)
  then vs ← for_each (λ v, vecmat v A) (vecs x); Ok (NdArray (lead x) (shape1 A) vs)
  else Raise ValueError.

(** An operation on two vectors element by element; a vector of length
    one is broadcast against the other. *)
Definition broadcast2 {X Y Z} (f : X → Y → Z) (x : list X) (y : list Y)
    : result (list Z) :=
  if decide (length x = length y) then Ok (zip_with f x y)
  else match x, y with
       | [a], _ => Ok (f a <$> y)
       | _, [b] => Ok ((λ a, f a b) <$> x)
       | _, _ => Raise ValueError
       end.

(** [np.max] of a real vector: an empty one has no maximum. *)
Definition np_max (xs : list R) : result R :=
  match xs with
  | [] => Raise ValueError
  | x :: xs' => Ok (foldl rmax x xs')
  end.

(** *** class SVDBasis *)

(** [SVDBasis.__init__] *)
Definition SVDBasis_init : SVDBasis C R := mkSVDBasis None None None None.

(** [SVDBasis.generate_basis]: the object after the call, whatever it
    held before.  Both routines raise before the first assignment to
    [self], and so does an unsupported method: an exception leaves the
    object as it was. *)
Definition generate_basis (self : object C R) (training_data : matrix C)
    (k : nat) (method : string) : result (SVDBasis C R) :=
  if decide (method = "random") then
    let k := if decide (k = 0)
             then shape0 training_data `min` shape1 training_data else k in
    '(U, sv, Vh) ← randomized_svd training_data k 0;
    let self_Vh := map_matrix astype_complex128 Vh in
    let self_V := conj_transpose self_Vh in
    Ok (mkSVDBasis (Some self_V) (Some self_Vh) (Some k) (Some sv))
  else if decide (method = "scipy") then
    '(U, sv, Vh) ← scipy_linalg_svd training_data;
    let V := conj_transpose Vh in
    let '(self_V, self_Vh) :=
      if decide (k = 0 ∨ shape0 V < k) then (V, Vh)
      else (slice_cols k V, slice_rows k Vh) in
    Ok (mkSVDBasis (Some self_V) (Some self_Vh) (Some (shape0 self_Vh)) (Some sv))
  else Raise ValueError.

(** [a.T.conj()]: the transpose of a one-dimensional array is the array
    itself, and the conjugate of a real array has the same entries. *)
Definition T_conj (a : array C R) : array C R :=
  match a with
  | Array2 A => Array2 (conj_transpose A)
  | Array1 v => Array1 (conj <$> v)
  | Array1_real v => Array1_real v
  end.

(** [a.shape[1]]: a one-dimensional array has no second dimension. *)
Definition shape_1 (a : array C R) : result nat :=
  match a with
  | Array2 A => Ok (shape1 A)
  | Array1 _ | Array1_real _ => Raise IndexError
  end.

(** [SVDBasis.from_V]: the outcome, and the object after the call. *)
Definition from_V (self : object C R) (V : array C R)
    : result () * object C R :=
  (* self.V = V *)
  let self := mkObject (Some V) (obj_Vh self) (obj_n self) (obj_s self) in
  (* self.Vh = self.V.T.conj() *)
  let self := mkObject (obj_V self) (Some (T_conj V)) (obj_n self) (obj_s self) in
  (* self.n = self.V.shape[1] *)
  match shape_1 V with
  | Ok k => (Ok (), mkObject (obj_V self) (obj_Vh self) (Some k) (obj_s self))
  | Raise e => (Raise e, self)
  end.

(** [SVDBasis.fseries_to_basis_coefficients].  On an unpopulated basis
    [fseries @ None] is [np.matmul] on a zero-dimensional operand, which
    it refuses with [ValueError]. *)
Definition fseries_to_basis_coefficients (self : SVDBasis C R)
    (fseries : ndarray C) : result (ndarray C) :=
  match V self with
  | Some V => matmul fseries V
  | None => Raise ValueError
  end.

(** [SVDBasis.basis_coefficients_to_fseries] *)
Definition basis_coefficients_to_fseries (self : SVDBasis C R)
    (coefficients : ndarray C) : result (ndarray C) :=
  match Vh self with
  | Some Vh => matmul coefficients Vh
  | None => Raise ValueError
  end.

(** *** Files *)

(** [np.save] appends the extension when the name lacks it. *)
Definition npy_path (file : string) : string :=
  if bool_decide (String.list_ascii_of_string ".npy"
                    `suffix_of` String.list_ascii_of_string file)
  then file else file +:+ ".npy".

(** [np.save(file, x)] *)
Definition np_save (file : string) (x : npy C R) (st : storage C R)
    : result (storage C R) :=
  if writable st (npy_path file)
  then Ok (Storage (<[npy_path file := x]> (files st)) (writable st))
  else Raise OSError.

(** [np.load(filename)]: it finds no file, or refuses a pickled object,
    or returns the array of the file. *)
Definition np_load (filename : string) (st : storage C R)
    : result (array C R) :=
  match files st !! filename with
  | None => Raise FileNotFoundError
  | Some (NpyPickle _) => Raise ValueError
  | Some (NpyVector v) => Ok (Array1_real v)
  | Some (NpyMatrix A) => Ok (Array2 A)
  end.

(** [SVDBasis.from_file]: the outcome, and the object after the call.
    When [np.load] raises nothing has been assigned; when the array is
    one-dimensional [V] and [Vh] have been assigned by the time
    [shape[1]] raises. *)
Definition from_file (self : object C R) (filename : string)
    (st : storage C R) : result () * object C R :=
  match np_load filename st with
  | Raise e => (Raise e, self)
  | Ok a =>
      (* self.V = np.load(filename) *)
      let self := mkObject (Some a) (obj_Vh self) (obj_n self) (obj_s self) in
      (* self.Vh = self.V.T.conj() *)
      let self :=
        mkObject (obj_V self) (Some (T_conj a)) (obj_n self) (obj_s self) in
      (* self.n = self.V.shape[1] *)
      match shape_1 a with
      | Ok k => (Ok (), mkObject (obj_V self) (obj_Vh self) (Some k) (obj_s self))
      | Raise e => (Raise e, self)
      end
  end.

(** [SVDBasis.to_file] *)
Definition to_file (self : SVDBasis C R) (filename : string)
    (st : storage C R) : result (storage C R) :=
  match V self with
  | Some V => np_save filename (NpyMatrix V) st
  | None => Ok st
  end.

(** *** SVDBasis.test_basis *)

(** A [for] loop that threads an accumulator. *)
Fixpoint for_fold {X S} (f : S → X → result S) (acc : S) (xs : list X)
    : result S :=
  match xs with
  | [] => Ok acc
  | x :: xs' => acc' ← f acc x; for_fold f acc' xs'
  end.

(** Reading an attribute that holds [None] where an array or a number is
    needed. *)
Definition not_None {X} (o : option X) : result X :=
  match o with Some x => Ok x | None => Raise TypeError end.

(** The body of the inner loop: the match and the maximal deviation of
    one test waveform at [k] basis elements. *)
Definition test_waveform (self : SVDBasis C R) (k : nat) (h_test : list C)
    : result (R * R) :=
  self_V ← not_None (V self);
  h_RB ← vecmat h_test (slice_cols k self_V);
  self_Vh ← not_None (Vh self);
  h_reconstructed ← vecmat h_RB (slice_rows k self_Vh);
  let norm1 := rmean ((λ z, rsquare (cabs z)) <$> h_test) in
  let norm2 := rmean ((λ z, rsquare (cabs z)) <$> h_reconstructed) in
  prod ← broadcast2 cmul (conj <$> h_test) h_reconstructed;
  let inner := creal (cmean prod) in
  diff ← broadcast2 csub h_test h_reconstructed;
  dev ← np_max (cabs <$> diff);
  Ok (rdiv inner (rsqrt (rmul norm1 norm2)), dev).

(** The printed summary: mean and standard deviation of an empty array
    are only warned about, its maximum raises. *)
Definition print_summary (mism : list R) : result () :=
  _ ← np_max mism; Ok ().

(** One round of the loop over [n_values]. *)
Definition test_basis_step (self : SVDBasis C R) (test_data : matrix C)
    (stats : test_stats R) (k : nat) : result (test_stats R) :=
  rank ← not_None (n self);
  if decide (rank < k) then Ok stats
  else
    res ← for_each (test_waveform self k) (rows test_data);
    let matches := res.*1 in
    let max_devs := res.*2 in
    let mism := (λ m, rsub rone m) <$> matches in
    let stats := TestStats (stats_s stats) (<[k := mism]> (mismatches stats))
                           (<[k := max_devs]> (max_deviations stats)) in
    _ ← print_summary mism;
    Ok stats.

Definition default_n_values : list nat := [50; 100; 128; 200; 300; 500; 600].

(** [SVDBasis.test_basis].  Python returns nothing and keeps the
    statistics in the file; they are returned here as well, next to the
    file system after the call. *)
Definition test_basis (self : SVDBasis C R) (test_data : matrix C)
    (n_values : list nat) (outfile : option string) (st : storage C R)
    : result (test_stats R * storage C R) :=
  sv ← match s self with Some sv => Ok sv | None => Raise AttributeError end;
  stats ← for_fold (test_basis_step self test_data) (TestStats sv ∅ ∅) n_values;
  match outfile with
  | Some file => st' ← np_save file (NpyPickle stats) st; Ok (stats, st')
  | None => Ok (stats, st)
  end.

(** *** The transforms ApplySVD and UndoSVD *)

(** [ApplySVD(svd_basis).__call__] *)
Definition ApplySVD (svd_basis : SVDBasis C R)
    (uncompressed_waveform : dict (ndarray C)) : result (dict (ndarray C)) :=
  dict_comprehension (fseries_to_basis_coefficients svd_basis)
    uncompressed_waveform.

(** [UndoSVD(svd_basis).__call__] *)
Definition UndoSVD (svd_basis : SVDBasis C R)
    (compressed_waveform : dict (ndarray C)) : result (dict (ndarray C)) :=
  dict_comprehension (basis_coefficients_to_fseries svd_basis)
    compressed_waveform.

(** *** generate_and_save_reduced_basis *)

(** [np.empty((N, M))]: the cells hold whatever the memory held, [fill]. *)
Definition np_empty (fill : nat → nat → C) (N M : nat) : matrix C :=
  Matrix N M ((λ i, fill i <$> seq 0 M) <$> seq 0 N).

(** The rows that [src] yields when broadcast to [cnt] rows of length
    [M]: an axis of [src] has the length asked for, or length one. *)
Definition broadcast_to (cnt M : nat) (src : matrix C) : result (list (list C)) :=
  if decide ((shape0 src = cnt ∨ shape0 src = 1) ∧ (shape1 src = M ∨ shape1 src = 1))
  then
    let rs := if decide (shape0 src = cnt) then rows src
              else rows src ≫= replicate cnt in
    Ok ((λ r, if decide (shape1 src = M) then r else r ≫= replicate M) <$> rs)
  else Raise ValueError.

(** [buf[lower:upper] = src] *)
Definition setitem_rows (buf : matrix C) (lower upper : nat) (src : matrix C)
    : result (matrix C) :=
  let lo := lower `min` shape0 buf in
  let hi := lo `max` (upper `min` shape0 buf) in
  new ← broadcast_to (hi - lo) (shape1 buf) src;
  Ok (Matrix (shape0 buf) (shape1 buf)
        (take lo (rows buf) ++ new ++ drop hi (rows buf))).

(** A batch of the loader: the metadata of its samples, and per channel
    the matrix of their signals. *)
Definition Batch : Type := list (dict R) * dict (matrix C).

(** [torch.stack]: the vectors must have one length. *)
Definition stack (vs : list (list C)) : result (matrix C) :=
  match vs with
  | [] => Raise RuntimeError
  | v :: _ =>
      if decide (Forall (λ v', length v' = length v) vs)
      then Ok (Matrix (length vs) (length v) vs)
      else Raise RuntimeError
  end.

(** The loader's collation of the samples of one batch; the channels are
    those of the first sample. *)
Definition default_collate (samples : list (Sample C R)) : result Batch :=
  match samples with
  | [] => Raise IndexError
  | s0 :: _ =>
      strain ← for_each (λ ch,
                  vs ← for_each (λ smp : Sample C R, dict_get smp.2 ch) samples;
                  A ← stack vs; Ok (ch, A)) (keys s0.2);
      Ok (samples.*1, strain)
  end.

(** The sample indices of the successive batches; the last batch may be
    short. *)
Definition batch_indices (len batch_size : nat) : list (list nat) :=
  (λ j, seq (j * batch_size) (batch_size `min` (len - j * batch_size)))
    <$> seq 0 ((len + batch_size - 1) / batch_size).

(** [wfd[i]] *)
Definition wfd_getitem (d : WaveformDataset C R) (i : nat) : result (Sample C R) :=
  if decide (i < wfd_len d) then wfd_item d (transform d) i
  else Raise IndexError.

(** [DataLoader(wfd, batch_size=batch_size)], as the batches it will
    yield in order; producing a batch may raise.  It rejects a batch size
    that is not positive. *)
Definition DataLoader (d : WaveformDataset C R) (batch_size : nat)
    : result (list (result Batch)) :=
  if decide (batch_size = 0) then Raise ValueError
  else Ok ((λ idxs, samples ← for_each (wfd_getitem d) idxs;
                    default_collate samples)
           <$> batch_indices (wfd_len d) batch_size).

(** The loop over [enumerate(rb_loader)].  [lower] never exceeds [N]
    here: a round that reaches [N] leaves the loop. *)
Fixpoint collect_loop (N batch_size : nat) (batches : list (result Batch))
    (idx : nat) (rb_train_data : dict (matrix C)) : result (dict (matrix C)) :=
  match batches with
  | [] => Ok rb_train_data
  | b :: rest =>
      data ← b;
      let strain_data := data.2 in
      let lower := idx * batch_size in
      let k := batch_size `min` (N - lower) in
      rb_train_data ← for_each (λ '(ch, buf),
          src ← dict_get strain_data ch;
          buf' ← setitem_rows buf lower (lower + k) (slice_rows k src);
          Ok (ch, buf')) rb_train_data;
      if decide (lower + k = N) then Ok rb_train_data
      else collect_loop N batch_size rest (S idx) rb_train_data
  end.

(** [os.path.join(dir, name)] for a relative [name] *)
Definition path_join (dir name : string) : string :=
  if decide (dir = "") then name
  else if bool_decide (String.list_ascii_of_string "/"
                         `suffix_of` String.list_ascii_of_string dir)
       then dir +:+ name
       else dir +:+ "/" +:+ name.

Definition set_transform (t : list Transform) : prog (World C R) () := λ w,
  (Ok (), mkWorld (mkWaveformDataset t (wfd_len (wfd w)) (wfd_item (wfd w)))
                  (disk w)).

(** A step on the file system, within the world. *)
Definition on_disk {A} (m : prog (storage C R) A) : prog (World C R) A := λ w,
  let '(r, st) := m (disk w) in (r, mkWorld (wfd w) st).

(** The body of the loop that saves the bases. *)
Definition save_rb (out_dir suffix : string) (V_paths : list string)
    (entry : string * SVDBasis C R) : prog (storage C R) (list string) :=
  let '(ifo, basis) := entry in
  _ ← update (λ st, st' ← to_file basis
                 (path_join out_dir ("V_" +:+ ifo +:+ suffix +:+ ".npy")) st;
               Ok ((), st'));
  sv ← lift (match s basis with Some sv => Ok sv | None => Raise AttributeError end);
  _ ← update (λ st, st' ← np_save
                 (path_join out_dir ("s_" +:+ ifo +:+ suffix +:+ ".npy"))
                 (NpyVector sv) st;
               Ok ((), st'));
  mret (V_paths ++ [path_join out_dir ("V_" +:+ ifo +:+ suffix +:+ ".npy")]).

(** The body of the loop that tests the bases. *)
Definition test_rb (N_train : nat) (out_dir suffix : string)
    (rb_train_data : dict (matrix C)) (_ : ())
    (entry : string * SVDBasis C R) : prog (storage C R) () :=
  let '(ifo, basis) := entry in
  data ← lift (dict_get rb_train_data ifo);
  _ ← update (test_basis basis (slice_rows_from N_train data) default_n_values
                (Some (path_join out_dir ("V_" +:+ ifo +:+ suffix +:+ "_stats.npy"))));
  mret ().

(** The part of the builder that collects the data, from the probe of
    the first sample to the end of the loop over the loader; it reads the
    data source and nothing else.  [fill] is the content of the memory
    that [np.empty] hands out for each channel. *)
Definition collect_data (fill : string → nat → nat → C)
    (N_train N_test batch_size : nat) (d : WaveformDataset C R)
    : result (dict (matrix C)) :=
  probe ← wfd_getitem d 0;
  let ifos := keys probe.2 in
  probe ← wfd_getitem d 0;
  ifo0 ← match ifos !! 0 with Some i => Ok i | None => Raise IndexError end;
  h ← dict_get probe.2 ifo0;
  let M := length h in
  let N := N_train + N_test in
  let rb_train_data := (λ ifo, (ifo, np_empty (fill ifo) N M)) <$> ifos in
  rb_loader ← DataLoader d batch_size;
  collect_loop N batch_size rb_loader 0 rb_train_data.

(** The loop that fits one basis per channel, by the default method. *)
Definition generate_rb (N_train n_rb : nat) (rb_train_data : dict (matrix C))
    : result (dict (SVDBasis C R)) :=
  for_each (λ '(ifo, data),
    basis ← generate_basis SVDBasis_init (slice_rows N_train data) n_rb "random";
    Ok (ifo, basis)) rb_train_data.

(** [generate_and_save_reduced_basis] *)
Definition generate_and_save_reduced_basis (fill : string → nat → nat → C)
    (omitted_transforms : list string)
    (N_train N_test batch_size num_workers n_rb : nat)
    (out_dir : option string) (suffix : string)
    : prog (World C R) (list string) :=
  wfd_transform_original ← (λ w, (Ok (transform (wfd w)), w)) : prog (World C R) _;
  let transforms_rb :=
    filter (λ tr, tr_type tr ∉ omitted_transforms) wfd_transform_original in
  _ ← set_transform transforms_rb;
  (* get training data for reduced basis *)
  rb_train_data ← (λ w, (collect_data fill N_train N_test batch_size (wfd w), w))
                   : prog (World C R) _;
  (* generate rb *)
  basis_dict ← lift (generate_rb N_train n_rb rb_train_data);
  (* save rb *)
  V_paths ← match out_dir with
            | Some dir => on_disk (prog_fold (save_rb dir suffix) [] basis_dict)
            | None => mret []
            end;
  (* test rb *)
  _ ← match out_dir with
      | Some dir =>
          on_disk (prog_fold (test_rb N_train dir suffix rb_train_data) () basis_dict)
      | None => mret ()
      end;
  (* set wfd.transform to original transform *)
  _ ← set_transform wfd_transform_original;
  mret V_paths.

(** *** The invariants of a populated basis *)

(** [Vh == V.T.conj()] *)
Definition hermitian_pair (self : SVDBasis C R) : Prop :=
  ∃ v, V self = Some v ∧ Vh self = Some (conj_transpose v).

(** [n == V.shape[1]] *)
Definition rank_is_columns (self : SVDBasis C R) : Prop :=
  ∃ v, V self = Some v ∧ n self = Some (shape1 v).

(** All of [V], [Vh], [n] and [s] are set. *)
Definition fully_initialized (self : SVDBasis C R) : Prop :=
  is_Some (V self) ∧ is_Some (Vh self) ∧ is_Some (n self) ∧ is_Some (s self).




(** *** The scores of the validator, as the specification words them *)

(** [h @ A] when the shapes agree. *)
Definition project (h : list C) (A : matrix C) : list C :=
  (λ j, cdot h (column j A)) <$> seq 0 (shape1 A).

(** [(h @ V[:, :k]) @ Vh[:k]] *)
Definition reconstruction (v vh : matrix C) (k : nat) (h : list C) : list C :=
  project (project h (slice_cols k v)) (slice_rows k vh).

(** [mean(|x|^2)] *)
Definition mean_square (x : list C) : R :=
  rmean ((λ z, rsquare (cabs z)) <$> x).

(** [1 - Re(mean(conj(h) * h')) / sqrt(norm1 * norm2)] for the
    reconstruction [h'] of [h] *)
Definition mismatch (v vh : matrix C) (k : nat) (h : list C) : R :=
  let h' := reconstruction v vh k h in
  let norm1 := mean_square h in
  let norm2 := mean_square h' in
  let inner := creal (cmean (zip_with cmul (conj <$> h) h')) in
  rsub rone (rdiv inner (rsqrt (rmul norm1 norm2))).

(** [d = max(|h - h'|)] *)
Definition max_deviation (v vh : matrix C) (k : nat) (h : list C) (d : R)
    : Prop :=
  np_max (cabs <$> zip_with csub h (reconstruction v vh k h)) = Ok d.

(** *** Batches that fill the buffer

    A batch of [batch_size] rows of length [M] for each of the channels
    [chans], and a buffer of [N] rows of length [M]. *)
Definition full_batch (M batch_size : nat) (chans : list string)
    (b : result Batch) : Prop :=
  ∃ data, b = Ok data ∧
    ∀ ch, ch ∈ chans →
      ∃ src, dict_get data.2 ch = Ok src ∧ wf_matrix src ∧
             shape0 src = batch_size ∧ shape1 src = M.

Definition buffer (N M : nat) (buf : matrix C) : Prop :=
  wf_matrix buf ∧ shape0 buf = N ∧ shape1 buf = M.

(** A sample with the channels [ifos], each a signal of length [M], and
    a data source all of whose samples are such under the pipeline it
    holds. *)
Definition uniform_sample (ifos : list string) (M : nat) (smp : Sample C R)
    : Prop :=
  keys smp.2 = ifos ∧
  ∀ ch, ch ∈ ifos → ∃ x, dict_get smp.2 ch = Ok x ∧ length x = M.

Definition uniform_source (ifos : list string) (M : nat)
    (d : WaveformDataset C R) : Prop :=
  ∀ i, i < wfd_len d →
    ∃ smp, wfd_item d (transform d) i = Ok smp ∧ uniform_sample ifos M smp.

(** *** The exceptions a computation can raise *)

Definition raises_in {X} (P : exn → Prop) (r : result X) : Prop :=
  ∀ e, r = Raise e → P e.

(** *** The files of the builder *)

(** The names under which the builder saves the matrix, the singular
    values and the statistics of a channel. *)
Definition V_path (dir suffix ifo : string) : string :=
  path_join dir ("V_" +:+ ifo +:+ suffix +:+ ".npy").
Definition s_path (dir suffix ifo : string) : string :=
  path_join dir ("s_" +:+ ifo +:+ suffix +:+ ".npy").
Definition stats_path (dir suffix ifo : string) : string :=
  path_join dir ("V_" +:+ ifo +:+ suffix +:+ "_stats.npy").

Definition channel_files (dir suffix ifo : string) : list string :=
  [V_path dir suffix ifo; s_path dir suffix ifo; stats_path dir suffix ifo].

(** The channels of a data source: the keys of its first sample, under
    the pipeline it holds; the builder reads them from [wfd[0][1]]. *)
Definition channels (d : WaveformDataset C R) : list string :=
  match wfd_getitem d 0 with
  | Ok probe => keys probe.2
  | Raise _ => []
  end.

(** The files of the channels [ifos] in the output directory, when
    there is one. *)
Definition builder_path (out_dir : option string) (suffix : string)
    (ifos : list string) (p : string) : Prop :=
  ∃ dir ifo, out_dir = Some dir ∧ ifo ∈ ifos ∧
             p ∈ channel_files dir suffix ifo.

(** From [st] to [st'] no file is removed, and a file that differs is
    one of the [allowed] paths; what can be written stays the same. *)
Definition changes_only (allowed : string → Prop) (st st' : storage C R)
    : Prop :=
  writable st' = writable st ∧
  ∀ p, files st' !! p = files st !! p ∨
       allowed p ∧ is_Some (files st' !! p).

(** *** The signals of a data source *)

(** The signal of channel [ch] in sample [i], under the pipeline that
    the data source holds. *)
Definition signal (d : WaveformDataset C R) (ch : string) (i : nat) : list C :=
  match wfd_item d (transform d) i with
  | Ok smp => match dict_get smp.2 ch with Ok x => x | Raise _ => [] end
  | Raise _ => []
  end.

(** A batch that holds, for each of the channels [ifos], the signals of
    the samples [a], ..., [a + c - 1] as the rows of a [c x M] matrix. *)
Definition sample_batch (d : WaveformDataset C R) (ifos : list string)
    (M a c : nat) (b : result Batch) : Prop :=
  ∃ data, b = Ok data ∧
    ∀ ch, ch ∈ ifos →
      dict_get data.2 ch = Ok (Matrix c M (signal d ch <$> seq a c)).

(** A buffer of channel [ch] whose first [L] rows are the signals of the
    samples [0], ..., [L - 1]. *)
Definition filled (d : WaveformDataset C R) (N M L : nat) (ch : string)
    (kv : string * matrix C) : Prop :=
  kv.1 = ch ∧ buffer N M kv.2 ∧
  take L (rows kv.2) = signal d ch <$> seq 0 L.


(** *** A basis that can validate signals of length [M] *)

(** All four attributes are set, and [V] and [Vh] have the shapes
    [M x r] and [r x M]. *)
Definition validates (M : nat) (self : SVDBasis C R) : Prop :=
  ∃ v vh rank sv,
    V self = Some v ∧ Vh self = Some vh ∧ n self = Some rank ∧
    s self = Some sv ∧
    shape1 v = shape0 vh ∧ shape1 vh = shape0 v ∧ shape0 v = M.

(** The matrix whose rows are the signals of channel [ch] in the samples
    [a], ..., [a + c - 1], each of length [M]. *)
Definition signals (d : WaveformDataset C R) (ch : string) (M a c : nat)
    : matrix C :=
  Matrix c M (signal d ch <$> seq a c).

End model.

Arguments Batch : clear implicits.

(** ** A concrete kernel

    Gaussian integers for the complex scalars and integers for the real
    ones, with truncating division and integer square root, and a pair of
    factorization routines of the right shape, whose [Vh] consists of the
    leading coordinate vectors.  They serve to run the model on concrete
    inputs. *)

Module Gauss.

Definition cplx : Type := Z * Z.

Definition sum_Z (xs : list Z) : Z := foldr Z.add 0%Z xs.

Definition mul (x y : cplx) : cplx :=
  (x.1 * y.1 - x.2 * y.2, x.1 * y.2 + x.2 * y.1)%Z.

Definition mean_Z (xs : list Z) : Z := (sum_Z xs / Z.of_nat (length xs))%Z.

#[global] Instance numeric : Numeric cplx Z := {|
  conj z := (z.1, - z.2)%Z;
  astype_complex128 z := z;
  csub x y := (x.1 - y.1, x.2 - y.2)%Z;
  cmul := mul;
  cdot x y := (sum_Z (zip_with mul x y).*1, sum_Z (zip_with mul x y).*2);
  cabs z := Z.sqrt (z.1 * z.1 + z.2 * z.2);
  creal z := z.1;
  cmean xs := (mean_Z xs.*1, mean_Z xs.*2);
  rmean := mean_Z;
  rsquare x := (x * x)%Z;
  rmul := Z.mul;
  rdiv := Z.div;
  rsub := Z.sub;
  rsqrt := Z.sqrt;
  rone := 1%Z;
  rmax := Z.max;
  conj_involutive z :=
    match z with (a, b) => f_equal (pair a) (Z.opp_involutive b) end
|}.

(** The first [r] coordinate vectors of length [k], as rows. *)
Definition unit_rows (r k : nat) : matrix cplx :=
  Matrix r k ((λ i, (λ j, if decide (i = j) then (1, 0)%Z else (0, 0)%Z)
                      <$> seq 0 k) <$> seq 0 r).

Definition zeros (r k : nat) : matrix cplx :=
  Matrix r k (replicate r (replicate k (0, 0)%Z)).

Definition svd (A : matrix cplx) : result (matrix cplx * list Z * matrix cplx) :=
  let r := shape0 A `min` shape1 A in
  Ok (zeros (shape0 A) r, replicate r 0%Z, unit_rows r (shape1 A)).

Definition rsvd (A : matrix cplx) (k seed : nat)
    : result (matrix cplx * list Z * matrix cplx) :=
  let r := k `min` (shape0 A `min` shape1 A) in
  Ok (zeros (shape0 A) r, replicate r 0%Z, unit_rows r (shape1 A)).

Lemma wf_unit_rows r k : wf_matrix (unit_rows r k).
Proof.
  split; simpl.
  - by rewrite length_fmap, length_seq.
  - apply Forall_fmap, Forall_forall. intros i _. simpl.
    by rewrite length_fmap, length_seq.
Qed.

#[global] Instance factorization : Factorization cplx Z.
Proof.
  refine {| scipy_linalg_svd := svd; randomized_svd := rsvd |}.
  - intros A U sv Vh _ [= _ _ <-]. split; [apply wf_unit_rows | done].
  - intros A k seed U sv Vh _ [= _ _ <-]. split; [apply wf_unit_rows | done].
Defined.

(** A dataset of [len] samples with the channels H1 and L1, three
    frequency bins each; the pipeline in force does not change them. *)
Definition sample_of (i : nat) : Sample cplx Z :=
  ([("mass", Z.of_nat i)],
   [("H1", [(Z.of_nat i, 1); (2, 0); (0, 3)]%Z);
    ("L1", [(1, Z.of_nat i); (0, 1); (4, 0)]%Z)]).

Definition pipeline : list Transform :=
  [mkTransform "ProjectOntoDetectors" 0; mkTransform "AddNoise" 1;
   mkTransform "RepackageStrains" 2].

Definition dataset (len : nat) : WaveformDataset cplx Z :=
  mkWaveformDataset pipeline len (λ _ i, Ok (sample_of i)).

Definition no_fill : string → nat → nat → cplx := λ _ _ _, (7, 7)%Z.

(** Two waveforms over three frequency bins. *)
Definition A0 : matrix cplx :=
  Matrix 2 3 [[(1, 0); (2, 0); (3, 1)]; [(0, 0); (1, 1); (0, 0)]]%Z.

Definition empty_disk : storage cplx Z := Storage ∅ (λ _, true).

(** A basis over three bins with two elements, as an exact fit of [A0]
    leaves it. *)
Definition b0 : SVDBasis cplx Z :=
  mkSVDBasis (Some (conj_transpose (unit_rows 2 3))) (Some (unit_rows 2 3))
             (Some 2) (Some [0; 0]%Z).

End Gauss.


(** * Properties *)

Section properties.
Context {C R : Type} `{!Numeric C R} `{!Factorization C R}.
Implicit Types (A B : matrix C) (rs : list (list C)) (self : SVDBasis C R).

(** ** Transposition and slices *)

Lemma length_transpose_rows k rs :
  Forall (λ r, length r = k) rs → length (transpose_rows k rs) = k.
Proof.
  induction 1 as [|r rs Hr _ IH]; simpl.
  - apply length_replicate.
  - rewrite length_zip_with. lia.
Qed.

Lemma Forall_length_transpose_rows k rs :
  Forall (λ c, length c = length rs) (transpose_rows k rs).
Proof.
  induction rs as [|r rs IH]; simpl.
  - by apply Forall_replicate.
  - revert IH. generalize (transpose_rows k rs). intros T.
    revert r. induction T as [|c T IHT]; intros [|x r] HT; simpl;
      try constructor.
    + simpl. f_equal. by inversion HT.
    + apply IHT. by inversion HT.
Qed.

Lemma wf_transpose A : wf_matrix A → wf_matrix (transpose A).
Proof.
  intros [Hlen Hrows]. split; simpl.
  - by apply length_transpose_rows.
  - rewrite <-Hlen. apply Forall_length_transpose_rows.
Qed.

Lemma wf_map_matrix f A : wf_matrix A → wf_matrix (map_matrix f A).
Proof.
  intros [Hlen Hrows]. split; simpl.
  - by rewrite length_fmap.
  - apply Forall_fmap. eapply Forall_impl; [done|].
    intros r Hr. simpl. by rewrite length_fmap.
Qed.

Lemma wf_conj_transpose A : wf_matrix A → wf_matrix (conj_transpose A).
Proof. intros. by apply wf_map_matrix, wf_transpose. Qed.

Lemma wf_slice_rows k A : wf_matrix A → wf_matrix (slice_rows k A).
Proof.
  intros [Hlen Hrows]. split; simpl.
  - rewrite length_take. lia.
  - by apply Forall_take.
Qed.

Lemma wf_slice_cols k A : wf_matrix A → wf_matrix (slice_cols k A).
Proof.
  intros [Hlen Hrows]. split; simpl.
  - by rewrite length_fmap.
  - apply Forall_fmap. eapply Forall_impl; [done|].
    intros r Hr. simpl in *. rewrite length_take, Hr. done.
Qed.

Lemma wf_slice_rows_from k A : wf_matrix A → wf_matrix (slice_rows_from k A).
Proof.
  intros [Hlen Hrows]. split; simpl.
  - rewrite length_drop. lia.
  - by apply Forall_drop.
Qed.

(** A slice that ends beyond the axis keeps everything. *)
Lemma slice_rows_ge k A : wf_matrix A → shape0 A ≤ k → slice_rows k A = A.
Proof.
  destruct A as [m c rs]. intros [Hlen _] Hk. simpl in *.
  unfold slice_rows. simpl. f_equal; [lia|]. apply take_ge. lia.
Qed.

Lemma slice_cols_ge k A : wf_matrix A → shape1 A ≤ k → slice_cols k A = A.
Proof.
  destruct A as [m c rs]. intros [_ Hrows] Hk. simpl in *.
  unfold slice_cols. simpl. f_equal; [lia|].
  induction Hrows as [|r rs Hr _ IH]; [done|]. simpl. f_equal; [|done].
  apply take_ge. lia.
Qed.

Lemma transpose_rows_0_replicate k :
  transpose_rows 0 (replicate k ([] : list C)) = [].
Proof. by destruct k. Qed.

Lemma transpose_rows_cons m (r : list C) rs :
  length r = length rs → Forall (λ c, length c = m) rs →
  transpose_rows (S m) (zip_with cons r rs) = r :: transpose_rows m rs.
Proof.
  intros Hlen Hrs. revert r Hlen.
  induction Hrs as [|c rs Hc _ IH]; intros [|x r] Hlen; try done.
  simpl. rewrite IH by (simpl in Hlen; lia). done.
Qed.

Lemma transpose_rows_involutive k rs :
  Forall (λ r, length r = k) rs →
  transpose_rows (length rs) (transpose_rows k rs) = rs.
Proof.
  induction 1 as [|r rs Hr Hrs IH]; simpl.
  - apply transpose_rows_0_replicate.
  - rewrite transpose_rows_cons.
    + by rewrite IH.
    + by rewrite length_transpose_rows.
    + apply Forall_length_transpose_rows.
Qed.

Lemma transpose_involutive A : wf_matrix A → transpose (transpose A) = A.
Proof.
  destruct A as [m c rs]. intros [Hlen Hrows]. simpl in *. subst m.
  unfold transpose. simpl. f_equal. by apply transpose_rows_involutive.
Qed.

(** Row [j] of the transpose is column [j]. *)
Lemma transpose_rows_lookup k rs j :
  Forall (λ r, length r = k) rs → j < k →
  transpose_rows k rs !! j = Some (omap (λ r, r !! j) rs).
Proof.
  intros Hrs Hj. induction Hrs as [|r rs Hr _ IH]; simpl.
  - by apply lookup_replicate_2.
  - rewrite lookup_zip_with, IH.
    destruct (lookup_lt_is_Some_2 r j) as [x Hx]; [lia|].
    by rewrite Hx.
Qed.

Lemma transpose_column A j :
  wf_matrix A → j < shape1 A → rows (transpose A) !! j = Some (column j A).
Proof. intros [_ Hrows] Hj. by apply transpose_rows_lookup. Qed.

Lemma transpose_rows_fmap (f : C → C) k rs :
  transpose_rows k ((λ r : list C, f <$> r) <$> rs)
  = (λ r : list C, f <$> r) <$> transpose_rows k rs.
Proof.
  induction rs as [|r rs IH]; csimpl.
  - by rewrite fmap_replicate.
  - rewrite IH. generalize (transpose_rows k rs). intros T.
    revert T. induction r as [|x r IHr]; intros [|c T]; csimpl; try done.
    by rewrite IHr.
Qed.

Lemma transpose_map_matrix f A :
  transpose (map_matrix f A) = map_matrix f (transpose A).
Proof. unfold transpose, map_matrix. simpl. by rewrite transpose_rows_fmap. Qed.

Lemma map_matrix_conj_involutive A : map_matrix conj (map_matrix conj A) = A.
Proof.
  destruct A as [m c rs]. unfold map_matrix. simpl. f_equal.
  rewrite <-list_fmap_compose. rewrite <-(list_fmap_id rs) at 2.
  apply list_fmap_ext. intros _ r _. simpl.
  rewrite <-list_fmap_compose. rewrite <-(list_fmap_id r) at 2.
  apply list_fmap_ext. intros _ z _. simpl. apply conj_involutive.
Qed.

(** The conjugate transpose is an involution on well-formed arrays. *)
Lemma conj_transpose_involutive A :
  wf_matrix A → conj_transpose (conj_transpose A) = A.
Proof.
  intros HA. unfold conj_transpose.
  rewrite transpose_map_matrix, map_matrix_conj_involutive.
  by apply transpose_involutive.
Qed.

Lemma transpose_rows_take j k rs :
  transpose_rows (j `min` k) (take j <$> rs) = take j (transpose_rows k rs).
Proof.
  induction rs as [|r rs IH]; csimpl.
  - by rewrite take_replicate.
  - by rewrite IH, zip_with_take.
Qed.

(** Transposing the first columns gives the first rows of the transpose. *)
Lemma transpose_slice_cols j A :
  transpose (slice_cols j A) = slice_rows j (transpose A).
Proof.
  unfold transpose, slice_cols, slice_rows. simpl.
  by rewrite transpose_rows_take.
Qed.

Lemma map_matrix_slice_rows f j A :
  map_matrix f (slice_rows j A) = slice_rows j (map_matrix f A).
Proof. unfold map_matrix, slice_rows. simpl. by rewrite fmap_take. Qed.

Lemma conj_transpose_slice_cols j A :
  wf_matrix A →
  conj_transpose (slice_cols j (conj_transpose A)) = slice_rows j A.
Proof.
  intros HA. unfold conj_transpose at 1.
  rewrite transpose_slice_cols, map_matrix_slice_rows.
  fold (conj_transpose (conj_transpose A)).
  by rewrite conj_transpose_involutive.
Qed.

(** ** Fitting *)

Lemma shape_conj_transpose A :
  shape0 (conj_transpose A) = shape1 A ∧ shape1 (conj_transpose A) = shape0 A.
Proof. done. Qed.

(** C1.  On a dense [m x k] matrix the exact method factorizes in full
    and then, when the requested rank is nonzero and below the natural
    rank [min m k], keeps the first columns of [V] and the first rows of
    [Vh] up to that rank, and otherwise keeps every component.  The stored
    rank is the number of rows kept in [Vh]: the natural rank for a
    request of zero or above the natural rank. *)
Theorem generate_basis_scipy_truncates self A k U sv Vh0 :
  wf_matrix A →
  scipy_linalg_svd A = Ok (U, sv, Vh0) →
  let r := shape0 A `min` shape1 A in
  ∃ b, generate_basis self A k "scipy" = Ok b ∧
    (0 < k < r → V b = Some (slice_cols k (conj_transpose Vh0)) ∧
                 Vh b = Some (slice_rows k Vh0) ∧ n b = Some k) ∧
    (¬ 0 < k < r → V b = Some (conj_transpose Vh0) ∧ Vh b = Some Vh0) ∧
    (∃ vh, Vh b = Some vh ∧ n b = Some (shape0 vh) ∧
           shape0 vh = length (rows vh)) ∧
    (k = 0 → n b = Some r) ∧
    (r < k → n b = Some r) ∧
    s b = Some sv.
Proof.
  intros HA Hsvd r.
  destruct (scipy_linalg_svd_Vh A U sv Vh0 HA Hsvd) as (HVh & Hs0 & Hs1).
  fold r in Hs0.
  assert (Hr : r ≤ shape1 A) by (unfold r; lia).
  unfold generate_basis.
  rewrite decide_False by done. rewrite decide_True by done.
  rewrite Hsvd. simpl.
  destruct (decide (k = 0 ∨ shape1 Vh0 < k)) as [Hall|Hcut].
  - eexists. split; [done|]. simpl. split_and!.
    + intros ?. exfalso. lia.
    + done.
    + exists Vh0. split_and!; [done..|]. by destruct HVh.
    + intros _. by rewrite Hs0.
    + intros _. by rewrite Hs0.
    + done.
  - eexists. split; [done|]. simpl.
    assert (Hk : 0 < k ≤ shape1 A) by lia. split_and!.
    + intros ?. split_and!; [done..|]. f_equal. lia.
    + intros ?.
      rewrite slice_cols_ge; [|by apply wf_conj_transpose|simpl; lia].
      rewrite slice_rows_ge; [done|done|lia].
    + exists (slice_rows k Vh0). split_and!; [done..|].
      by destruct (wf_slice_rows k Vh0 HVh).
    + intros ->. lia.
    + intros Hlt. f_equal. lia.
    + done.
Qed.

(** C2.  The randomized method replaces a request of zero by
    [min m k], calls the randomized routine with the seed 0, stores [Vh]
    cast to complex, [V] as the conjugate transpose of that, the singular
    values, and as rank the request itself: above the natural rank the
    stored rank stays the request although [Vh] has fewer rows. *)
Theorem generate_basis_random_keeps_request self A k U sv Vh0 :
  let k' := if decide (k = 0) then shape0 A `min` shape1 A else k in
  randomized_svd A k' 0 = Ok (U, sv, Vh0) →
  generate_basis self A k "random"
  = Ok (mkSVDBasis
          (Some (conj_transpose (map_matrix astype_complex128 Vh0)))
          (Some (map_matrix astype_complex128 Vh0)) (Some k') (Some sv))
  ∧ (wf_matrix A → shape0 A `min` shape1 A < k' →
     shape0 (map_matrix astype_complex128 Vh0) = shape0 A `min` shape1 A).
Proof.
  intros k' Hsvd. split.
  - unfold generate_basis. rewrite decide_True by done.
    fold k'. by rewrite Hsvd.
  - intros HA Hk.
    destruct (randomized_svd_Vh A k' 0 U sv Vh0 HA Hsvd) as (_ & Hs0 & _).
    simpl. lia.
Qed.

(** ** The invariants after each populating operation *)


Lemma from_V_outcome (self : object C R) a :
  match a with
  | Array2 v =>
      from_V self a
      = (Ok (), object_of (mkSVDBasis (Some v) (Some (conj_transpose v))
                                      (Some (shape1 v)) (obj_s self)))
  | _ =>
      from_V self a
      = (Raise IndexError,
         mkObject (Some a) (Some (T_conj a)) (obj_n self) (obj_s self))
  end.
Proof. by destruct a. Qed.


Lemma from_file_matrix (self : object C R) file st v :
  files st !! file = Some (NpyMatrix v) →
  from_file self file st
  = (Ok (), object_of (mkSVDBasis (Some v) (Some (conj_transpose v))
                                  (Some (shape1 v)) (obj_s self))).
Proof. intros Hv. unfold from_file, np_load. by rewrite Hv. Qed.

Lemma generate_basis_scipy_invariant self A k b :
  wf_matrix A → generate_basis self A k "scipy" = Ok b →
  hermitian_pair b ∧ rank_is_columns b.
Proof.
  intros HA. unfold generate_basis.
  rewrite decide_False by done. rewrite decide_True by done.
  destruct (scipy_linalg_svd A) as [[[U sv] Vh0]|] eqn:Hsvd; [|done].
  destruct (scipy_linalg_svd_Vh A U sv Vh0 HA Hsvd) as (HVh & Hs0 & Hs1).
  simpl. destruct (decide _) as [Hall|Hcut]; intros [= <-].
  - split; eexists; (split; [done|]); simpl; [|done].
    by rewrite conj_transpose_involutive.
  - split; eexists; (split; [done|]); simpl; [|done].
    by rewrite conj_transpose_slice_cols.
Qed.

Lemma generate_basis_random_invariant self A k b :
  wf_matrix A → generate_basis self A k "random" = Ok b →
  hermitian_pair b ∧ (k ≤ shape0 A `min` shape1 A → rank_is_columns b).
Proof.
  intros HA. unfold generate_basis. rewrite decide_True by done.
  set (k' := if decide (k = 0) then _ else k).
  destruct (randomized_svd A k' 0) as [[[U sv] Vh0]|] eqn:Hsvd; [|done].
  destruct (randomized_svd_Vh A k' 0 U sv Vh0 HA Hsvd) as (HVh & Hs0 & Hs1).
  simpl. intros [= <-]. split.
  - eexists. split; [done|]. simpl.
    rewrite conj_transpose_involutive; [done|]. by apply wf_map_matrix.
  - intros Hk. eexists. split; [done|]. simpl. f_equal.
    unfold k' in *. case_decide; lia.
Qed.

(** C3.  After a randomized fit with a request above the natural rank
    [min m k], the stored rank is the request while [V] has [min m k]
    columns: the rank is not the number of columns of [V], unlike after
    the exact fit and the two loads. *)
Theorem generate_basis_random_rank_above_columns self A k U sv Vh0 :
  wf_matrix A →
  shape0 A `min` shape1 A < k →
  randomized_svd A k 0 = Ok (U, sv, Vh0) →
  ∃ b v, generate_basis self A k "random" = Ok b ∧
    V b = Some v ∧ shape1 v = shape0 A `min` shape1 A ∧
    n b = Some k ∧ ¬ rank_is_columns b.
Proof.
  intros HA Hk Hsvd.
  destruct (randomized_svd_Vh A k 0 U sv Vh0 HA Hsvd) as (HVh & Hs0 & Hs1).
  unfold generate_basis. rewrite decide_True by done.
  rewrite decide_False by lia. rewrite Hsvd. simpl.
  eexists _, _. split; [done|]. simpl. split_and!; [done| |done|].
  - change (shape0 Vh0 = shape0 A `min` shape1 A). lia.
  - intros (v & [= <-] & [= Hn]).
    change (k = shape0 Vh0) in Hn. lia.
Qed.

(** ** Initialization *)

Lemma generate_basis_fully_initialized self A k method b :
  generate_basis self A k method = Ok b → fully_initialized b.
Proof.
  unfold generate_basis, fully_initialized.
  destruct (decide (method = "random")) as [_|_];
    [|destruct (decide (method = "scipy")) as [_|_]; [|done]].
  - destruct (randomized_svd _ _ _) as [[[U sv] Vh0]|]; [|done].
    simpl. intros [= <-]. simpl. eauto.
  - destruct (scipy_linalg_svd _) as [[[U sv] Vh0]|]; [|done].
    simpl. destruct (decide _); intros [= <-]; simpl; eauto.
Qed.


(** ** Saving and loading *)

(** C6.  Saving writes the matrix [V] and nothing else, under the name
    with the extension [.npy], and does nothing on an empty basis.
    Loading that file into any basis gives back the same [V], with [Vh]
    its conjugate transpose and the rank its number of columns; for a
    basis whose [Vh] was the conjugate transpose of [V] the two
    projections are the same maps as before. *)
Theorem to_file_from_file_round_trip self other file st :
  writable st (npy_path file) = true →
  match V self with
  | None => to_file self file st = Ok st
  | Some v =>
      ∃ st' b, to_file self file st = Ok st' ∧
        files st' = <[npy_path file := NpyMatrix v]> (files st) ∧
        writable st' = writable st ∧
        from_file other (npy_path file) st' = (Ok (), object_of b) ∧
        V b = Some v ∧ Vh b = Some (conj_transpose v) ∧
        n b = Some (shape1 v) ∧
        (hermitian_pair self →
           Vh b = Vh self ∧
           ∀ x, fseries_to_basis_coefficients b x
                = fseries_to_basis_coefficients self x ∧
                basis_coefficients_to_fseries b x
                = basis_coefficients_to_fseries self x)
  end.
Proof.
  intros Hw. unfold to_file. destruct (V self) as [v|] eqn:HV; [|done].
  unfold np_save. rewrite Hw.
  eexists _, (mkSVDBasis (Some v) (Some (conj_transpose v)) (Some (shape1 v))
                         (obj_s other)).
  split; [done|]. simpl.
  rewrite (from_file_matrix other _ _ v) by (simpl; apply lookup_insert_eq).
  split_and!; try done.
  intros (v' & HV' & HVh'). rewrite HV in HV'. injection HV' as <-.
  split; [done|]. intros x.
  unfold fseries_to_basis_coefficients, basis_coefficients_to_fseries.
  simpl. by rewrite HV, HVh'.
Qed.

(** ** The transforms *)

Lemma for_each_Ok {X Y} (P : X → Y → Prop) (f : X → result Y) xs :
  Forall (λ x, ∃ y, f x = Ok y ∧ P x y) xs →
  ∃ ys, for_each f xs = Ok ys ∧ Forall2 P xs ys.
Proof.
  induction 1 as [|x xs (y & Hy & HP) _ (ys & Hys & HF)]; simpl.
  - by exists [].
  - exists (y :: ys). rewrite Hy. simpl. rewrite Hys. simpl. by split; [|constructor].
Qed.

Lemma length_vecmat h A v : vecmat h A = Ok v → length v = shape1 A.
Proof.
  unfold vecmat. case_decide; [|done]. intros [= <-].
  by rewrite length_fmap, length_seq.
Qed.

Lemma vecmat_Ok h A :
  length h = shape0 A → ∃ v, vecmat h A = Ok v ∧ length v = shape1 A.
Proof.
  intros Hh. unfold vecmat. rewrite decide_True by done.
  eexists. split; [done|]. by rewrite length_fmap, length_seq.
Qed.

Lemma matmul_Ok x A :
  wf_ndarray x → last_dim x = shape0 A →
  ∃ y, matmul x A = Ok y ∧ wf_ndarray y ∧
       lead y = lead x ∧ last_dim y = shape1 A.
Proof.
  intros [Hlen Hvecs] Hlast. unfold matmul. rewrite decide_True by done.
  destruct (for_each_Ok (λ _ v, length v = shape1 A) (λ v, vecmat v A) (vecs x))
    as (vs & -> & Hvs).
  { eapply Forall_impl; [done|]. intros h Hh. apply vecmat_Ok. simpl in Hh. lia. }
  simpl. eexists. split; [done|]. split_and!; try done.
  split; simpl.
  - by rewrite <-(Forall2_length _ _ _ Hvs).
  - clear -Hvs. induction Hvs; by constructor.
Qed.

Lemma Forall2_compose {X Y Z} (P : X → Y → Prop) (Q : Y → Z → Prop)
    (S : X → Z → Prop) xs ys zs :
  (∀ x y z, P x y → Q y z → S x z) →
  Forall2 P xs ys → Forall2 Q ys zs → Forall2 S xs zs.
Proof.
  intros HPQ HP. revert zs.
  induction HP; intros zs HQ; inversion HQ; subst; constructor; eauto.
Qed.

Lemma Forall2_keys {X Y} (d : dict X) (c : dict Y) :
  Forall2 (λ kv kc, kc.1 = kv.1) d c → keys c = keys d.
Proof. unfold keys. induction 1; csimpl; congruence. Qed.

(** C9.  On a populated basis, compressing and then decompressing a
    dictionary of arrays whose last dimension is the signal length gives
    a dictionary with the same keys in the same order, each array with
    the shape of the original. *)
Theorem ApplySVD_UndoSVD_shapes svd_basis v (d : dict (ndarray C)) :
  V svd_basis = Some v →
  Vh svd_basis = Some (conj_transpose v) →
  Forall (λ kv, wf_ndarray kv.2 ∧ last_dim kv.2 = shape0 v) d →
  ∃ c d', ApplySVD svd_basis d = Ok c ∧ UndoSVD svd_basis c = Ok d' ∧
    keys c = keys d ∧ keys d' = keys d ∧
    Forall2 (λ kv kv', kv'.1 = kv.1 ∧ shape kv'.2 = shape kv.2 ∧
                       last_dim kv'.2 = shape0 v ∧ wf_ndarray kv'.2) d d' ∧
    Forall2 (λ kv kc, kc.1 = kv.1 ∧ shape kc.2 = lead kv.2 ++ [shape1 v]) d c.
Proof.
  intros HV HVh Hd. unfold ApplySVD, UndoSVD, dict_comprehension.
  destruct (for_each_Ok
    (λ (kv kc : string * ndarray C), kc.1 = kv.1 ∧ wf_ndarray kc.2 ∧
       lead kc.2 = lead kv.2 ∧ last_dim kc.2 = shape1 v ∧
       last_dim kv.2 = shape0 v)
    (λ kv, y ← fseries_to_basis_coefficients svd_basis kv.2; Ok (kv.1, y)) d)
    as (c & Hc & Hdc).
  { eapply Forall_impl; [done|]. intros [key x] [Hwf Hlast]. simpl in *.
    unfold fseries_to_basis_coefficients. rewrite HV.
    destruct (matmul_Ok x v Hwf Hlast) as (y & -> & ? & ? & ?).
    simpl. eexists. split; [done|]. done. }
  destruct (for_each_Ok
    (λ (kc kv' : string * ndarray C), kv'.1 = kc.1 ∧ wf_ndarray kv'.2 ∧
       lead kv'.2 = lead kc.2 ∧ last_dim kv'.2 = shape0 v)
    (λ kc, y ← basis_coefficients_to_fseries svd_basis kc.2; Ok (kc.1, y)) c)
    as (d' & Hd' & Hcd').
  { clear Hc Hd. induction Hdc as [|kv kc d0 c0 (Hk & Hwf & Hlead & Hlast & _) _ IH];
      constructor; [|done].
    unfold basis_coefficients_to_fseries. rewrite HVh.
    destruct (matmul_Ok kc.2 (conj_transpose v) Hwf) as (y & -> & ? & ? & ?);
      [done|].
    simpl. eexists. split; [done|]. done. }
  exists c, d'. split_and!; try done.
  - apply (Forall2_keys d c). eapply Forall2_impl; [done|]. by intros ?? (? & _).
  - apply (Forall2_keys d d').
    eapply (Forall2_compose _ _ _ d c d'); [|done..].
    intros ??? (? & _) (? & _). congruence.
  - eapply (Forall2_compose _ _ _ d c d'); [|done..].
    intros kv kc kv' (Hk & _ & Hlead & _ & Hlast) (Hk' & Hwf' & Hlead' & Hlast').
    split_and!; [congruence| |done..].
    unfold shape. by rewrite Hlead', Hlead, Hlast', Hlast.
  - eapply Forall2_impl; [done|].
    intros kv kc (Hk & _ & Hlead & Hlast & _).
    split; [done|]. unfold shape. by rewrite Hlead, Hlast.
Qed.

(** ** The validator *)

Lemma result_bind_Ok {X Y} (a : X) (f : X → result Y) : (Ok a ≫= f) = f a.
Proof. done. Qed.

Ltac result_step := rewrite result_bind_Ok; cbv beta.

Lemma vecmat_project h A : length h = shape0 A → vecmat h A = Ok (project h A).
Proof. intros Hh. unfold vecmat. by rewrite decide_True. Qed.

Section validator.
Context (self : SVDBasis C R) (v vh : matrix C) (rank : nat) (sv : list R).
Context (test_data : matrix C).
Hypothesis HV : V self = Some v.
Hypothesis HVh : Vh self = Some vh.
Hypothesis Hn : n self = Some rank.
Hypothesis Hinner : shape1 v = shape0 vh.
Hypothesis Houter : shape1 vh = shape0 v.
Hypothesis Hbins : 0 < shape0 v.
Hypothesis Hrows : Forall (λ h, length h = shape0 v) (rows test_data).
Hypothesis Hsome : rows test_data ≠ [].

Lemma test_waveform_scores k h :
  length h = shape0 v →
  ∃ m d, test_waveform self k h = Ok (m, d) ∧
    rsub rone m = mismatch v vh k h ∧ max_deviation v vh k h d.
Proof.
  intros Hh. unfold test_waveform. rewrite HV, HVh. cbn [not_None].
  assert (Hlen : length (reconstruction v vh k h) = length h).
  { unfold reconstruction, project. rewrite length_fmap, length_seq. simpl. lia. }
  result_step. rewrite (vecmat_project h) by done.
  result_step. result_step. rewrite (vecmat_project (project _ _)); last first.
  { unfold project. rewrite length_fmap, length_seq. simpl. lia. }
  fold (reconstruction v vh k h). result_step.
  unfold broadcast2. rewrite !decide_True by (by rewrite ?length_fmap).
  do 2 result_step.
  destruct (cabs <$> zip_with csub h (reconstruction v vh k h))
    as [|x xs] eqn:Hdiff.
  { apply (f_equal length) in Hdiff.
    rewrite length_fmap, length_zip_with in Hdiff. simpl in Hdiff. lia. }
  simpl. eexists _, _. split; [done|]. split; [done|].
  unfold max_deviation. by rewrite Hdiff.
Qed.

Lemma test_basis_step_scores stats k :
  ∃ stats', test_basis_step self test_data stats k = Ok stats' ∧
    stats_s stats' = stats_s stats ∧
    if decide (k ≤ rank) then
      mismatches stats'
      = <[k := mismatch v vh k <$> rows test_data]> (mismatches stats) ∧
      ∃ devs, max_deviations stats' = <[k := devs]> (max_deviations stats) ∧
              Forall2 (max_deviation v vh k) (rows test_data) devs
    else stats' = stats.
Proof.
  unfold test_basis_step. rewrite Hn. simpl.
  destruct (decide (rank < k)) as [Hskip|Hrun].
  { exists stats. rewrite decide_False by lia. done. }
  destruct (decide (k ≤ rank)) as [_|?]; [|lia].
  destruct (for_each_Ok
    (λ h (md : R * R), rsub rone md.1 = mismatch v vh k h ∧
                       max_deviation v vh k h md.2)
    (test_waveform self k) (rows test_data)) as (res & -> & Hres).
  { eapply Forall_impl; [done|]. intros h Hh.
    destruct (test_waveform_scores k h Hh) as (m & d & ? & ? & ?).
    by exists (m, d). }
  assert (Hmis : (λ m, rsub rone m) <$> res.*1
                 = mismatch v vh k <$> rows test_data).
  { clear Hsome Hrows.
    induction Hres as [|h md hs res [Hm _] _ IH]; csimpl; [done|].
    by rewrite Hm, IH. }
  result_step. rewrite Hmis. unfold print_summary.
  destruct (mismatch v vh k <$> rows test_data) as [|m ms] eqn:Hms.
  { apply fmap_nil_inv in Hms. by destruct Hsome. }
  simpl. eexists. split; [done|]. simpl. rewrite <-Hms. split_and!; [done..|].
  eexists. split; [done|].
  apply Forall2_fmap_r. eapply Forall2_impl; [done|]. by intros ?? [_ ?].
Qed.

Lemma for_fold_test_basis_step n_values stats :
  ∃ stats', for_fold (test_basis_step self test_data) stats n_values = Ok stats' ∧
    stats_s stats' = stats_s stats ∧
    ∀ k, (k ∈ n_values ∧ k ≤ rank →
            mismatches stats' !! k = Some (mismatch v vh k <$> rows test_data) ∧
            ∃ devs, max_deviations stats' !! k = Some devs ∧
                    Forall2 (max_deviation v vh k) (rows test_data) devs) ∧
         (¬ (k ∈ n_values ∧ k ≤ rank) →
            mismatches stats' !! k = mismatches stats !! k ∧
            max_deviations stats' !! k = max_deviations stats !! k).
Proof.
  revert stats. induction n_values as [|x l IH]; intros stats; simpl.
  { exists stats. split_and!; [done..|]. intros k. split; [|done].
    intros [Hk _]. by apply elem_of_nil in Hk. }
  destruct (test_basis_step_scores stats x) as (stats1 & -> & Hs1 & Hstep).
  simpl. destruct (IH stats1) as (stats' & -> & Hs' & Hall).
  exists stats'. split; [done|]. split; [congruence|].
  intros k. destruct (Hall k) as [Hin Hout].
  destruct (decide (k ∈ l ∧ k ≤ rank)) as [Hl|Hl].
  { split; [intros _; by apply Hin|]. intros Hno. destruct Hno.
    split; [|by destruct Hl]. apply elem_of_cons. right. by destruct Hl. }
  destruct (Hout Hl) as [Hm Hd]. rewrite Hm, Hd.
  destruct (decide (x ≤ rank)) as [Hx|Hx].
  - destruct Hstep as (-> & devs & -> & Hdevs).
    destruct (decide (x = k)) as [->|Hne].
    + rewrite !lookup_insert_eq. split; [|intros Hno; destruct Hno].
      * intros _. split; [done|]. by exists devs.
      * split; [apply elem_of_cons; by left|done].
    + rewrite !lookup_insert_ne by done. split; [|done].
      intros [Hk ?]. apply elem_of_cons in Hk as [->|Hk]; [done|].
      by destruct Hl.
  - subst stats1. split; [|done].
    intros [Hk ?]. apply elem_of_cons in Hk as [->|Hk]; [lia|].
    by destruct Hl.
Qed.

End validator.

(** C5.  On a populated basis with singular values, for test rows of
    the signal length, the validator returns statistics that hold, for
    every candidate rank up to the fitted rank, one mismatch
    [1 - inner / sqrt(norm1 * norm2)] and one maximal deviation
    [max |h - h'|] per test row [h] with [h' = (h @ V[:, :k]) @ Vh[:k]];
    a candidate above the fitted rank has no entry.  With an output file
    the statistics are what is written there. *)
Theorem test_basis_statistics self v vh rank sv test_data n_values outfile st :
  V self = Some v → Vh self = Some vh → n self = Some rank →
  s self = Some sv →
  shape1 v = shape0 vh → shape1 vh = shape0 v → 0 < shape0 v →
  Forall (λ h, length h = shape0 v) (rows test_data) →
  rows test_data ≠ [] →
  (∀ file, outfile = Some file → writable st (npy_path file) = true) →
  ∃ stats st', test_basis self test_data n_values outfile st = Ok (stats, st') ∧
    stats_s stats = sv ∧
    (∀ k, k ∈ n_values → k ≤ rank →
       mismatches stats !! k = Some (mismatch v vh k <$> rows test_data) ∧
       ∃ devs, max_deviations stats !! k = Some devs ∧
               Forall2 (max_deviation v vh k) (rows test_data) devs) ∧
    (∀ k, rank < k →
       mismatches stats !! k = None ∧ max_deviations stats !! k = None) ∧
    (∀ k, k ∉ n_values →
       mismatches stats !! k = None ∧ max_deviations stats !! k = None) ∧
    match outfile with
    | Some file =>
        files st' = <[npy_path file := NpyPickle stats]> (files st)
    | None => st' = st
    end.
Proof.
  intros HV HVh Hn Hs Hinner Houter Hbins Hrows Hsome Hw.
  unfold test_basis. rewrite Hs. simpl.
  destruct (for_fold_test_basis_step self v vh rank test_data
              HV HVh Hn Hinner Houter Hbins Hrows Hsome n_values
              (TestStats sv ∅ ∅)) as (stats & -> & Hsv & Hall).
  simpl.
  assert (Hfile : ∃ st', match outfile with
            | Some file => st' ← np_save file (NpyPickle stats) st; Ok (stats, st')
            | None => Ok (stats, st)
            end = Ok (stats, st') ∧
            match outfile with
            | Some file =>
                files st' = <[npy_path file := NpyPickle stats]> (files st)
            | None => st' = st
            end).
  { destruct outfile as [file|]; [|by exists st].
    unfold np_save. rewrite (Hw file eq_refl). simpl. eexists. by split. }
  destruct Hfile as (st' & -> & Hst').
  exists stats, st'. split_and!; try done.
  - intros k Hk Hle. by apply (Hall k).
  - intros k Hk. destruct (Hall k) as [_ Hout].
    destruct Hout as [-> ->]; [intros [_ ?]; lia|]. simpl. by rewrite !lookup_empty.
  - intros k Hk. destruct (Hall k) as [_ Hout].
    destruct Hout as [-> ->]; [by intros [? _]|]. simpl. by rewrite !lookup_empty.
Qed.

(** ** The builder *)

Lemma for_each_inv {X Y} (f : X → result Y) xs ys :
  for_each f xs = Ok ys → Forall2 (λ x y, f x = Ok y) xs ys.
Proof.
  revert ys. induction xs as [|x xs IH]; simpl; intros ys.
  - intros [= <-]. constructor.
  - destruct (f x) as [y|] eqn:Hy; [|done]. simpl.
    destruct (for_each f xs) as [ys'|]; [|done]. simpl.
    intros [= <-]. constructor; [done|]. by apply IH.
Qed.

Lemma on_disk_wfd {X} (m : prog (storage C R) X) w :
  wfd (on_disk m w).2 = wfd w.
Proof. unfold on_disk. by destruct (m (disk w)). Qed.

(** C7, as the code has it.  The builder puts the original transform
    back when it returns; when an error leaves it, from collecting,
    fitting, saving or validating, the data source keeps the reduced
    pipeline.  Nothing else of the data source changes. *)
Theorem transform_restored_on_return fill omitted_transforms
    N_train N_test batch_size num_workers n_rb out_dir suffix (w : World C R) :
  let out := generate_and_save_reduced_basis fill omitted_transforms
               N_train N_test batch_size num_workers n_rb out_dir suffix w in
  wfd_len (wfd out.2) = wfd_len (wfd w) ∧
  wfd_item (wfd out.2) = wfd_item (wfd w) ∧
  match out.1 with
  | Ok _ => transform (wfd out.2) = transform (wfd w)
  | Raise _ =>
      transform (wfd out.2)
      = filter (λ tr, tr_type tr ∉ omitted_transforms) (transform (wfd w))
  end.
Proof.
  unfold generate_and_save_reduced_basis, mbind, prog_bind, set_transform,
    lift, mret, prog_ret.
  cbn [wfd disk transform wfd_len wfd_item].
  destruct (collect_data _ _ _ _ _) as [data|]; [|done].
  destruct (generate_rb _ _ _) as [bases|]; [|done].
  destruct out_dir as [dir|]; [|done].
  match goal with |- context [on_disk ?m ?w0] =>
    pose proof (on_disk_wfd m w0) as Hsave;
    destruct (on_disk m w0) as [[paths|e] w1] end; simpl in Hsave;
    [|simpl; by rewrite Hsave].
  match goal with |- context [on_disk ?m ?w0] =>
    pose proof (on_disk_wfd m w0) as Htest;
    destruct (on_disk m w0) as [[[]|e] w2] end; simpl in Htest; simpl;
    by rewrite Htest, Hsave.
Qed.

(** C10.  Without an output directory the builder collects the data
    and fits one basis per channel as it does otherwise, its outcome
    being that of these two steps alone; it leaves the file system as it
    was, validates nothing, and returns the empty list. *)
Theorem build_without_out_dir fill omitted_transforms
    N_train N_test batch_size num_workers n_rb suffix (w : World C R) :
  let d_rb := mkWaveformDataset
                (filter (λ tr, tr_type tr ∉ omitted_transforms) (transform (wfd w)))
                (wfd_len (wfd w)) (wfd_item (wfd w)) in
  let out := generate_and_save_reduced_basis fill omitted_transforms
               N_train N_test batch_size num_workers n_rb None suffix w in
  disk out.2 = disk w ∧
  out.1 = (data ← collect_data fill N_train N_test batch_size d_rb;
           bases ← generate_rb N_train n_rb data; Ok []) ∧
  ∀ data, collect_data fill N_train N_test batch_size d_rb = Ok data →
    ∀ bases, generate_rb N_train n_rb data = Ok bases →
      out.1 = Ok [] ∧
      Forall2 (λ kd kb, kb.1 = kd.1 ∧
                 generate_basis SVDBasis_init (slice_rows N_train kd.2) n_rb
                   "random" = Ok kb.2) data bases.
Proof.
  unfold generate_and_save_reduced_basis, mbind, prog_bind, set_transform,
    lift, mret, prog_ret.
  cbn [wfd disk transform wfd_len wfd_item].
  destruct (collect_data _ _ _ _ _) as [data|]; simpl;
    [|split_and!; [done..|]; by intros data].
  destruct (generate_rb _ _ _) as [bases|] eqn:Hfit; simpl;
    [|split_and!; [done..|]; intros _ [= <-] ? Hfit'; by rewrite Hfit in Hfit'].
  split_and!; [done..|].
  intros _ [= <-] bases' Hfit'. rewrite Hfit in Hfit'. injection Hfit' as <-.
  split; [done|].
  apply for_each_inv in Hfit. eapply Forall2_impl; [done|].
  intros [ifo data0] [ifo' b]. simpl.
  destruct (generate_basis _ _ _ _); [|done]. simpl. by intros [= <- <-].
Qed.

(** ** Collecting from a source that runs out *)

(** The offset of a round of the loop stays below [N]: the subtraction
    in [collect_loop] never truncates. *)
Lemma collect_loop_next_lower N batch_size idx :
  idx * batch_size ≤ N →
  idx * batch_size + batch_size `min` (N - idx * batch_size) ≠ N →
  S idx * batch_size < N.
Proof. intros Hle Hne. simpl. lia. Qed.

Lemma buffer_np_empty (fill : nat → nat → C) N M :
  buffer N M (np_empty fill N M).
Proof.
  split_and!; [|done..]. split; simpl.
  - by rewrite length_fmap, length_seq.
  - apply Forall_fmap, Forall_forall. intros i _. simpl.
    by rewrite length_fmap, length_seq.
Qed.

Lemma setitem_rows_full N M (buf : matrix C) lower batch_size src :
  buffer N M buf → buffer batch_size M src → lower + batch_size ≤ N →
  ∃ buf', setitem_rows buf lower (lower + batch_size) (slice_rows batch_size src)
          = Ok buf' ∧
    buffer N M buf' ∧
    rows buf' = take lower (rows buf) ++ rows src
                ++ drop (lower + batch_size) (rows buf).
Proof.
  intros ([Hlen Hrows] & HN & HM) ([Hslen Hsrows] & Hsn & Hsm) Hle.
  unfold setitem_rows, broadcast_to. simpl. rewrite HN, HM, Hsn, Hsm.
  replace (lower `min` N) with lower by lia.
  replace (lower `max` ((lower + batch_size) `min` N))
    with (lower + batch_size) by lia.
  replace (lower + batch_size - lower) with batch_size by lia.
  rewrite decide_True by (split; left; lia).
  destruct (decide (M = M)) as [_|?]; [|done].
  destruct (decide (batch_size `min` batch_size = batch_size)) as [_|?]; [|lia].
  simpl.
  rewrite list_fmap_id, (take_ge (rows src)) by lia.
  eexists. split; [done|]. split; [|done].
  split_and!; [|done..]. split; simpl.
  - rewrite !length_app, length_take, length_drop. lia.
  - rewrite HM in Hrows. rewrite Hsm in Hsrows.
    rewrite !Forall_app. split_and!;
      [by apply Forall_take|done|by apply Forall_drop].
Qed.

Lemma drop_eq_ge {X} (l k : list X) i j :
  i ≤ j → drop i l = drop i k → drop j l = drop j k.
Proof.
  intros Hij Heq. replace j with (i + (j - i)) by lia.
  by rewrite <-!drop_drop, Heq.
Qed.

Lemma collect_loop_exhausted N M batch_size
    (batches : list (result (Batch C R))) idx
    (rb_train_data : dict (matrix C)) :
  (idx + length batches) * batch_size < N →
  Forall (full_batch M batch_size (keys rb_train_data)) batches →
  Forall (λ kv, buffer N M kv.2) rb_train_data →
  ∃ out, collect_loop N batch_size batches idx rb_train_data = Ok out ∧
    Forall2 (λ kv kv', kv'.1 = kv.1 ∧ buffer N M kv'.2 ∧
               drop ((idx + length batches) * batch_size) (rows kv'.2)
               = drop ((idx + length batches) * batch_size) (rows kv.2))
            rb_train_data out.
Proof.
  revert idx rb_train_data.
  induction batches as [|b rest IH]; intros idx rb_train_data Hlt Hbs Hbuf.
  { exists rb_train_data. split; [done|].
    apply Forall_Forall2_diag. eapply Forall_impl; [done|]. by intros. }
  simpl in Hlt. inversion Hbs as [|?? (data & -> & Hdata) Hrest]; subst.
  cbn [collect_loop]. result_step.
  assert (Hk : batch_size `min` (N - idx * batch_size) = batch_size) by nia.
  rewrite Hk.
  destruct (for_each_Ok
    (λ (kv kv' : string * matrix C), kv'.1 = kv.1 ∧ buffer N M kv'.2 ∧
       drop ((idx + 1) * batch_size) (rows kv'.2)
       = drop ((idx + 1) * batch_size) (rows kv.2))
    (λ '(ch, buf),
       src ← dict_get data.2 ch;
       buf' ← setitem_rows buf (idx * batch_size)
                (idx * batch_size + batch_size) (slice_rows batch_size src);
       Ok (ch, buf')) rb_train_data) as (step & -> & Hstep).
  { apply Forall_forall. intros [ch buf] Hin. cbv beta iota.
    destruct (Hdata ch) as (src & -> & Hsrc).
    { unfold keys. apply list_elem_of_fmap. by exists (ch, buf). }
    result_step. rewrite Forall_forall in Hbuf. specialize (Hbuf _ Hin). simpl in Hbuf.
    destruct (setitem_rows_full N M buf (idx * batch_size) batch_size src)
      as (buf' & -> & Hbuf' & Hrows'); [done|done|nia|].
    result_step. eexists. split; [done|]. simpl. split_and!; [done..|].
    rewrite Hrows'. rewrite app_assoc.
    destruct Hbuf as ([Hlen _] & HN & _). destruct Hsrc as ([Hslen _] & Hsn & _).
    rewrite drop_app_ge; rewrite length_app, length_take; [|lia].
    rewrite drop_drop. f_equal. lia. }
  result_step. rewrite decide_False by nia.
  assert (Hkeys : keys step = keys rb_train_data).
  { apply (Forall2_keys rb_train_data step).
    eapply Forall2_impl; [done|]. by intros ?? (? & _). }
  destruct (IH (S idx) step) as (out & -> & Hout).
  { lia. }
  { by rewrite Hkeys. }
  { eapply Forall2_Forall_r; [done|]. apply Forall_forall.
    by intros ? _ ? (_ & ? & _). }
  exists out. split; [done|].
  eapply (Forall2_compose _ _ _ rb_train_data step out); [|done..].
  intros kv kv1 kv2 (Hk1 & _ & Hd1) (Hk2 & Hb2 & Hd2).
  split_and!; [congruence|done|].
  replace (idx + length (Ok data :: rest)) with (S idx + length rest)
    by (simpl; lia).
  rewrite Hd2. apply (drop_eq_ge _ _ ((idx + 1) * batch_size)); [nia|done].
Qed.

Lemma collect_data_full_batches fill N_train N_test batch_size
    (d : WaveformDataset C R) probe ifo0 h batches :
  wfd_getitem d 0 = Ok probe →
  keys probe.2 !! 0 = Some ifo0 →
  dict_get probe.2 ifo0 = Ok h →
  DataLoader d batch_size = Ok batches →
  Forall (full_batch (length h) batch_size (keys probe.2)) batches →
  length batches * batch_size < N_train + N_test →
  ∃ data, collect_data fill N_train N_test batch_size d = Ok data ∧
    keys data = keys probe.2 ∧
    Forall (λ kv,
      buffer (N_train + N_test) (length h) kv.2 ∧
      drop (length batches * batch_size) (rows kv.2)
      = drop (length batches * batch_size)
          (rows (np_empty (fill kv.1) (N_train + N_test) (length h)))) data.
Proof.
  intros Hprobe Hifo Hh Hloader Hfull Hlt.
  unfold collect_data. rewrite Hprobe. do 2 result_step.
  rewrite Hifo. result_step. rewrite Hh. result_step.
  rewrite Hloader. result_step.
  set (bufs := (λ ifo, (ifo, np_empty (fill ifo) (N_train + N_test) (length h)))
                 <$> keys probe.2).
  assert (Hkeys : keys bufs = keys probe.2).
  { unfold bufs, keys. rewrite <-list_fmap_compose. apply list_fmap_id. }
  destruct (collect_loop_exhausted (N_train + N_test) (length h) batch_size
              batches 0 bufs) as (data & -> & Hdata).
  { done. }
  { by rewrite Hkeys. }
  { unfold bufs. apply Forall_fmap, Forall_forall. intros ifo _.
    apply buffer_np_empty. }
  exists data. split; [done|]. split.
  - rewrite <-Hkeys. apply (Forall2_keys bufs data).
    eapply Forall2_impl; [done|]. by intros ?? (? & _).
  - unfold bufs in Hdata. apply Forall2_fmap_l in Hdata.
    eapply Forall2_Forall_r; [done|]. apply Forall_forall.
    intros ifo _ kv (Hk & Hb & Hd). simpl in *. subst ifo. by split.
Qed.

Lemma for_each_getitem ifos M (d : WaveformDataset C R) a c :
  uniform_source ifos M d → a + c ≤ wfd_len d →
  ∃ smps, for_each (wfd_getitem d) (seq a c) = Ok smps ∧
    length smps = c ∧ Forall (uniform_sample ifos M) smps.
Proof.
  intros Hd Hle.
  destruct (for_each_Ok (λ _ smp, uniform_sample ifos M smp)
              (wfd_getitem d) (seq a c)) as (smps & Hs & Hall).
  { apply Forall_seq. intros i Hi. unfold wfd_getitem.
    rewrite decide_True by lia. apply Hd. lia. }
  exists smps. split_and!; [done| |].
  - by rewrite <-(Forall2_length _ _ _ Hall), length_seq.
  - eapply Forall2_Forall_r; [done|]. apply Forall_forall. by intros.
Qed.

Lemma dict_get_Forall2 {X} (Q : X → Prop) chs (d : dict X) ch :
  Forall2 (λ c kv, kv.1 = c ∧ Q kv.2) chs d → ch ∈ chs →
  ∃ x, dict_get d ch = Ok x ∧ Q x.
Proof.
  induction 1 as [|c [key x] chs d [Hkey HQ] _ IH]; intros Hin.
  { by apply elem_of_nil in Hin. }
  simpl in *. subst key. destruct (decide (c = ch)) as [->|Hne].
  - by exists x.
  - apply IH. by apply elem_of_cons in Hin as [->|Hin].
Qed.

Lemma default_collate_uniform ifos M (smps : list (Sample C R)) :
  smps ≠ [] → Forall (uniform_sample ifos M) smps →
  full_batch M (length smps) ifos (default_collate smps).
Proof.
  intros Hne Hall. destruct smps as [|s0 rest]; [done|].
  unfold default_collate.
  assert (Hkeys : keys s0.2 = ifos) by (by inversion Hall as [|?? [? _]]).
  rewrite Hkeys.
  destruct (for_each_Ok
    (λ ch (kv : string * matrix C), kv.1 = ch ∧
       (wf_matrix kv.2 ∧ shape0 kv.2 = length (s0 :: rest) ∧ shape1 kv.2 = M))
    (λ ch, vs ← for_each (λ smp : Sample C R, dict_get smp.2 ch) (s0 :: rest);
           A ← stack vs; Ok (ch, A)) ifos) as (strain & -> & Hstrain).
  { apply Forall_forall. intros ch Hch.
    destruct (for_each_Ok (λ (_ : Sample C R) (x : list C), length x = M)
                (λ smp : Sample C R, dict_get smp.2 ch) (s0 :: rest))
      as (vs & -> & Hvs).
    { eapply Forall_impl; [done|]. intros smp [_ Hsmp]. by apply Hsmp. }
    result_step.
    assert (Hlen : length vs = length (s0 :: rest))
      by (symmetry; by eapply Forall2_length).
    assert (HM : Forall (λ v, length v = M) vs).
    { eapply Forall2_Forall_r; [done|]. apply Forall_forall. by intros. }
    destruct vs as [|v vs]; [done|]. unfold stack.
    assert (Hv : length v = M) by (by inversion HM).
    rewrite decide_True by (by rewrite Hv).
    result_step. eexists. split; [done|]. simpl.
    split_and!; [done| |done..]. split; [done|]. simpl. by rewrite Hv. }
  result_step. eexists. split; [done|]. simpl.
  intros ch Hch.
  destruct (dict_get_Forall2
              (λ A, wf_matrix A ∧ shape0 A = length (s0 :: rest) ∧ shape1 A = M)
              ifos strain ch Hstrain Hch) as (src & Hsrc & ?).
  by exists src.
Qed.

Lemma batch_indices_multiple q batch_size :
  0 < batch_size →
  batch_indices (q * batch_size) batch_size
  = (λ j, seq (j * batch_size) batch_size) <$> seq 0 q.
Proof.
  intros Hbs. unfold batch_indices.
  replace (q * batch_size + batch_size - 1)
    with (q * batch_size + (batch_size - 1)) by lia.
  rewrite Nat.div_add_l, Nat.div_small, Nat.add_0_r by lia.
  apply list_fmap_ext. intros _ j Hj%list_elem_of_lookup_2%elem_of_seq.
  f_equal. nia.
Qed.

Lemma DataLoader_uniform ifos M (d : WaveformDataset C R) q batch_size :
  uniform_source ifos M d → 0 < batch_size → wfd_len d = q * batch_size →
  ∃ batches, DataLoader d batch_size = Ok batches ∧ length batches = q ∧
    Forall (full_batch M batch_size ifos) batches.
Proof.
  intros Hd Hbs Hlen. unfold DataLoader. rewrite decide_False by lia.
  eexists. split; [done|]. rewrite Hlen, batch_indices_multiple by done.
  split; [by rewrite !length_fmap, length_seq|].
  rewrite <-list_fmap_compose. apply Forall_fmap, Forall_seq.
  intros j Hj. simpl.
  destruct (for_each_getitem ifos M d (j * batch_size) batch_size Hd)
    as (smps & -> & Hn & Hall); [nia|].
  result_step. rewrite <-Hn. apply default_collate_uniform; [|done].
  intros ->. simpl in Hn. lia.
Qed.

(** C8, as the code has it.  When the data source holds full batches
    of uniform samples but fewer samples than the [N_train + N_test] rows
    asked for, collecting ends without an error: every channel gets its
    buffer of that many rows, and the rows beyond the samples read still
    hold what [np.empty] left there.  These buffers are what the builder
    goes on to fit. *)
Theorem collect_data_short_source fill N_train N_test batch_size
    (d : WaveformDataset C R) ifos M q :
  uniform_source ifos M d → ifos ≠ [] →
  0 < batch_size → 0 < q → wfd_len d = q * batch_size →
  wfd_len d < N_train + N_test →
  ∃ data, collect_data fill N_train N_test batch_size d = Ok data ∧
    keys data = ifos ∧
    Forall (λ kv,
      buffer (N_train + N_test) M kv.2 ∧
      drop (wfd_len d) (rows kv.2)
      = drop (wfd_len d) (rows (np_empty (fill kv.1) (N_train + N_test) M)))
      data.
Proof.
  intros Hd Hifos Hbs Hq Hlen Hshort.
  destruct (Hd 0) as (probe & Hprobe & Hkeys & Hch); [nia|].
  destruct ifos as [|ifo0 ifos'] eqn:E; [done|]. rewrite <-E in *.
  destruct (Hch ifo0) as (h & Hh & HM); [rewrite E; apply list_elem_of_here|].
  destruct (DataLoader_uniform ifos M d q batch_size Hd Hbs Hlen)
    as (batches & Hloader & Hn & Hfull).
  destruct (collect_data_full_batches fill N_train N_test batch_size d
              probe ifo0 h batches) as (data & Hdata & Hk & Hrows).
  - unfold wfd_getitem. rewrite decide_True by nia. done.
  - by rewrite Hkeys, E.
  - done.
  - done.
  - by rewrite HM, Hkeys.
  - rewrite Hn. lia.
  - exists data. rewrite Hk, Hkeys. split_and!; [done..|].
    rewrite HM, Hn, <-Hlen in Hrows. done.
Qed.

(** ** Fitting, composed with the other operations *)

Lemma generate_basis_shapes self A k method b :
  wf_matrix A → generate_basis self A k method = Ok b →
  ∃ v vh, V b = Some v ∧ Vh b = Some vh ∧
    shape0 v = shape1 A ∧ shape1 vh = shape1 A ∧ shape0 vh = shape1 v ∧
    shape1 v ≤ shape0 A `min` shape1 A.
Proof.
  intros HA. unfold generate_basis.
  destruct (decide (method = "random")) as [_|_];
    [|destruct (decide (method = "scipy")) as [_|_]; [|done]].
  - set (k' := if decide (k = 0) then _ else k).
    destruct (randomized_svd A k' 0) as [[[U sv] Vh0]|] eqn:Hsvd; [|done].
    destruct (randomized_svd_Vh A k' 0 U sv Vh0 HA Hsvd) as (_ & Hs0 & Hs1).
    simpl. intros [= <-]. eexists _, _. split_and!; [done..| |done|]; simpl; lia.
  - destruct (scipy_linalg_svd A) as [[[U sv] Vh0]|] eqn:Hsvd; [|done].
    destruct (scipy_linalg_svd_Vh A U sv Vh0 HA Hsvd) as (_ & Hs0 & Hs1).
    simpl. destruct (decide _); intros [= <-];
      eexists _, _; (split_and!; [done..| | | |]); simpl; lia.
Qed.

(** X1.  After a fit by either method on a well-formed matrix, [Vh] is
    the conjugate transpose of [V]; after the exact method, and after the
    randomized method with a request of at most [min m k], the rank is
    the number of columns of [V]. *)
Theorem generate_basis_keeps_invariant self A k method b :
  wf_matrix A → generate_basis self A k method = Ok b →
  hermitian_pair b ∧
  (method = "scipy" ∨ k ≤ shape0 A `min` shape1 A → rank_is_columns b).
Proof.
  intros HA Hfit.
  destruct (decide (method = "random")) as [->|Hrandom].
  { destruct (generate_basis_random_invariant self A k b HA Hfit) as [Hh Hr].
    split; [done|]. intros [?|?]; [done|auto]. }
  destruct (decide (method = "scipy")) as [->|Hscipy].
  { destruct (generate_basis_scipy_invariant self A k b HA Hfit). by split. }
  unfold generate_basis in Hfit. by rewrite !decide_False in Hfit.
Qed.

(** X2.  A basis fitted by either method on an [m x k] matrix
    compresses every array whose last dimension is [k]: the coefficients
    keep the leading dimensions, their number is the number of columns of
    [V] and at most [min m k], and decompressing them gives an array of
    the shape of the original. *)
Theorem fitted_basis_projects self A k method b (x : ndarray C) :
  wf_matrix A → generate_basis self A k method = Ok b →
  wf_ndarray x → last_dim x = shape1 A →
  ∃ c y v, fseries_to_basis_coefficients b x = Ok c ∧
    basis_coefficients_to_fseries b c = Ok y ∧
    V b = Some v ∧ shape c = lead x ++ [shape1 v] ∧
    last_dim c ≤ shape0 A `min` shape1 A ∧
    shape y = shape x ∧ wf_ndarray y.
Proof.
  intros HA Hfit Hx Hlast.
  destruct (generate_basis_shapes self A k method b HA Hfit)
    as (v & vh & HV & HVh & Hv0 & Hvh1 & Hvh0 & Hle).
  unfold fseries_to_basis_coefficients, basis_coefficients_to_fseries.
  rewrite HV, HVh.
  destruct (matmul_Ok x v Hx) as (c & Hxc & Hc & Hclead & Hclast); [congruence|].
  destruct (matmul_Ok c vh Hc) as (y & Hcy & Hy & Hylead & Hylast); [congruence|].
  exists c, y, v. split_and!; try done.
  - unfold shape. by rewrite Hclead, Hclast.
  - lia.
  - unfold shape. by rewrite Hylead, Hclead, Hylast, Hvh1, Hlast.
Qed.

(** X3.  A basis fitted by either method, saved and loaded into any
    basis object, comes back with the same [V] and [Vh]; the singular
    values are those of the object loaded into, not those of the fit; the
    rank comes back the same after the exact method and after the
    randomized method with a request of at most [min m k]. *)
Theorem fit_save_load self other A k method b file st :
  wf_matrix A → generate_basis self A k method = Ok b →
  writable st (npy_path file) = true →
  ∃ st' b', to_file b file st = Ok st' ∧
    from_file other (npy_path file) st' = (Ok (), object_of b') ∧
    V b' = V b ∧ Vh b' = Vh b ∧ s b' = obj_s other ∧
    (method = "scipy" ∨ k ≤ shape0 A `min` shape1 A → n b' = n b).
Proof.
  intros HA Hfit Hw.
  assert (Hinv : hermitian_pair b ∧
    (method = "scipy" ∨ k ≤ shape0 A `min` shape1 A → rank_is_columns b)).
  { destruct (decide (method = "random")) as [->|Hrandom].
    { destruct (generate_basis_random_invariant self A k b HA Hfit) as [Hh Hr].
      split; [done|]. intros [?|?]; [done|auto]. }
    destruct (decide (method = "scipy")) as [->|Hscipy].
    { destruct (generate_basis_scipy_invariant self A k b HA Hfit). by split. }
    unfold generate_basis in Hfit. by rewrite !decide_False in Hfit. }
  destruct Hinv as [(v & HV & HVh) Hrank].
  unfold to_file, np_save. rewrite HV, Hw.
  eexists _, (mkSVDBasis (Some v) (Some (conj_transpose v)) (Some (shape1 v))
                         (obj_s other)).
  split; [done|].
  rewrite (from_file_matrix other _ _ v) by (simpl; apply lookup_insert_eq).
  split; [done|]. simpl.
  split_and!; [done..|].
  intros Hm. destruct (Hrank Hm) as (v' & HV' & Hn').
  rewrite HV in HV'. injection HV' as <-. by rewrite Hn'.
Qed.

(** ** The exceptions of the validator *)

Lemma raises_in_bind {X Y} (P : exn → Prop) (m : result X) (f : X → result Y) :
  raises_in P m → (∀ a, m = Ok a → raises_in P (f a)) → raises_in P (m ≫= f).
Proof.
  intros Hm Hf e. destruct m as [a|e']; simpl.
  - by apply Hf.
  - intros [= <-]. by apply Hm.
Qed.

Lemma raises_in_mono {X} (P Q : exn → Prop) (r : result X) :
  (∀ e, P e → Q e) → raises_in P r → raises_in Q r.
Proof. intros HPQ Hr e He. by apply HPQ, Hr. Qed.

Lemma raises_in_Ok {X} (P : exn → Prop) (a : X) : raises_in P (Ok a).
Proof. by intros e. Qed.

Lemma raises_in_for_each {X Y} (P : exn → Prop) (f : X → result Y) xs :
  (∀ x, x ∈ xs → raises_in P (f x)) → raises_in P (for_each f xs).
Proof.
  induction xs as [|x xs IH]; intros Hf; simpl; [apply raises_in_Ok|].
  apply raises_in_bind; [apply Hf, list_elem_of_here|]. intros y _.
  apply raises_in_bind; [|intros; apply raises_in_Ok].
  apply IH. intros x' Hx'. apply Hf. by apply list_elem_of_further.
Qed.


Lemma for_each_Raise {X Y} (f : X → result Y) e xs :
  (∀ x, x ∈ xs → raises_in (λ e', e' = e) (f x)) →
  Exists (λ x, f x = Raise e) xs → for_each f xs = Raise e.
Proof.
  intros Hf Hex. induction Hex as [x xs Hx|x xs _ IH]; simpl.
  - by rewrite Hx.
  - destruct (f x) as [y|e'] eqn:Hy; simpl.
    + rewrite IH; [done|]. intros x' Hx'. apply Hf. by apply list_elem_of_further.
    + f_equal. apply (Hf x); [apply list_elem_of_here|done].
Qed.

Lemma for_fold_Raise {X S} (f : S → X → result S) e xs acc :
  (∀ acc x, x ∈ xs → raises_in (λ e', e' = e) (f acc x)) →
  Exists (λ x, ∀ acc, f acc x = Raise e) xs → for_fold f acc xs = Raise e.
Proof.
  intros Hf Hex. revert acc.
  induction Hex as [x xs Hx|x xs _ IH]; intros acc; simpl.
  - by rewrite Hx.
  - destruct (f acc x) as [acc'|e'] eqn:Hy; simpl.
    + apply IH. intros acc'' x' Hx'. apply Hf. by apply list_elem_of_further.
    + f_equal. apply (Hf acc x); [apply list_elem_of_here|done].
Qed.

Lemma raises_in_vecmat h A : raises_in (λ e, e = ValueError) (vecmat h A).
Proof. unfold vecmat. case_decide; [apply raises_in_Ok|]. by intros e [= <-]. Qed.

Lemma raises_in_broadcast2 {X Y Z} (f : X → Y → Z) x y :
  raises_in (λ e, e = ValueError) (broadcast2 f x y).
Proof.
  unfold broadcast2. case_decide; [apply raises_in_Ok|].
  destruct x as [|a [|? ?]], y as [|b [|? ?]];
    try apply raises_in_Ok; by intros e [= <-].
Qed.

Lemma raises_in_np_max xs : raises_in (λ e, e = ValueError) (np_max xs).
Proof. destruct xs; [by intros e [= <-]|apply raises_in_Ok]. Qed.

Lemma raises_in_test_waveform self k h :
  raises_in (λ e, e = ValueError ∨
                  e = TypeError ∧ (V self = None ∨ Vh self = None))
            (test_waveform self k h).
Proof.
  unfold test_waveform.
  destruct (V self) as [v|]; [|intros e [= <-]; right; auto].
  destruct (Vh self) as [vh|]; simpl.
  - repeat (apply raises_in_bind; [|intros ? _]);
      try apply raises_in_Ok;
      (eapply raises_in_mono; [intros e He; left; exact He|]);
      auto using raises_in_vecmat, raises_in_broadcast2, raises_in_np_max.
  - apply raises_in_bind; [|intros ? _; intros e [= <-]; right; auto].
    eapply raises_in_mono; [intros e He; left; exact He|].
    apply raises_in_vecmat.
Qed.

Lemma raises_in_test_basis_step self test_data stats k :
  raises_in (λ e, e = ValueError ∨
                  e = TypeError ∧
                  (V self = None ∨ Vh self = None ∨ n self = None))
            (test_basis_step self test_data stats k).
Proof.
  unfold test_basis_step.
  destruct (n self) as [rank|]; [|intros e [= <-]; right; auto]. simpl.
  case_decide; [apply raises_in_Ok|].
  apply raises_in_bind.
  - apply raises_in_for_each. intros h _.
    eapply raises_in_mono; [|apply raises_in_test_waveform].
    intros e [->|[-> [?|?]]]; auto.
  - intros res _. apply raises_in_bind; [|intros; apply raises_in_Ok].
    unfold print_summary. apply raises_in_bind; [|intros; apply raises_in_Ok].
    eapply raises_in_mono; [intros e He; left; exact He|].
    apply raises_in_np_max.
Qed.


(** X5.  On an empty test set [test_basis] raises [ValueError] as soon
    as one candidate rank is at most the fitted rank, whatever [V] and
    [Vh] are, and writes nothing; when every candidate exceeds the fitted
    rank it returns statistics without entries, which it saves when asked
    to. *)
Theorem test_basis_empty_test_set self rank sv test_data n_values outfile st :
  n self = Some rank → s self = Some sv → rows test_data = [] →
  (Exists (λ k, k ≤ rank) n_values →
   test_basis self test_data n_values outfile st = Raise ValueError) ∧
  (Forall (λ k, rank < k) n_values →
   test_basis self test_data n_values outfile st
   = match outfile with
     | Some file =>
         st' ← np_save file (NpyPickle (TestStats sv ∅ ∅)) st;
         Ok (TestStats sv ∅ ∅, st')
     | None => Ok (TestStats sv ∅ ∅, st)
     end).
Proof.
  intros Hn Hs Hrows. unfold test_basis. rewrite Hs. result_step.
  assert (Hstep : ∀ acc k, test_basis_step self test_data acc k
            = if decide (rank < k) then Ok acc else Raise ValueError).
  { intros acc k. unfold test_basis_step. rewrite Hn, Hrows. simpl.
    by case_decide. }
  split.
  - intros Hex. rewrite (for_fold_Raise _ ValueError); [done| |].
    + intros acc k _. rewrite Hstep. case_decide; [apply raises_in_Ok|].
      by intros e [= <-].
    + eapply Exists_impl; [done|]. intros k Hk acc. simpl in Hk.
      rewrite Hstep. rewrite decide_False by lia. done.
  - intros Hall. assert (Hfold : ∀ acc,
      for_fold (test_basis_step self test_data) acc n_values = Ok acc).
    { induction Hall as [|k ks Hk _ IH]; intros acc; simpl; [done|].
      rewrite Hstep, decide_True by done. simpl. apply IH. }
    by rewrite Hfold.
Qed.

(** X6.  On a basis that has [V], [Vh], the rank and the singular
    values, test data with a row whose length is not the number of rows
    of [V] make [test_basis] raise [ValueError] as soon as one candidate
    rank is at most the fitted rank; no file is written. *)
Theorem test_basis_wrong_length self v vh rank sv test_data n_values outfile st :
  V self = Some v → Vh self = Some vh → n self = Some rank →
  s self = Some sv →
  Exists (λ h, length h ≠ shape0 v) (rows test_data) →
  Exists (λ k, k ≤ rank) n_values →
  test_basis self test_data n_values outfile st = Raise ValueError.
Proof.
  intros HV HVh Hn Hs Hrow Hk. unfold test_basis. rewrite Hs. result_step.
  assert (Hwave : ∀ k h, raises_in (λ e, e = ValueError) (test_waveform self k h)).
  { intros k h. eapply raises_in_mono; [|apply raises_in_test_waveform].
    intros e [->|[_ [?|?]]]; congruence. }
  rewrite (for_fold_Raise _ ValueError); [done| |].
  - intros acc k _. eapply raises_in_mono; [|apply raises_in_test_basis_step].
    intros e [->|[_ [?|[?|?]]]]; congruence.
  - eapply Exists_impl; [done|]. intros k Hle acc. simpl in Hle.
    unfold test_basis_step.
    rewrite Hn. cbn [not_None]. result_step. rewrite decide_False by lia.
    rewrite (for_each_Raise _ ValueError); [done|by intros|].
    eapply Exists_impl; [done|]. intros h Hh. unfold test_waveform.
    rewrite HV. cbn [not_None]. result_step. unfold vecmat.
    by rewrite decide_False.
Qed.

(** ** The exceptions of the transforms *)

Lemma raises_in_matmul (x : ndarray C) A :
  raises_in (λ e, e = ValueError) (matmul x A).
Proof.
  unfold matmul. case_decide; [|by intros e [= <-]].
  apply raises_in_bind; [|intros; apply raises_in_Ok].
  apply raises_in_for_each. intros. apply raises_in_vecmat.
Qed.

Lemma dict_comprehension_matmul (o : option (matrix C)) (d : dict (ndarray C)) :
  let f x := match o with Some A => matmul x A | None => Raise ValueError end in
  (d = [] → dict_comprehension f d = Ok []) ∧
  (o = None → d ≠ [] → dict_comprehension f d = Raise ValueError) ∧
  (∀ A, o = Some A → Exists (λ kv, last_dim kv.2 ≠ shape0 A) d →
        dict_comprehension f d = Raise ValueError) ∧
  (∀ e, dict_comprehension f d = Raise e → e = ValueError ∧ d ≠ []).
Proof.
  intros f. unfold dict_comprehension. split_and!.
  - by intros ->.
  - intros -> Hd. destruct d as [|kv d]; done.
  - intros A -> Hex. apply for_each_Raise.
    + intros kv _. apply raises_in_bind; [|intros; apply raises_in_Ok].
      apply raises_in_matmul.
    + eapply Exists_impl; [done|]. intros kv Hkv. subst f. cbv beta in *.
      unfold matmul. by rewrite decide_False.
  - intros e He. split; [|by intros ->]. destruct o as [A|].
    + revert e He. apply raises_in_for_each.
      intros kv _. apply raises_in_bind; [|intros; apply raises_in_Ok].
      apply raises_in_matmul.
    + destruct d as [|kv d]; [done|]. simpl in He. by injection He as <-.
Qed.

(** X8.  The exceptions of the two transforms.  On an empty dictionary
    each returns the empty dictionary, whatever the basis.  On a basis
    without [V], or without [Vh] for [UndoSVD], a non-empty dictionary
    raises [ValueError], as does, on a populated basis, an array whose
    last dimension is not the number of rows of the matrix.  Nothing
    else is raised, and nothing is raised on an empty dictionary. *)
Theorem ApplySVD_UndoSVD_exceptions svd_basis (d : dict (ndarray C)) :
  (d = [] → ApplySVD svd_basis d = Ok [] ∧ UndoSVD svd_basis d = Ok []) ∧
  (d ≠ [] →
     (V svd_basis = None → ApplySVD svd_basis d = Raise ValueError) ∧
     (Vh svd_basis = None → UndoSVD svd_basis d = Raise ValueError)) ∧
  (∀ v, V svd_basis = Some v → Exists (λ kv, last_dim kv.2 ≠ shape0 v) d →
        ApplySVD svd_basis d = Raise ValueError) ∧
  (∀ vh, Vh svd_basis = Some vh → Exists (λ kv, last_dim kv.2 ≠ shape0 vh) d →
         UndoSVD svd_basis d = Raise ValueError) ∧
  (∀ e, ApplySVD svd_basis d = Raise e → e = ValueError ∧ d ≠ []) ∧
  (∀ e, UndoSVD svd_basis d = Raise e → e = ValueError ∧ d ≠ []).
Proof.
  destruct (dict_comprehension_matmul (V svd_basis) d) as (Ha0 & Ha1 & Ha2 & Ha3).
  destruct (dict_comprehension_matmul (Vh svd_basis) d) as (Hu0 & Hu1 & Hu2 & Hu3).
  unfold ApplySVD, UndoSVD, fseries_to_basis_coefficients,
    basis_coefficients_to_fseries.
  split_and!; auto.
Qed.

(** ** File names *)

Lemma String_length_app (a b : string) :
  String.length (a +:+ b) = String.length a + String.length b.
Proof. induction a as [|c a IH]; simpl; [done|]. by rewrite IH. Qed.

Lemma npy_path_cases file :
  npy_path file = file ∨
  npy_path file = file +:+ ".npy" ∧ npy_path file ≠ file.
Proof.
  unfold npy_path. case_bool_decide; [by left|]. right. split; [done|].
  intros Heq. apply (f_equal String.length) in Heq.
  rewrite String_length_app in Heq. simpl in Heq. lia.
Qed.

(** X9.  [to_file] writes under the name that [np.save] chooses, and
    [from_file] reads the name it is given: after saving under a name
    that [np.save] extends, loading that same name finds no file, unless
    one was there before, while loading the extended name gives back
    [V]; after saving under a name that [np.save] keeps, loading that
    name gives back [V]. *)
Theorem to_file_from_file_same_name self other file st v :
  V self = Some v →
  writable st (npy_path file) = true →
  ∃ st', to_file self file st = Ok st' ∧
    (npy_path file = file →
       ∃ b, from_file other file st' = (Ok (), object_of b) ∧ V b = Some v) ∧
    (npy_path file ≠ file →
       npy_path file = file +:+ ".npy" ∧
       (files st !! file = None →
          from_file other file st' = (Raise FileNotFoundError, other)) ∧
       ∃ b, from_file other (file +:+ ".npy") st' = (Ok (), object_of b) ∧
            V b = Some v).
Proof.
  intros HV Hw. unfold to_file, np_save. rewrite HV, Hw.
  eexists. split; [done|]. split.
  - intros Hsame.
    exists (mkSVDBasis (Some v) (Some (conj_transpose v)) (Some (shape1 v))
                       (obj_s other)).
    split; [|done]. apply from_file_matrix. simpl.
    rewrite Hsame. apply lookup_insert_eq.
  - intros Hne. destruct (npy_path_cases file) as [?|[Hext _]]; [done|].
    split; [done|]. split.
    + intros Hnone. unfold from_file, np_load. simpl.
      by rewrite lookup_insert_ne, Hnone.
    + exists (mkSVDBasis (Some v) (Some (conj_transpose v)) (Some (shape1 v))
                         (obj_s other)).
      split; [|done]. apply from_file_matrix. simpl.
      rewrite <-Hext. apply lookup_insert_eq.
Qed.

(** ** The files the builder writes *)

Lemma list_ascii_of_string_app (a b : string) :
  String.list_ascii_of_string (a +:+ b)
  = String.list_ascii_of_string a ++ String.list_ascii_of_string b.
Proof. induction a as [|c a IH]; simpl; [done|]. by rewrite IH. Qed.

Lemma npy_path_keeps (a : string) : npy_path (a +:+ ".npy") = a +:+ ".npy".
Proof.
  unfold npy_path. rewrite bool_decide_true; [done|].
  rewrite list_ascii_of_string_app. by apply suffix_app_r.
Qed.

Lemma String_app_assoc (a b c : string) : (a +:+ b) +:+ c = a +:+ (b +:+ c).
Proof.
  induction a as [|x a IH]; [done|].
  change (String x ((a +:+ b) +:+ c) = String x (a +:+ (b +:+ c))).
  by rewrite IH.
Qed.

Lemma path_join_app dir name : ∃ pre, path_join dir name = pre +:+ name.
Proof.
  unfold path_join. case_decide; [by exists ""|].
  case_bool_decide; [by exists dir|].
  exists (dir +:+ "/"). by rewrite String_app_assoc.
Qed.

Lemma npy_path_path_join dir (a : string) :
  npy_path (path_join dir (a +:+ ".npy")) = path_join dir (a +:+ ".npy").
Proof.
  destruct (path_join_app dir (a +:+ ".npy")) as [pre ->].
  rewrite <-String_app_assoc. apply npy_path_keeps.
Qed.

Lemma npy_path_V_path dir suffix ifo :
  npy_path (V_path dir suffix ifo) = V_path dir suffix ifo.
Proof.
  unfold V_path. rewrite <-!String_app_assoc. apply npy_path_path_join.
Qed.

Lemma npy_path_s_path dir suffix ifo :
  npy_path (s_path dir suffix ifo) = s_path dir suffix ifo.
Proof.
  unfold s_path. rewrite <-!String_app_assoc. apply npy_path_path_join.
Qed.

Lemma npy_path_stats_path dir suffix ifo :
  npy_path (stats_path dir suffix ifo) = stats_path dir suffix ifo.
Proof.
  unfold stats_path.
  change "_stats.npy" with ("_stats" +:+ ".npy").
  rewrite <-!String_app_assoc. apply npy_path_path_join.
Qed.

Lemma changes_only_refl allowed (st : storage C R) : changes_only allowed st st.
Proof. split; [done|]. by left. Qed.

Lemma changes_only_trans allowed (st1 st2 st3 : storage C R) :
  changes_only allowed st1 st2 → changes_only allowed st2 st3 →
  changes_only allowed st1 st3.
Proof.
  intros [Hw1 H1] [Hw2 H2]. split; [congruence|]. intros p.
  destruct (H2 p) as [Heq|?]; [|by right].
  rewrite Heq. destruct (H1 p) as [?|[? ?]]; [by left|by right].
Qed.

Lemma changes_only_is_Some allowed (st st' : storage C R) p :
  changes_only allowed st st' →
  is_Some (files st !! p) → is_Some (files st' !! p).
Proof. intros [_ H] Hp. destruct (H p) as [->|[_ ?]]; done. Qed.

Lemma np_save_changes_only (allowed : string → Prop) file x (st st' : storage C R) :
  allowed (npy_path file) → np_save file x st = Ok st' →
  changes_only allowed st st' ∧ files st' !! npy_path file = Some x.
Proof.
  intros Hp. unfold np_save. case_match; [|done]. intros [= <-]. simpl.
  split; [|apply lookup_insert_eq]. split; [done|]. intros p. simpl.
  destruct (decide (npy_path file = p)) as [<-|Hne].
  - right. split; [done|]. rewrite lookup_insert_eq. by eexists.
  - left. by rewrite lookup_insert_ne.
Qed.

Lemma changes_only_mono (P Q : string → Prop) (st st' : storage C R) :
  (∀ p, P p → Q p) → changes_only P st st' → changes_only Q st st'.
Proof.
  intros HPQ [Hw H]. split; [done|]. intros p.
  destruct (H p) as [?|[? ?]]; [by left|right; auto].
Qed.

Lemma prog_fold_invariant {S X Y} (Q : S → S → Prop) (f : Y → X → prog S Y)
    xs acc st :
  (∀ st, Q st st) → (∀ s1 s2 s3, Q s1 s2 → Q s2 s3 → Q s1 s3) →
  (∀ acc x st, x ∈ xs → Q st (f acc x st).2) →
  Q st (prog_fold f acc xs st).2.
Proof.
  intros Hrefl Htrans. revert acc st.
  induction xs as [|x xs IH]; intros acc st Hf; simpl; [apply Hrefl|].
  unfold mbind, prog_bind.
  pose proof (Hf acc x st (list_elem_of_here _ _)) as Hx.
  destruct (f acc x st) as [[acc'|e] st1]; simpl in *; [|done].
  eapply Htrans; [done|]. apply IH.
  intros acc'' y st' Hy. apply Hf. by apply list_elem_of_further.
Qed.

Lemma save_rb_changes dir suffix acc ifo basis (st : storage C R) :
  let out := save_rb dir suffix acc (ifo, basis) st in
  changes_only (λ p, p ∈ channel_files dir suffix ifo) st out.2 ∧
  ∀ paths, out.1 = Ok paths →
    paths = acc ++ [V_path dir suffix ifo] ∧
    (is_Some (V basis) → is_Some (files out.2 !! V_path dir suffix ifo)).
Proof.
  assert (HV : npy_path (V_path dir suffix ifo) ∈ channel_files dir suffix ifo).
  { rewrite npy_path_V_path. apply list_elem_of_here. }
  assert (Hs : npy_path (s_path dir suffix ifo) ∈ channel_files dir suffix ifo).
  { rewrite npy_path_s_path. apply list_elem_of_further, list_elem_of_here. }
  unfold save_rb, mbind, prog_bind, update, lift, mret, prog_ret.
  fold (V_path dir suffix ifo). fold (s_path dir suffix ifo).
  destruct (to_file basis (V_path dir suffix ifo) st) as [st1|e] eqn:Hto; simpl;
    [|split; [apply changes_only_refl|done]].
  assert (H1 : changes_only (λ p, p ∈ channel_files dir suffix ifo) st st1 ∧
               (is_Some (V basis) → is_Some (files st1 !! V_path dir suffix ifo))).
  { unfold to_file in Hto. destruct (V basis) as [v|].
    - destruct (np_save_changes_only
                  (λ p, p ∈ channel_files dir suffix ifo) _ _ _ _ HV Hto)
        as [? Hfile].
      split; [done|]. intros _. rewrite npy_path_V_path in Hfile. by eexists.
    - injection Hto as <-. split; [apply changes_only_refl|]. by intros [? ?]. }
  destruct H1 as [H1 Hfile].
  destruct (s basis) as [sv|]; simpl; [|by split].
  destruct (np_save (s_path dir suffix ifo) (NpyVector sv) st1) as [st2|e] eqn:Hsave;
    simpl; [|by split].
  destruct (np_save_changes_only
              (λ p, p ∈ channel_files dir suffix ifo) _ _ _ _ Hs Hsave)
    as [H2 _].
  split; [by eapply changes_only_trans|].
  intros paths [= <-]. split; [done|]. intros HVb.
  eapply changes_only_is_Some; [done|]. by apply Hfile.
Qed.

Lemma test_basis_changes allowed self test_data n_values file
    (st : storage C R) stats st' :
  allowed (npy_path file) →
  test_basis self test_data n_values (Some file) st = Ok (stats, st') →
  changes_only allowed st st'.
Proof.
  intros Hp. unfold test_basis.
  destruct (s self); [|done]. simpl.
  destruct (for_fold _ _ _) as [stats0|]; [|done]. simpl.
  destruct (np_save _ _ _) as [st1|] eqn:Hsave; [|done]. simpl.
  intros [= <- <-]. by destruct (np_save_changes_only _ _ _ _ _ Hp Hsave).
Qed.

Lemma test_rb_changes N_train dir suffix rb_train_data u entry (st : storage C R) :
  changes_only (λ p, p ∈ channel_files dir suffix entry.1) st
    (test_rb N_train dir suffix rb_train_data u entry st).2.
Proof.
  destruct entry as [ifo basis].
  unfold test_rb, mbind, prog_bind, update, lift, mret, prog_ret.
  destruct (dict_get rb_train_data ifo) as [data|]; simpl;
    [|apply changes_only_refl].
  destruct (test_basis _ _ _ _ _) as [[stats st1]|] eqn:Htest; simpl;
    [|apply changes_only_refl].
  eapply test_basis_changes; [|done]. cbv beta.
  fold (stats_path dir suffix ifo). rewrite npy_path_stats_path.
  do 2 apply list_elem_of_further. apply list_elem_of_here.
Qed.

(** Each of the two loops over the bases changes only files of the
    channels it runs over. *)
Lemma save_fold_changes dir suffix (bases : dict (SVDBasis C R)) acc
    (st : storage C R) :
  changes_only (builder_path (Some dir) suffix (keys bases)) st
    (prog_fold (save_rb dir suffix) acc bases st).2.
Proof.
  apply (prog_fold_invariant
           (changes_only (builder_path (Some dir) suffix (keys bases)))).
  - apply changes_only_refl.
  - apply changes_only_trans.
  - intros acc0 [ifo0 basis0] st0 Hin.
    eapply changes_only_mono; [|apply save_rb_changes].
    intros p Hp. exists dir, ifo0. split_and!; [done| |done].
    apply list_elem_of_fmap. by exists (ifo0, basis0).
Qed.

Lemma test_fold_changes N_train dir suffix data (bases : dict (SVDBasis C R)) u
    (st : storage C R) :
  changes_only (builder_path (Some dir) suffix (keys bases)) st
    (prog_fold (test_rb N_train dir suffix data) u bases st).2.
Proof.
  apply (prog_fold_invariant
           (changes_only (builder_path (Some dir) suffix (keys bases)))).
  - apply changes_only_refl.
  - apply changes_only_trans.
  - intros acc0 [ifo0 basis0] st0 Hin.
    eapply changes_only_mono; [|apply test_rb_changes].
    intros p Hp. exists dir, ifo0. split_and!; [done| |done].
    apply list_elem_of_fmap. by exists (ifo0, basis0).
Qed.

Lemma save_fold_paths dir suffix (bases : dict (SVDBasis C R)) acc
    (st : storage C R) paths :
  (prog_fold (save_rb dir suffix) acc bases st).1 = Ok paths →
  Forall (λ kb, is_Some (V kb.2)) bases →
  paths = acc ++ (V_path dir suffix <$> keys bases) ∧
  Forall (λ p, is_Some (files (prog_fold (save_rb dir suffix) acc bases st).2 !! p))
         (V_path dir suffix <$> keys bases).
Proof.
  revert acc st. induction bases as [|[ifo basis] bases IH]; intros acc st.
  { simpl. intros [= <-] _. by rewrite app_nil_r. }
  cbn [prog_fold]. unfold mbind, prog_bind.
  intros Hfold HV. inversion HV as [|?? HVb HVs]; subst.
  destruct (save_rb_changes dir suffix acc ifo basis st) as [_ Hstep].
  pose proof (save_fold_changes dir suffix bases) as Hrest.
  destruct (save_rb dir suffix acc (ifo, basis) st) as [[acc'|e] st1];
    [|done].
  destruct (Hstep acc' eq_refl) as [-> Hfile]. cbn [snd fst] in *.
  destruct (IH _ st1 Hfold HVs) as [-> Hfiles].
  split; [by rewrite <-app_assoc|]. unfold keys. rewrite !fmap_cons.
  constructor; [|done]. cbn [fst].
  eapply changes_only_is_Some; [apply Hrest|by apply Hfile].
Qed.

Lemma collect_loop_keys N batch_size (batches : list (result (Batch C R))) idx
    (rb_train_data out : dict (matrix C)) :
  collect_loop N batch_size batches idx rb_train_data = Ok out →
  keys out = keys rb_train_data.
Proof.
  revert idx rb_train_data.
  induction batches as [|b rest IH]; intros idx buf; simpl.
  { by intros [= <-]. }
  destruct b as [data|]; [|done]. simpl.
  destruct (for_each _ buf) as [step|] eqn:Hstep; [|done]. simpl.
  assert (Hkeys : keys step = keys buf).
  { apply (Forall2_keys buf step). apply for_each_inv in Hstep.
    eapply Forall2_impl; [done|]. intros [ch b0] [ch' b1]. simpl.
    destruct (dict_get _ _); [|done]. simpl.
    destruct (setitem_rows _ _ _ _); [|done]. simpl. by intros [= <- _]. }
  case_decide; [by intros [= <-]|].
  intros Hrest. rewrite <-Hkeys. by eapply IH.
Qed.

Lemma collect_data_probe fill N_train N_test batch_size
    (d : WaveformDataset C R) data :
  collect_data fill N_train N_test batch_size d = Ok data →
  ∃ probe, wfd_getitem d 0 = Ok probe ∧ keys data = keys probe.2.
Proof.
  unfold collect_data.
  destruct (wfd_getitem d 0) as [probe|]; [|done]. simpl.
  destruct (keys probe.2 !! 0); [|done]. simpl.
  destruct (dict_get _ _); [|done]. simpl.
  destruct (DataLoader _ _); [|done]. simpl.
  intros Hloop%collect_loop_keys. exists probe. split; [done|].
  rewrite Hloop. unfold keys. rewrite <-list_fmap_compose. apply list_fmap_id.
Qed.

Lemma collect_data_keys fill N_train N_test batch_size
    (d : WaveformDataset C R) data :
  collect_data fill N_train N_test batch_size d = Ok data →
  keys data = channels d.
Proof.
  intros (probe & Hprobe & ->)%collect_data_probe.
  unfold channels. by rewrite Hprobe.
Qed.

Lemma generate_rb_keys N_train n_rb (data : dict (matrix C)) bases :
  generate_rb N_train n_rb data = Ok bases →
  keys bases = keys data ∧ Forall (λ kb, is_Some (V kb.2)) bases.
Proof.
  intros Hfit%for_each_inv. split.
  - apply (Forall2_keys data bases). eapply Forall2_impl; [done|].
    intros [ifo A] [ifo' b]. simpl.
    destruct (generate_basis _ _ _ _); [|done]. simpl. by intros [= <- _].
  - eapply Forall2_Forall_r; [done|]. apply Forall_forall.
    intros [ifo A] _ [ifo' b]. simpl.
    destruct (generate_basis _ _ _ _) as [b'|] eqn:Hb; [|done]. simpl.
    intros [= _ <-]. by destruct (generate_basis_fully_initialized _ _ _ _ _ Hb).
Qed.

(** X10.  The builder removes no file and leaves untouched every file
    that is not, in the output directory, the matrix, the singular values
    or the statistics of a channel of the data source, the channels being
    those of its first sample under the reduced pipeline; this holds as
    well when it raises.  Without an output directory, or when the first
    sample cannot be read, no file changes.  What can be written stays
    the same. *)
Theorem build_changes_only fill omitted_transforms
    N_train N_test batch_size num_workers n_rb out_dir suffix (w : World C R) :
  let d_rb := mkWaveformDataset
                (filter (λ tr, tr_type tr ∉ omitted_transforms) (transform (wfd w)))
                (wfd_len (wfd w)) (wfd_item (wfd w)) in
  let out := generate_and_save_reduced_basis fill omitted_transforms
               N_train N_test batch_size num_workers n_rb out_dir suffix w in
  changes_only (builder_path out_dir suffix (channels d_rb))
    (disk w) (disk out.2) ∧
  (out_dir = None ∨ channels d_rb = [] → files (disk out.2) = files (disk w)) ∧
  ∀ p, is_Some (files (disk w) !! p) → is_Some (files (disk out.2) !! p).
Proof.
  cbv zeta.
  set (d_rb := mkWaveformDataset _ _ _).
  assert (Hmain : changes_only (builder_path out_dir suffix (channels d_rb))
    (disk w)
    (disk (generate_and_save_reduced_basis fill omitted_transforms
             N_train N_test batch_size num_workers n_rb out_dir suffix w).2)).
  { unfold generate_and_save_reduced_basis, mbind, prog_bind, set_transform,
      lift, mret, prog_ret.
    cbn [wfd disk transform wfd_len wfd_item]. fold d_rb.
    destruct (collect_data _ _ _ _ _) as [data|] eqn:Hdata;
      [|apply changes_only_refl].
    destruct (generate_rb _ _ _) as [bases|] eqn:Hfit;
      [|apply changes_only_refl].
    destruct out_dir as [dir|]; [|apply changes_only_refl].
    apply collect_data_keys in Hdata.
    change (keys data = channels d_rb) in Hdata.
    destruct (generate_rb_keys _ _ _ _ Hfit) as [Hkb _].
    rewrite <-Hdata, <-Hkb.
    unfold on_disk. cbn [disk wfd].
    pose proof (save_fold_changes dir suffix bases [] (disk w)) as Hsave.
    destruct (prog_fold (save_rb dir suffix) [] bases (disk w))
      as [[paths|e] st1]; simpl in Hsave; [|done].
    cbn [disk wfd].
    pose proof (test_fold_changes N_train dir suffix data bases () st1) as Htest.
    destruct (prog_fold (test_rb N_train dir suffix data) () bases st1)
      as [[[]|e'] st2]; simpl in Htest; simpl; by eapply changes_only_trans. }
  split; [done|]. split; [|intros p; by eapply changes_only_is_Some].
  intros Hnone. apply map_eq. intros p.
  destruct Hmain as [_ Hmain].
  destruct (Hmain p) as [?|[(dir & ifo & Hdir & Hin & _) _]]; [done|].
  destruct Hnone as [Hn|Hn]; [congruence|].
  rewrite Hn in Hin. by apply elem_of_nil in Hin.
Qed.

(** X11.  When the builder returns with an output directory, the list
    it returns holds one path per channel of the first sample, in the
    order of the channels, each the name [V_<channel><suffix>.npy] in
    that directory, and each names a file that exists afterwards. *)
Theorem build_returns_V_paths fill omitted_transforms
    N_train N_test batch_size num_workers n_rb dir suffix (w : World C R) paths :
  let d_rb := mkWaveformDataset
                (filter (λ tr, tr_type tr ∉ omitted_transforms) (transform (wfd w)))
                (wfd_len (wfd w)) (wfd_item (wfd w)) in
  let out := generate_and_save_reduced_basis fill omitted_transforms
               N_train N_test batch_size num_workers n_rb (Some dir) suffix w in
  out.1 = Ok paths →
  ∃ probe, wfd_getitem d_rb 0 = Ok probe ∧
    paths = V_path dir suffix <$> keys probe.2 ∧
    Forall (λ p, is_Some (files (disk out.2) !! p)) paths.
Proof.
  cbv zeta.
  unfold generate_and_save_reduced_basis, mbind, prog_bind, set_transform,
    lift, mret, prog_ret.
  cbn [wfd disk transform wfd_len wfd_item].
  destruct (collect_data _ _ _ _ _) as [data|] eqn:Hdata; [|done].
  destruct (generate_rb _ _ _) as [bases|] eqn:Hfit; [|done].
  destruct (collect_data_probe _ _ _ _ _ _ Hdata) as (probe & Hprobe & Hkd).
  destruct (generate_rb_keys _ _ _ _ Hfit) as [Hkb HVs].
  unfold on_disk. cbn [disk wfd].
  match goal with |- context [prog_fold (save_rb ?a ?b) ?c ?d ?st0] =>
    pose proof (save_fold_paths a b d c st0) as Hsave;
    destruct (prog_fold (save_rb a b) c d st0) as [[paths0|e] st1]
  end; [|done]. simpl in Hsave.
  destruct (Hsave paths0 eq_refl HVs) as [-> Hfiles].
  cbn [disk wfd].
  match goal with |- context [prog_fold (test_rb ?a ?b ?c ?e) ?u ?d ?st0] =>
    pose proof (test_fold_changes a b c e d u st0) as Htest;
    destruct (prog_fold (test_rb a b c e) u d st0) as [[[]|e'] st2]
  end; simpl in Htest; simpl; [|done].
  intros [= <-]. exists probe. rewrite Hkb, Hkd in *.
  split_and!; [done..|].
  eapply Forall_impl; [done|]. intros p. by eapply changes_only_is_Some.
Qed.

(** ** Collecting from a source that has enough samples *)

Lemma for_each_Forall2 {W X Y} (P : W → Y → Prop) (f : X → result Y) ws xs :
  Forall2 (λ w x, ∃ y, f x = Ok y ∧ P w y) ws xs →
  ∃ ys, for_each f xs = Ok ys ∧ Forall2 P ws ys.
Proof.
  induction 1 as [|w x ws xs (y & Hy & HP) _ (ys & Hys & HF)]; simpl.
  - by exists [].
  - exists (y :: ys). rewrite Hy. simpl. rewrite Hys. simpl.
    by split; [|constructor].
Qed.

Lemma Forall2_eq_fmap {X Y} (g : X → Y) xs ys :
  Forall2 (λ x y, y = g x) xs ys → ys = g <$> xs.
Proof. induction 1; csimpl; congruence. Qed.

Lemma dict_get_keyed {X} (Q : string → X → Prop) chs (d : dict X) ch :
  Forall2 (λ c kv, kv.1 = c ∧ Q c kv.2) chs d → ch ∈ chs →
  ∃ x, dict_get d ch = Ok x ∧ Q ch x.
Proof.
  induction 1 as [|c [key x] chs d [Hkey HQ] _ IH]; intros Hin.
  { by apply elem_of_nil in Hin. }
  simpl in *. subst key. destruct (decide (c = ch)) as [->|Hne].
  - by exists x.
  - apply IH. by apply elem_of_cons in Hin as [->|Hin].
Qed.

Lemma signal_length ifos M (d : WaveformDataset C R) ch i :
  uniform_source ifos M d → i < wfd_len d → ch ∈ ifos →
  length (signal d ch i) = M.
Proof.
  intros Hd Hi Hch. destruct (Hd i Hi) as (smp & Hsmp & _ & Hall).
  destruct (Hall ch Hch) as (x & Hx & Hlen).
  unfold signal. by rewrite Hsmp, Hx.
Qed.

Lemma fetch_sample_batch ifos M (d : WaveformDataset C R) a c :
  uniform_source ifos M d → 0 < c → a + c ≤ wfd_len d →
  sample_batch d ifos M a c
    (samples ← for_each (wfd_getitem d) (seq a c); default_collate samples).
Proof.
  intros Hd Hc Hle.
  destruct (for_each_Ok
    (λ i smp, wfd_item d (transform d) i = Ok smp ∧ uniform_sample ifos M smp)
    (wfd_getitem d) (seq a c)) as (smps & -> & Hsmps).
  { apply Forall_seq. intros i Hi. unfold wfd_getitem.
    rewrite decide_True by lia. destruct (Hd i) as (smp & ? & ?); [lia|].
    by exists smp. }
  result_step.
  assert (Hlen : length smps = c).
  { by rewrite <-(Forall2_length _ _ _ Hsmps), length_seq. }
  assert (Huni : Forall (uniform_sample ifos M) smps).
  { eapply Forall2_Forall_r; [done|]. apply Forall_forall. by intros ? _ ? [_ ?]. }
  destruct smps as [|s0 rest]; [simpl in Hlen; lia|].
  unfold default_collate.
  assert (Hkeys : keys s0.2 = ifos) by (by inversion Huni as [|?? [? _]]).
  rewrite Hkeys.
  destruct (for_each_Ok
    (λ ch (kv : string * matrix C), kv.1 = ch ∧
       kv.2 = Matrix c M (signal d ch <$> seq a c))
    (λ ch, vs ← for_each (λ smp : Sample C R, dict_get smp.2 ch) (s0 :: rest);
           A ← stack vs; Ok (ch, A)) ifos) as (strain & -> & Hstrain).
  { apply Forall_forall. intros ch Hch.
    destruct (for_each_Ok
      (λ (smp : Sample C R) (x : list C), dict_get smp.2 ch = Ok x ∧ length x = M)
      (λ smp : Sample C R, dict_get smp.2 ch) (s0 :: rest)) as (vs & -> & Hvs).
    { eapply Forall_impl; [done|]. intros smp [_ Hsmp].
      destruct (Hsmp ch Hch) as (x & ? & ?). by exists x. }
    result_step.
    assert (Hsig : Forall2 (λ i x, x = signal d ch i) (seq a c) vs).
    { eapply (Forall2_compose _ _ _ (seq a c) (s0 :: rest) vs); [|done..].
      intros i smp x [Hi _] [Hx _]. unfold signal. by rewrite Hi, Hx. }
    apply Forall2_eq_fmap in Hsig.
    assert (HM : Forall (λ x, length x = M) vs).
    { eapply Forall2_Forall_r; [done|]. apply Forall_forall. by intros ? _ ? [_ ?]. }
    assert (Hvlen : length vs = c).
    { by rewrite Hsig, length_fmap, length_seq. }
    destruct vs as [|x vs]; [simpl in Hvlen; lia|]. unfold stack.
    assert (Hx : length x = M) by (by inversion HM).
    rewrite decide_True by (by rewrite Hx).
    result_step. eexists. split; [done|]. cbn [fst snd]. split; [done|].
    by rewrite Hvlen, Hx, Hsig. }
  result_step. eexists. split; [done|]. simpl. intros ch Hch.
  destruct (dict_get_keyed
    (λ ch A, A = Matrix c M (signal d ch <$> seq a c)) ifos strain ch Hstrain Hch)
    as (A & -> & ->). done.
Qed.

(** The count of the batches covers the source, and no batch is empty. *)
Lemma batches_cover len batch_size :
  0 < batch_size →
  len ≤ (len + batch_size - 1) / batch_size * batch_size ∧
  ∀ j, j < (len + batch_size - 1) / batch_size → j * batch_size < len.
Proof.
  intros Hbs.
  pose proof (Nat.div_mod (len + batch_size - 1) batch_size) as Hdm.
  pose proof (Nat.mod_upper_bound (len + batch_size - 1) batch_size) as Hm.
  split; [nia|]. intros j Hj. nia.
Qed.

Lemma DataLoader_batches ifos M (d : WaveformDataset C R) batch_size :
  uniform_source ifos M d → 0 < batch_size →
  ∃ batches, DataLoader d batch_size = Ok batches ∧
    wfd_len d ≤ length batches * batch_size ∧
    Forall2 (λ j b, sample_batch d ifos M (j * batch_size)
                      (batch_size `min` (wfd_len d - j * batch_size)) b)
            (seq 0 (length batches)) batches.
Proof.
  intros Hd Hbs. unfold DataLoader. rewrite decide_False by lia.
  eexists. split; [done|]. unfold batch_indices.
  rewrite !length_fmap, length_seq.
  destruct (batches_cover (wfd_len d) batch_size Hbs) as [Hcover Hne].
  split; [done|].
  rewrite <-list_fmap_compose. apply Forall2_fmap_r.
  apply Forall_Forall2_diag, Forall_seq. intros j Hj. simpl.
  apply fetch_sample_batch; [done| |]; specialize (Hne j); lia.
Qed.

Lemma collect_step_filled ifos M (d : WaveformDataset C R) N data lower c k
    (buf : dict (matrix C)) :
  uniform_source ifos M d →
  (∀ ch, ch ∈ ifos →
     dict_get data ch = Ok (Matrix c M (signal d ch <$> seq lower c))) →
  k ≤ c → lower + c ≤ wfd_len d → lower + k ≤ N →
  Forall2 (filled d N M lower) ifos buf →
  ∃ step,
    for_each (λ '(ch, buf),
        src ← dict_get data ch;
        buf' ← setitem_rows buf lower (lower + k) (slice_rows k src);
        Ok (ch, buf')) buf = Ok step ∧
    Forall2 (filled d N M (lower + k)) ifos step.
Proof.
  intros Hd Hdata Hkc Hlen HN Hbuf.
  assert (Hin : Forall2 (λ ch kv, ch ∈ ifos ∧ filled d N M lower ch kv) ifos buf).
  { apply Forall2_same_length_lookup. split; [by eapply Forall2_length|].
    intros i ch kv Hch Hkv. split; [by eapply list_elem_of_lookup_2|].
    by eapply Forall2_lookup_lr. }
  apply for_each_Forall2. eapply Forall2_impl; [exact Hin|].
  intros ch [ch' b] (Hch & Hkey & Hb & Htake). simpl in *. subst ch'.
  rewrite (Hdata ch Hch). result_step.
  set (src := Matrix c M (signal d ch <$> seq lower c)).
  assert (Hsrc : buffer k M (slice_rows k src)).
  { split_and!; [|simpl; lia|done]. apply wf_slice_rows. split; simpl.
    - by rewrite length_fmap, length_seq.
    - apply Forall_fmap, Forall_seq. intros i Hi. simpl.
      eapply signal_length; [done|lia|done]. }
  assert (Hidem : slice_rows k src = slice_rows k (slice_rows k src)).
  { unfold slice_rows. simpl. rewrite take_take, Nat.min_id. f_equal. lia. }
  rewrite Hidem.
  destruct (setitem_rows_full N M b lower k (slice_rows k src) Hb Hsrc HN)
    as (b' & -> & Hb' & Hrows).
  result_step. eexists. split; [done|]. split; [done|]. split; [done|].
  simpl. rewrite Hrows.
  destruct Hb as ([Hblen _] & HbN & _).
  rewrite take_app_add'; last first.
  { rewrite length_take. lia. }
  rewrite take_app_length'; last first.
  { simpl. rewrite length_take, length_fmap, length_seq. lia. }
  rewrite Htake. simpl. rewrite <-fmap_take, take_seq, <-fmap_app.
  replace (k `min` c) with k by lia.
  change (0 + lower) with lower. by rewrite (seq_app lower k 0).
Qed.

Lemma collect_loop_filled ifos M (d : WaveformDataset C R) N batch_size
    (batches : list (result (Batch C R))) idx (buf : dict (matrix C)) :
  uniform_source ifos M d → 0 < batch_size → N ≤ wfd_len d →
  idx * batch_size < N → N ≤ (idx + length batches) * batch_size →
  Forall2 (λ j b, sample_batch d ifos M (j * batch_size)
                    (batch_size `min` (wfd_len d - j * batch_size)) b)
          (seq idx (length batches)) batches →
  Forall2 (filled d N M (idx * batch_size)) ifos buf →
  ∃ out, collect_loop N batch_size batches idx buf = Ok out ∧
    Forall2 (filled d N M N) ifos out.
Proof.
  intros Hd Hbs Hlen. revert idx buf.
  induction batches as [|b rest IH]; intros idx buf Hlow Hhigh Hbatches Hbuf.
  { simpl in Hhigh. lia. }
  simpl in Hbatches, Hhigh.
  inversion Hbatches as [|?? ?? (data & -> & Hdata) Hrest]; subst.
  cbn [collect_loop]. result_step.
  set (lower := idx * batch_size) in *.
  set (k := batch_size `min` (N - lower)).
  destruct (collect_step_filled ifos M d N data.2 lower
              (batch_size `min` (wfd_len d - lower)) k buf)
    as (step & -> & Hstep); [done|done|lia|lia|lia|done|].
  result_step. destruct (decide (lower + k = N)) as [HN|HN].
  - exists step. split; [done|]. by rewrite HN in Hstep.
  - assert (Hk : k = batch_size) by lia. rewrite Hk in Hstep.
    apply (IH (S idx)); [simpl; lia|simpl; lia|done|].
    replace (S idx * batch_size) with (lower + batch_size) by (simpl; lia).
    done.
Qed.

Lemma collect_data_filled fill N_train N_test batch_size
    (d : WaveformDataset C R) ifos M :
  uniform_source ifos M d → ifos ≠ [] → 0 < batch_size →
  0 < N_train + N_test → N_train + N_test ≤ wfd_len d →
  ∃ data, collect_data fill N_train N_test batch_size d = Ok data ∧
    keys data = ifos ∧
    Forall (λ kv,
      buffer (N_train + N_test) M kv.2 ∧
      rows kv.2 = signal d kv.1 <$> seq 0 (N_train + N_test)) data.
Proof.
  intros Hd Hifos Hbs HN Hlen.
  destruct (Hd 0) as (probe & Hprobe & Hkeys & Hch); [lia|].
  destruct ifos as [|ifo0 ifos'] eqn:E; [done|]. rewrite <-E in *.
  destruct (Hch ifo0) as (h & Hh & HM); [rewrite E; apply list_elem_of_here|].
  destruct (DataLoader_batches ifos M d batch_size Hd Hbs)
    as (batches & Hloader & Hcover & Hbatches).
  unfold collect_data, wfd_getitem. rewrite decide_True by lia.
  rewrite Hprobe. do 2 result_step. rewrite Hkeys.
  replace (ifos !! 0) with (Some ifo0) by (by rewrite E).
  result_step. rewrite Hh. result_step. rewrite Hloader. result_step.
  rewrite HM.
  destruct (collect_loop_filled ifos M d (N_train + N_test) batch_size batches 0
              ((λ ifo, (ifo, np_empty (fill ifo) (N_train + N_test) M)) <$> ifos))
    as (data & -> & Hdata); [done|done|done|simpl; lia|simpl; lia|done| |].
  { apply Forall2_fmap_r, Forall_Forall2_diag, Forall_forall. intros ifo _.
    split; [done|]. split; [apply buffer_np_empty|done]. }
  exists data. split; [done|]. split.
  - transitivity (keys ((λ ifo, (ifo, ())) <$> ifos)).
    + apply Forall2_keys, Forall2_fmap_l.
      eapply Forall2_impl; [exact Hdata|]. by intros ?? (? & _).
    + unfold keys. rewrite <-list_fmap_compose. apply list_fmap_id.
  - eapply Forall2_Forall_r; [done|]. apply Forall_forall.
    intros ifo _ kv (<- & Hb & Htake).
    destruct Hb as ([Hblen Hbrows] & HbN & HbM).
    rewrite take_ge in Htake by lia. by split.
Qed.

(** X12.  From a data source of uniform samples that holds at least
    [N_train + N_test] of them, collecting gives one buffer per channel,
    in the order of the channels, whose rows are the signals of the first
    [N_train + N_test] samples in order, whatever the batch size: the
    first [N_train] rows, on which the basis is fitted, are the first
    samples, and the rows from [N_train], on which it is validated, are
    the samples that follow. *)
Theorem collect_data_fills fill N_train N_test batch_size
    (d : WaveformDataset C R) ifos M :
  uniform_source ifos M d → ifos ≠ [] → 0 < batch_size →
  0 < N_train + N_test → N_train + N_test ≤ wfd_len d →
  ∃ data, collect_data fill N_train N_test batch_size d = Ok data ∧
    keys data = ifos ∧
    Forall (λ kv,
      buffer (N_train + N_test) M kv.2 ∧
      rows kv.2 = signal d kv.1 <$> seq 0 (N_train + N_test) ∧
      rows (slice_rows N_train kv.2) = signal d kv.1 <$> seq 0 N_train ∧
      rows (slice_rows_from N_train kv.2)
      = signal d kv.1 <$> seq N_train N_test) data.
Proof.
  intros Hd Hifos Hbs HN Hlen.
  destruct (collect_data_filled fill N_train N_test batch_size d ifos M
              Hd Hifos Hbs HN Hlen) as (data & Hdata & Hkeys & Hrows).
  exists data. split_and!; [done..|].
  eapply Forall_impl; [exact Hrows|]. intros kv [Hb Hr].
  split_and!; [done|done| |]; simpl; rewrite Hr.
  - rewrite <-fmap_take, take_seq. f_equal. f_equal. lia.
  - rewrite <-fmap_drop, drop_seq. f_equal. f_equal; lia.
Qed.

(** ** Collecting from a source whose last batch is short *)

Lemma collect_loop_app N batch_size (full rest : list (result (Batch C R))) idx
    (buf out : dict (matrix C)) :
  (idx + length full) * batch_size < N →
  collect_loop N batch_size full idx buf = Ok out →
  collect_loop N batch_size (full ++ rest) idx buf
  = collect_loop N batch_size rest (idx + length full) out.
Proof.
  revert idx buf. induction full as [|b full IH]; intros idx buf Hlt; simpl.
  { intros [= <-]. by rewrite Nat.add_0_r. }
  simpl in Hlt. destruct b as [data|]; [|done]. simpl.
  destruct (for_each _ buf) as [step|]; [|done]. simpl.
  destruct (decide _) as [?|_]; [nia|].
  intros Hfull. rewrite (IH (S idx) step) by (done || lia).
  f_equal. lia.
Qed.

Lemma sample_batch_full ifos M (d : WaveformDataset C R) a c b :
  uniform_source ifos M d → a + c ≤ wfd_len d →
  sample_batch d ifos M a c b → full_batch M c ifos b.
Proof.
  intros Hd Hle (data & -> & Hdata). exists data. split; [done|].
  intros ch Hch. eexists. split; [by apply Hdata|]. split_and!; [|done..].
  split; simpl.
  - by rewrite length_fmap, length_seq.
  - apply Forall_fmap, Forall_seq. intros i Hi. simpl.
    eapply signal_length; [done|lia|done].
Qed.

Lemma sample_batches_full ifos M (d : WaveformDataset C R) batch_size js
    (batches : list (result (Batch C R))) :
  uniform_source ifos M d →
  (∀ j, j ∈ js → (j + 1) * batch_size ≤ wfd_len d) →
  Forall2 (λ j b, sample_batch d ifos M (j * batch_size)
                    (batch_size `min` (wfd_len d - j * batch_size)) b)
          js batches →
  Forall (full_batch M batch_size ifos) batches.
Proof.
  intros Hd Hjs Hall.
  induction Hall as [|j b js bs Hb _ IH]; constructor.
  - assert ((j + 1) * batch_size ≤ wfd_len d) by (apply Hjs, list_elem_of_here).
    replace (batch_size `min` (wfd_len d - j * batch_size))
      with batch_size in Hb by nia.
    eapply sample_batch_full; [done| |done]. nia.
  - apply IH. intros j' Hj'. apply Hjs. by apply list_elem_of_further.
Qed.

Lemma DataLoader_length (d : WaveformDataset C R) batch_size batches :
  DataLoader d batch_size = Ok batches →
  length batches = (wfd_len d + batch_size - 1) / batch_size.
Proof.
  unfold DataLoader, batch_indices. case_decide; [done|]. intros [= <-].
  by rewrite !length_fmap, length_seq.
Qed.

(** X13.  When the last batch of the data source is short, with at
    least two samples but fewer than the rows still to fill, collecting
    raises [ValueError]: the rows of that batch cannot be assigned to the
    larger slice of the buffer. *)
Theorem collect_data_short_batch fill N_train N_test batch_size
    (d : WaveformDataset C R) ifos M q r :
  uniform_source ifos M d → ifos ≠ [] →
  wfd_len d = q * batch_size + r → 2 ≤ r → r < batch_size →
  wfd_len d < N_train + N_test →
  collect_data fill N_train N_test batch_size d = Raise ValueError.
Proof.
  intros Hd Hifos Hlen Hr Hrb Hshort.
  assert (Hbs : 0 < batch_size) by lia.
  destruct (Hd 0) as (probe & Hprobe & Hkeys & Hch); [lia|].
  destruct ifos as [|ifo0 ifos'] eqn:E; [done|]. rewrite <-E in *.
  assert (Hifo0 : ifo0 ∈ ifos) by (rewrite E; apply list_elem_of_here).
  destruct (Hch ifo0 Hifo0) as (h & Hh & HM).
  destruct (DataLoader_batches ifos M d batch_size Hd Hbs)
    as (batches & Hloader & _ & Hbatches).
  assert (Hcount : length batches = q + 1).
  { rewrite (DataLoader_length d batch_size batches Hloader), Hlen.
    replace (q * batch_size + r + batch_size - 1)
      with (q * batch_size + (r + batch_size - 1)) by lia.
    rewrite Nat.div_add_l by lia. f_equal.
    symmetry. apply (Nat.div_unique _ _ 1 (r - 1)); lia. }
  rewrite Hcount in Hbatches.
  assert (Hsplit : batches = take q batches ++ drop q batches)
    by (by rewrite take_drop).
  assert (Hfl : length (take q batches) = q) by (rewrite length_take; lia).
  destruct (drop q batches) as [|last [|??]] eqn:Hdrop;
    [apply (f_equal length) in Hdrop; rewrite length_drop in Hdrop;
     simpl in Hdrop; lia| |
     apply (f_equal length) in Hdrop; rewrite length_drop in Hdrop;
     simpl in Hdrop; lia].
  set (full := take q batches) in *. rewrite Hsplit in Hbatches.
  rewrite seq_app in Hbatches.
  apply Forall2_app_inv in Hbatches as [Hfull Hlast];
    [|by rewrite length_seq].
  simpl in Hlast. apply Forall2_cons_1 in Hlast as [(data & -> & Hdata) _].
  replace (batch_size `min` (wfd_len d - q * batch_size)) with r in Hdata by lia.
  unfold collect_data, wfd_getitem. rewrite decide_True by lia.
  rewrite Hprobe. do 2 result_step. rewrite Hkeys.
  replace (ifos !! 0) with (Some ifo0) by (by rewrite E).
  result_step. rewrite Hh. result_step. rewrite Hloader. result_step.
  rewrite HM, Hsplit.
  set (N := N_train + N_test) in *.
  set (bufs := (λ ifo, (ifo, np_empty (fill ifo) N M)) <$> ifos).
  assert (Hkb : keys bufs = ifos).
  { unfold bufs, keys. rewrite <-list_fmap_compose. apply list_fmap_id. }
  destruct (collect_loop_exhausted N M batch_size full 0 bufs)
    as (out & Hout & Hbufs).
  { rewrite Hfl. simpl. lia. }
  { rewrite Hkb. eapply sample_batches_full; [done| |exact Hfull].
    intros j Hj%elem_of_seq. nia. }
  { unfold bufs. apply Forall_fmap, Forall_forall. intros ifo _.
    apply buffer_np_empty. }
  rewrite (collect_loop_app N batch_size full [Ok data] 0 bufs out)
    by (rewrite ?Hfl; simpl; done || lia).
  rewrite Hfl. simpl (0 + q).
  unfold bufs in Hbufs. rewrite E in Hbufs. csimpl in Hbufs.
  destruct out as [|[ch0 buf0] out']; [by inversion Hbufs|].
  apply Forall2_cons_1 in Hbufs as [(Hk0 & Hb0 & _) _].
  simpl in Hk0, Hb0. subst ch0.
  cbn [collect_loop]. result_step. cbn [for_each].
  rewrite (Hdata ifo0 Hifo0). result_step.
  destruct Hb0 as (_ & HbN & HbM).
  unfold setitem_rows, broadcast_to. simpl. rewrite HbN.
  match goal with |- context [decide ?P] =>
    match P with _ ∧ _ => destruct (decide P) as [[[?|?] _]|_] end end;
    [lia|lia|done].
Qed.


(** ** What the builder fits and validates *)

Lemma collect_data_slices fill N_train N_test batch_size
    (d : WaveformDataset C R) ifos M :
  uniform_source ifos M d → ifos ≠ [] → 0 < batch_size →
  0 < N_train + N_test → N_train + N_test ≤ wfd_len d →
  ∃ data, collect_data fill N_train N_test batch_size d = Ok data ∧
    keys data = ifos ∧
    Forall (λ kv,
      slice_rows N_train kv.2 = signals d kv.1 M 0 N_train ∧
      slice_rows_from N_train kv.2 = signals d kv.1 M N_train N_test) data.
Proof.
  intros Hd Hifos Hbs HN Hlen.
  destruct (collect_data_filled fill N_train N_test batch_size d ifos M
              Hd Hifos Hbs HN Hlen) as (data & Hdata & Hkeys & Hrows).
  exists data. split_and!; [done..|].
  eapply Forall_impl; [exact Hrows|]. intros [ch [n0 n1 rs]] [(_ & Hn0 & Hn1) Hr].
  cbn [fst snd shape0 shape1 rows] in *. subst n0 n1 rs.
  unfold slice_rows, slice_rows_from, signals. cbn [shape0 shape1 rows].
  split; f_equal; try lia.
  - rewrite <-fmap_take, take_seq. do 2 f_equal. lia.
  - rewrite <-fmap_drop, drop_seq. do 2 f_equal; lia.
Qed.

Lemma dict_get_Forall {X} (Q : string → X → Prop) (d : dict X) ch :
  Forall (λ kv, Q kv.1 kv.2) d → ch ∈ keys d →
  ∃ x, dict_get d ch = Ok x ∧ Q ch x.
Proof.
  intros HQ. apply (dict_get_keyed Q (keys d) d ch).
  apply Forall2_fmap_l, Forall_Forall2_diag.
  eapply Forall_impl; [exact HQ|]. by intros kv ?.
Qed.

Lemma generate_rb_fits N_train n_rb (d : WaveformDataset C R) M
    (data : dict (matrix C)) :
  Forall (λ kv, slice_rows N_train kv.2 = signals d kv.1 M 0 N_train) data →
  (∀ ifo, ifo ∈ keys data →
     ∃ b, generate_basis SVDBasis_init (signals d ifo M 0 N_train) n_rb "random"
          = Ok b) →
  ∃ bases, generate_rb N_train n_rb data = Ok bases ∧
    Forall2 (λ kd kb, kb.1 = kd.1 ∧
      generate_basis SVDBasis_init (signals d kb.1 M 0 N_train) n_rb "random"
      = Ok kb.2) data bases.
Proof.
  intros Hdata Hfit. apply for_each_Ok. apply Forall_forall.
  intros [ifo A] Hin. rewrite Forall_forall in Hdata.
  pose proof (Hdata _ Hin) as Hslice. cbn [fst snd] in Hslice.
  destruct (Hfit ifo) as [b Hb].
  { apply list_elem_of_fmap. by exists (ifo, A). }
  exists (ifo, b). rewrite Hslice, Hb. by result_step.
Qed.

Lemma test_basis_stateless self test_data n_values (st st' : storage C R) r :
  test_basis self test_data n_values None st = Ok r →
  r.2 = st ∧ test_basis self test_data n_values None st' = Ok (r.1, st').
Proof.
  unfold test_basis. destruct (s self); [|done]. simpl.
  destruct (for_fold _ _ _); [|done]. simpl. by intros [= <-].
Qed.

Lemma test_basis_saves self test_data n_values file (st : storage C R) stats :
  test_basis self test_data n_values None st = Ok (stats, st) →
  writable st (npy_path file) = true →
  test_basis self test_data n_values (Some file) st
  = Ok (stats, Storage (<[npy_path file := NpyPickle stats]> (files st))
                       (writable st)).
Proof.
  unfold test_basis, np_save. destruct (s self); [|done]. simpl.
  destruct (for_fold _ _ _); [|done]. simpl. intros [= ->] ->. done.
Qed.

Lemma test_basis_validates M self test_data (st : storage C R) :
  validates M self → 0 < M → buffer (shape0 test_data) M test_data →
  0 < shape0 test_data →
  ∃ stats, test_basis self test_data default_n_values None st = Ok (stats, st).
Proof.
  intros (v & vh & rank & sv & HV & HVh & Hn & Hs & Hinner & Houter & Hv)
    HM ((Hlen & Hrows) & _ & H1) Hpos.
  unfold test_basis. rewrite Hs. result_step.
  destruct (for_fold_test_basis_step self v vh rank test_data
              HV HVh Hn Hinner Houter)
    with (n_values := default_n_values) (stats := TestStats sv ∅ ∅)
    as (stats & -> & _).
  - lia.
  - eapply Forall_impl; [exact Hrows|]. intros h Hh. simpl in Hh. lia.
  - intros Hnil. rewrite Hnil in Hlen. simpl in Hlen. lia.
  - by exists stats.
Qed.

(** ** The files the builder leaves *)

Lemma save_rb_Ok dir suffix acc ifo basis (st : storage C R) v sv :
  V basis = Some v → s basis = Some sv →
  writable st (V_path dir suffix ifo) = true →
  writable st (s_path dir suffix ifo) = true →
  save_rb dir suffix acc (ifo, basis) st
  = (Ok (acc ++ [V_path dir suffix ifo]),
     Storage (<[s_path dir suffix ifo := NpyVector sv]>
                (<[V_path dir suffix ifo := NpyMatrix v]> (files st)))
             (writable st)).
Proof.
  intros HV Hs HwV Hws.
  unfold save_rb, mbind, prog_bind, update, lift, mret, prog_ret, to_file,
    np_save.
  fold (V_path dir suffix ifo). fold (s_path dir suffix ifo).
  rewrite HV, Hs, npy_path_V_path, HwV. cbn -[npy_path].
  by rewrite npy_path_s_path, Hws.
Qed.

Lemma test_rb_Ok N_train dir suffix (data : dict (matrix C)) u ifo basis
    (st : storage C R) A stats :
  dict_get data ifo = Ok A →
  test_basis basis (slice_rows_from N_train A) default_n_values None st
  = Ok (stats, st) →
  writable st (stats_path dir suffix ifo) = true →
  test_rb N_train dir suffix data u (ifo, basis) st
  = (Ok (),
     Storage (<[stats_path dir suffix ifo := NpyPickle stats]> (files st))
             (writable st)).
Proof.
  intros HA Hstats Hw.
  unfold test_rb, mbind, prog_bind, update, lift, mret, prog_ret.
  fold (stats_path dir suffix ifo). rewrite HA. cbn [fst snd].
  rewrite (test_basis_saves _ _ _ _ _ _ Hstats)
    by (by rewrite npy_path_stats_path).
  by rewrite npy_path_stats_path.
Qed.

(** A loop over entries that each write files of their own, no two
    entries sharing a file: what an entry's step establishes about its
    files still holds when the loop ends. *)
Lemma prog_fold_posts {X Y} (f : Y → X → prog (storage C R) Y)
    (own : X → list string) (pre post : X → storage C R → Prop) xs acc st :
  (∀ acc x st, changes_only (λ p, p ∈ own x) st (f acc x st).2) →
  (∀ x st st', changes_only (λ p, p ∉ own x) st st' →
     (pre x st → pre x st') ∧ (post x st → post x st')) →
  (∀ acc x st, x ∈ xs → NoDup (own x) →
     (∀ p, p ∈ own x → writable st p = true) → pre x st →
     ∃ acc', (f acc x st).1 = Ok acc' ∧ post x (f acc x st).2) →
  (∀ x p, x ∈ xs → p ∈ own x → writable st p = true) →
  NoDup (xs ≫= own) →
  Forall (λ x, pre x st) xs →
  ∃ acc', (prog_fold f acc xs st).1 = Ok acc' ∧
          Forall (λ x, post x (prog_fold f acc xs st).2) xs.
Proof.
  intros Hch Hstable. revert acc st.
  induction xs as [|x xs IH]; intros acc st Hstep Hw Hnd Hpre.
  { exists acc. by split. }
  rewrite bind_cons in Hnd. apply NoDup_app in Hnd as (Hx & Hdisj & Hrest).
  inversion Hpre as [|?? Hprex Hprexs]; subst.
  destruct (Hstep acc x st) as (acc1 & Hacc1 & Hpost);
    [apply list_elem_of_here|done| |done|].
  { intros p Hp. apply (Hw x); [apply list_elem_of_here|done]. }
  pose proof (Hch acc x st) as Hch1.
  pose proof (λ acc', prog_fold_invariant
    (changes_only (λ p, p ∈ xs ≫= own)) f xs acc' (f acc x st).2
    (changes_only_refl _) (changes_only_trans _)) as Htail.
  cbn [prog_fold]. unfold mbind, prog_bind.
  destruct (f acc x st) as [r st1]. cbn [fst snd] in *. subst r.
  destruct (IH acc1 st1) as (acc' & Hacc' & Hposts).
  - intros acc0 y st0 Hy. apply Hstep. by apply list_elem_of_further.
  - intros y p Hy Hp. destruct Hch1 as [-> _].
    apply (Hw y); [by apply list_elem_of_further|done].
  - done.
  - rewrite Forall_forall in Hprexs. apply Forall_forall. intros y Hy.
    apply (Hstable y st st1); [|by apply Hprexs].
    eapply changes_only_mono; [|exact Hch1].
    intros p Hp Hpy. apply (Hdisj p Hp). apply list_elem_of_bind. eauto.
  - exists acc'. split; [done|]. constructor; [|done].
    apply (Hstable x st1 _); [|done].
    eapply changes_only_mono; [|apply Htail].
    + intros p Hp Hpx. by apply (Hdisj p Hpx).
    + intros acc0 y st0 Hy. eapply changes_only_mono; [|apply Hch].
      intros p Hp. apply list_elem_of_bind. by exists y.
Qed.

Lemma buffer_signals ifos M (d : WaveformDataset C R) ch a c :
  uniform_source ifos M d → ch ∈ ifos → a + c ≤ wfd_len d →
  buffer c M (signals d ch M a c).
Proof.
  intros Hd Hch Hle. split_and!; [|done..]. split; simpl.
  - by rewrite length_fmap, length_seq.
  - apply Forall_fmap, Forall_seq. intros i Hi. simpl.
    eapply signal_length; [done|lia|done].
Qed.

Lemma generate_basis_random_rank self A k b :
  generate_basis self A k "random" = Ok b → k ≠ 0 → n b = Some k.
Proof.
  unfold generate_basis. rewrite decide_True by done.
  intros Hb Hk. rewrite decide_False in Hb by done.
  destruct (randomized_svd A k 0) as [[[U sv] Vh0]|]; [|done].
  by injection Hb as <-.
Qed.

Lemma save_fold_Ok dir suffix (bases : dict (SVDBasis C R)) acc
    (st : storage C R) :
  Forall (λ kb, is_Some (V kb.2) ∧ is_Some (s kb.2) ∧
                writable st (V_path dir suffix kb.1) = true ∧
                writable st (s_path dir suffix kb.1) = true) bases →
  ∃ paths, (prog_fold (save_rb dir suffix) acc bases st).1 = Ok paths.
Proof.
  revert acc st.
  induction bases as [|[ifo basis] bases IH]; intros acc st Hall.
  { by eexists. }
  inversion Hall as [|?? ([v Hv] & [sv Hsv] & HwV & Hws) Hrest]; subst.
  cbn [fst snd] in *. cbn [prog_fold]. unfold mbind, prog_bind.
  rewrite (save_rb_Ok dir suffix acc ifo basis st v sv) by done.
  cbn [fst snd]. by apply IH.
Qed.

Lemma test_basis_no_rows self rank sv test_data outfile (st : storage C R) :
  n self = Some rank → s self = Some sv → rows test_data = [] → 50 ≤ rank →
  test_basis self test_data default_n_values outfile st = Raise ValueError.
Proof.
  intros Hn Hs Hrows Hrank. unfold test_basis, default_n_values.
  rewrite Hs. result_step. cbn [for_fold].
  assert (Hstep : ∀ acc, test_basis_step self test_data acc 50
                         = Raise ValueError).
  { intros acc. unfold test_basis_step. rewrite Hn, Hrows. simpl.
    by rewrite decide_False by lia. }
  by rewrite Hstep.
Qed.

(** X14.  With an output directory, no test samples and a requested rank
    of at least 50, the builder fails after it has written its bases.  On
    a source of at least [N_train] uniform samples, when the fit of each
    channel on its first [N_train] signals succeeds and the files of the
    matrix and of the singular values of each channel can be written, it
    raises [ValueError] in the validation of the first channel; the
    matrix of every channel is on disk by then, and the data source keeps
    the reduced pipeline. *)
Theorem build_without_test_samples fill omitted_transforms
    N_train batch_size num_workers n_rb dir suffix (w : World C R) ifos M :
  let reduced :=
    filter (λ tr, tr_type tr ∉ omitted_transforms) (transform (wfd w)) in
  let d_rb := mkWaveformDataset reduced (wfd_len (wfd w)) (wfd_item (wfd w)) in
  let out := generate_and_save_reduced_basis fill omitted_transforms
               N_train 0 batch_size num_workers n_rb (Some dir) suffix w in
  uniform_source ifos M d_rb → ifos ≠ [] → 0 < batch_size →
  0 < N_train → N_train ≤ wfd_len (wfd w) → 50 ≤ n_rb →
  (∀ ifo, ifo ∈ ifos →
     ∃ b, generate_basis SVDBasis_init (signals d_rb ifo M 0 N_train)
            n_rb "random" = Ok b) →
  (∀ ifo, ifo ∈ ifos →
     writable (disk w) (V_path dir suffix ifo) = true ∧
     writable (disk w) (s_path dir suffix ifo) = true) →
  out.1 = Raise ValueError ∧
  Forall (λ ifo, is_Some (files (disk out.2) !! V_path dir suffix ifo)) ifos ∧
  transform (wfd out.2) = reduced.
Proof.
  cbv zeta. intros Hd Hifos Hbs HN Hlen Hrank Hfit Hw.
  set (d_rb := mkWaveformDataset _ _ _) in *.
  destruct (collect_data_slices fill N_train 0 batch_size d_rb ifos M
              Hd Hifos Hbs) as (data & Hdata & Hkeys & Hslices);
    [lia|simpl; lia|].
  destruct (generate_rb_fits N_train n_rb d_rb M data)
    as (bases & Hbases & Hshape).
  { eapply Forall_impl; [exact Hslices|]. by intros kv [? _]. }
  { by rewrite Hkeys. }
  destruct (generate_rb_keys _ _ _ _ Hbases) as [Hkb HVs].
  assert (Hgood : Forall (λ kb, kb.1 ∈ ifos ∧ n kb.2 = Some n_rb ∧
                                fully_initialized kb.2) bases).
  { eapply Forall2_Forall_r; [exact Hshape|]. apply Forall_forall.
    intros [ifo A] Hin [ifo' b] [Hifo Hb]. cbn [fst snd] in *. subst ifo'.
    split_and!.
    - rewrite <-Hkeys. apply list_elem_of_fmap. by exists (ifo, A).
    - apply (generate_basis_random_rank _ _ _ _ Hb). lia.
    - by apply generate_basis_fully_initialized in Hb. }
  unfold generate_and_save_reduced_basis, mbind, prog_bind, set_transform,
    lift, mret, prog_ret.
  cbn [wfd disk transform wfd_len wfd_item]. fold d_rb.
  rewrite Hdata, Hbases. unfold on_disk. cbn [disk wfd].
  destruct (save_fold_Ok dir suffix bases [] (disk w)) as [paths Hpaths].
  { eapply Forall_impl; [exact Hgood|].
    intros kb (Hin & _ & (? & _ & _ & ?)). destruct (Hw _ Hin). done. }
  pose proof (save_fold_paths dir suffix bases [] (disk w) paths Hpaths HVs)
    as [_ Hfiles].
  destruct (prog_fold (save_rb dir suffix) [] bases (disk w)) as [r st1].
  cbn [fst snd] in *. subst r. cbn [disk wfd].
  destruct Hshape as [|[ifo0 A0] [ifo0' basis0] data' bases' [Hifo _] _].
  { by destruct ifos. }
  cbn [fst snd] in Hifo. subst ifo0'.
  apply Forall_cons_1 in Hgood as [(_ & Hn0 & (_ & _ & _ & [sv0 Hs0])) _].
  apply Forall_cons_1 in Hslices as [[_ Htest0] _].
  cbn [fst snd] in *.
  assert (Htest : prog_fold (test_rb N_train dir suffix ((ifo0, A0) :: data'))
                    () ((ifo0, basis0) :: bases') st1
                  = (Raise ValueError, st1)).
  { cbn [prog_fold]. unfold test_rb, mbind, prog_bind, lift, update.
    cbn [dict_get]. rewrite decide_True by done. cbn [fst snd].
    rewrite (test_basis_no_rows basis0 n_rb sv0); [done|done|done| |done].
    by rewrite Htest0. }
  rewrite Htest. cbn [fst snd disk wfd transform]. split_and!; [done| |done].
  rewrite <-Hkeys, <-Hkb. rewrite Forall_fmap in Hfiles.
  eapply Forall_impl; [exact Hfiles|]. by intros x.
Qed.

(** ** The builder on a source with enough samples *)

Lemma generate_basis_validates self A k method b :
  wf_matrix A → generate_basis self A k method = Ok b →
  validates (shape1 A) b.
Proof.
  intros HA Hfit.
  destruct (generate_basis_shapes _ _ _ _ _ HA Hfit)
    as (v & vh & HV & HVh & H0 & H1 & H2 & _).
  destruct (generate_basis_fully_initialized _ _ _ _ _ Hfit)
    as (_ & _ & [rank Hn] & [sv Hs]).
  exists v, vh, rank, sv. split_and!; [done..|congruence|congruence|done].
Qed.

Lemma channel_files_elem dir suffix ifo :
  V_path dir suffix ifo ∈ channel_files dir suffix ifo ∧
  s_path dir suffix ifo ∈ channel_files dir suffix ifo ∧
  stats_path dir suffix ifo ∈ channel_files dir suffix ifo.
Proof.
  unfold channel_files. split_and!.
  - apply list_elem_of_here.
  - apply list_elem_of_further, list_elem_of_here.
  - do 2 apply list_elem_of_further. apply list_elem_of_here.
Qed.

Lemma channel_files_NoDup dir suffix ifo :
  NoDup (channel_files dir suffix ifo) →
  V_path dir suffix ifo ≠ s_path dir suffix ifo ∧
  V_path dir suffix ifo ≠ stats_path dir suffix ifo ∧
  s_path dir suffix ifo ≠ stats_path dir suffix ifo.
Proof.
  unfold channel_files. intros [HV Hrest]%NoDup_cons.
  apply NoDup_cons in Hrest as [Hs _].
  split_and!; intros Heq.
  - apply HV. rewrite Heq. apply list_elem_of_here.
  - apply HV. rewrite Heq. apply list_elem_of_further, list_elem_of_here.
  - apply Hs. rewrite Heq. apply list_elem_of_here.
Qed.

Lemma changes_only_outside (own : list string) (st st' : storage C R) p :
  changes_only (λ q, q ∉ own) st st' → p ∈ own →
  files st' !! p = files st !! p.
Proof. intros [_ H] Hp. by destruct (H p) as [?|[? _]]. Qed.

(** X15.  On a source of uniform samples of positive length that holds
    at least [N_train + N_test] of them, with training and test samples,
    the builder with an output directory succeeds when the fit of each
    channel on its first [N_train] signals succeeds and the files of the
    channels, whose names are all different, can be written.  It returns
    the path of the matrix of each channel, in the order of the channels,
    and puts the original pipeline back.  For every channel it leaves in
    its three files the matrix [V] and the singular values of the basis
    fitted on the first [N_train] signals of that channel, and the
    statistics of validating that basis on the [N_test] signals that
    follow. *)
Theorem build_succeeds fill omitted_transforms
    N_train N_test batch_size num_workers n_rb dir suffix (w : World C R)
    ifos M :
  let d_rb := mkWaveformDataset
                (filter (λ tr, tr_type tr ∉ omitted_transforms) (transform (wfd w)))
                (wfd_len (wfd w)) (wfd_item (wfd w)) in
  let out := generate_and_save_reduced_basis fill omitted_transforms
               N_train N_test batch_size num_workers n_rb (Some dir) suffix w in
  uniform_source ifos M d_rb → ifos ≠ [] → 0 < M → 0 < batch_size →
  0 < N_train → 0 < N_test → N_train + N_test ≤ wfd_len (wfd w) →
  (∀ ifo, ifo ∈ ifos →
     ∃ b, generate_basis SVDBasis_init (signals d_rb ifo M 0 N_train)
            n_rb "random" = Ok b) →
  NoDup (ifos ≫= channel_files dir suffix) →
  (∀ p, p ∈ ifos ≫= channel_files dir suffix → writable (disk w) p = true) →
  out.1 = Ok (V_path dir suffix <$> ifos) ∧
  transform (wfd out.2) = transform (wfd w) ∧
  Forall (λ ifo, ∃ b v sv stats,
    generate_basis SVDBasis_init (signals d_rb ifo M 0 N_train) n_rb "random"
    = Ok b ∧
    V b = Some v ∧ s b = Some sv ∧
    test_basis b (signals d_rb ifo M N_train N_test) default_n_values None
      (disk w) = Ok (stats, disk w) ∧
    files (disk out.2) !! V_path dir suffix ifo = Some (NpyMatrix v) ∧
    files (disk out.2) !! s_path dir suffix ifo = Some (NpyVector sv) ∧
    files (disk out.2) !! stats_path dir suffix ifo = Some (NpyPickle stats))
    ifos.
Proof.
  cbv zeta. intros Hd Hifos HM Hbs HNt HNe Hlen Hfit Hnd Hw.
  set (d_rb := mkWaveformDataset _ _ _) in *.
  destruct (collect_data_slices fill N_train N_test batch_size d_rb ifos M
              Hd Hifos Hbs) as (data & Hdata & Hkeys & Hslices);
    [lia|simpl; lia|].
  destruct (generate_rb_fits N_train n_rb d_rb M data)
    as (bases & Hbases & Hshape).
  { eapply Forall_impl; [exact Hslices|]. by intros kv [? _]. }
  { by rewrite Hkeys. }
  destruct (generate_rb_keys _ _ _ _ Hbases) as [Hkb HVs].
  set (own := channel_files dir suffix ∘ fst
              : string * SVDBasis C R → list string).
  set (saved := λ (kb : string * SVDBasis C R) (st : storage C R),
         files st !! V_path dir suffix kb.1 = NpyMatrix <$> V kb.2 ∧
         files st !! s_path dir suffix kb.1 = NpyVector <$> s kb.2).
  set (tested := λ (kb : string * SVDBasis C R) (st : storage C R),
         saved kb st ∧ ∃ stats,
           test_basis kb.2 (signals d_rb kb.1 M N_train N_test)
             default_n_values None (disk w) = Ok (stats, disk w) ∧
           files st !! stats_path dir suffix kb.1 = Some (NpyPickle stats)).
  assert (Hgood : Forall (λ kb, kb.1 ∈ ifos ∧
            generate_basis SVDBasis_init (signals d_rb kb.1 M 0 N_train)
              n_rb "random" = Ok kb.2) bases).
  { eapply Forall2_Forall_r; [exact Hshape|]. apply Forall_forall.
    intros [ifo A] Hin [ifo' b] [Hifo Hb]. cbn [fst snd] in *. subst ifo'.
    split; [|done]. rewrite <-Hkeys. apply list_elem_of_fmap. by exists (ifo, A). }
  rewrite Forall_forall in Hgood.
  assert (Hown : ∀ kb p, kb ∈ bases → p ∈ own kb →
                 p ∈ ifos ≫= channel_files dir suffix).
  { intros kb p Hkb' Hp. apply list_elem_of_bind. exists kb.1.
    split; [done|]. by apply Hgood. }
  assert (Hndb : NoDup (bases ≫= own)).
  { unfold own. rewrite <-list_fmap_bind. fold (keys bases).
    by rewrite Hkb, Hkeys. }
  assert (Hstable : ∀ kb (st st' : storage C R),
            changes_only (λ p, p ∉ own kb) st st' →
            (saved kb st → saved kb st') ∧ (tested kb st → tested kb st')).
  { intros kb st st' Hch.
    assert (HeV := changes_only_outside (own kb) st st'
                     (V_path dir suffix kb.1) Hch).
    assert (Hes := changes_only_outside (own kb) st st'
                     (s_path dir suffix kb.1) Hch).
    assert (Het := changes_only_outside (own kb) st st'
                     (stats_path dir suffix kb.1) Hch).
    destruct (channel_files_elem dir suffix kb.1) as (? & ? & ?).
    unfold tested, saved. rewrite HeV, Hes, Het by done. done. }
  unfold generate_and_save_reduced_basis, mbind, prog_bind, set_transform,
    lift, mret, prog_ret.
  cbn [wfd disk transform wfd_len wfd_item]. fold d_rb.
  rewrite Hdata, Hbases. unfold on_disk. cbn [disk wfd].
  destruct (prog_fold_posts (save_rb dir suffix) own (λ _ _, True) saved
              bases [] (disk w)) as (paths & Hpaths & Hsaved).
  { intros acc [ifo b] st. apply save_rb_changes. }
  { intros kb st st' Hch. split; [done|]. by apply Hstable. }
  { intros acc [ifo b] st Hin Hndx Hwx _.
    destruct (Hgood _ Hin) as [_ Hb]. cbn [fst snd] in *.
    destruct (generate_basis_fully_initialized _ _ _ _ _ Hb)
      as ([v Hv] & _ & _ & [sv Hsv]).
    unfold own in Hndx, Hwx. cbn [compose fst] in Hndx, Hwx.
    destruct (channel_files_elem dir suffix ifo) as (HeV & Hes & _).
    destruct (channel_files_NoDup dir suffix ifo Hndx) as (HVs' & _ & _).
    rewrite (save_rb_Ok dir suffix acc ifo b st v sv) by auto.
    eexists. split; [done|]. unfold saved. cbn [fst snd files].
    rewrite Hv, Hsv. split; [|apply lookup_insert_eq].
    rewrite lookup_insert_ne by done. apply lookup_insert_eq. }
  { intros kb p Hin Hp. apply Hw. by eapply Hown. }
  { done. }
  { by apply Forall_true. }
  pose proof (save_fold_paths dir suffix bases [] (disk w) paths Hpaths HVs)
    as [-> _].
  pose proof (save_fold_changes dir suffix bases [] (disk w)) as [Hw1 _].
  destruct (prog_fold (save_rb dir suffix) [] bases (disk w)) as [r st1].
  cbn [fst snd] in *. subst r. cbn [disk wfd].
  destruct (prog_fold_posts (test_rb N_train dir suffix data) own saved tested
              bases () st1) as ([] & Hok & Htested).
  { intros acc kb st. apply test_rb_changes. }
  { done. }
  { intros [] [ifo b] st Hin Hndx Hwx Hsv.
    destruct (Hgood _ Hin) as [Hifo Hb]. cbn [fst snd] in *.
    destruct (dict_get_Forall
      (λ ch A, slice_rows_from N_train A = signals d_rb ch M N_train N_test)
      data ifo) as (A & HA & HAtest).
    { eapply Forall_impl; [exact Hslices|]. by intros kv [_ ?]. }
    { by rewrite Hkeys. }
    destruct (test_basis_validates M b (signals d_rb ifo M N_train N_test) st)
      as [stats Hstats].
    { apply (generate_basis_validates _ _ _ _ _
               (proj1 (buffer_signals ifos M d_rb ifo 0 N_train Hd Hifo
                         ltac:(simpl; lia))) Hb). }
    { done. }
    { apply (buffer_signals ifos M d_rb ifo N_train N_test Hd Hifo).
      simpl. lia. }
    { simpl. lia. }
    unfold own in Hndx, Hwx. cbn [compose fst] in Hndx, Hwx.
    destruct (channel_files_elem dir suffix ifo) as (_ & _ & Het).
    destruct (channel_files_NoDup dir suffix ifo Hndx) as (_ & HVt & Hst).
    rewrite (test_rb_Ok N_train dir suffix data () ifo b st A stats);
      [|done|by rewrite HAtest|by apply Hwx].
    exists (). split; [done|]. unfold tested, saved in *. cbn [fst snd files] in *.
    rewrite !lookup_insert_ne by done. split; [done|].
    exists stats. split; [|apply lookup_insert_eq].
    by destruct (test_basis_stateless _ _ _ st (disk w) _ Hstats) as [_ ?]. }
  { intros kb p Hin Hp. rewrite Hw1. apply Hw. by eapply Hown. }
  { done. }
  { done. }
  destruct (prog_fold (test_rb N_train dir suffix data) () bases st1)
    as [r st2].
  cbn [fst snd] in *. subst r. cbn [fst snd disk wfd transform].
  split_and!; [by rewrite Hkb, Hkeys|done|].
  rewrite <-Hkeys, <-Hkb. unfold keys. rewrite Forall_fmap.
  apply Forall_forall. intros kb Hin. cbn [compose].
  rewrite Forall_forall in Htested.
  destruct (Htested _ Hin) as ([HfV Hfs] & stats & Hstats & Hft).
  destruct (Hgood _ Hin) as [_ Hb].
  destruct (generate_basis_fully_initialized _ _ _ _ _ Hb)
    as ([v Hv] & _ & _ & [sv Hsv]).
  rewrite Hv in HfV. rewrite Hsv in Hfs.
  by exists kb.2, v, sv, stats.
Qed.

(** ** Collecting from a source whose last batch holds one sample *)

Lemma collect_loop_prefix ifos M (d : WaveformDataset C R) N batch_size
    (batches : list (result (Batch C R))) idx (buf : dict (matrix C)) :
  uniform_source ifos M d →
  (idx + length batches) * batch_size < N →
  (idx + length batches) * batch_size ≤ wfd_len d →
  Forall2 (λ j b, sample_batch d ifos M (j * batch_size)
                    (batch_size `min` (wfd_len d - j * batch_size)) b)
          (seq idx (length batches)) batches →
  Forall2 (filled d N M (idx * batch_size)) ifos buf →
  ∃ out, collect_loop N batch_size batches idx buf = Ok out ∧
    Forall2 (filled d N M ((idx + length batches) * batch_size)) ifos out.
Proof.
  intros Hd. revert idx buf.
  induction batches as [|b rest IH]; intros idx buf HN Hlen Hbatches Hbuf.
  { exists buf. split; [done|]. simpl. by rewrite Nat.add_0_r. }
  simpl in Hbatches, HN, Hlen.
  inversion Hbatches as [|?? ?? (data & -> & Hdata) Hrest]; subst.
  cbn [collect_loop]. result_step.
  set (lower := idx * batch_size) in *.
  replace (batch_size `min` (N - lower)) with batch_size by lia.
  destruct (collect_step_filled ifos M d N data.2 lower
              (batch_size `min` (wfd_len d - lower)) batch_size buf)
    as (step & -> & Hstep); [done|done|lia|lia|lia|done|].
  result_step. rewrite decide_False by lia.
  destruct (IH (S idx) step) as (out & -> & Hout);
    [simpl; lia|simpl; lia|done| |].
  { replace (S idx * batch_size) with (lower + batch_size) by (simpl; lia).
    done. }
  exists out. split; [done|].
  cbn [length].
  replace (idx + S (length rest)) with (S idx + length rest) by lia.
  done.
Qed.

(** X16.  When the last batch of the data source holds a single sample
    and rows are still to fill, collecting does not fail: the rows before
    that batch are the signals of the samples in order, and the single
    sample is copied into every row of the slice the batch is assigned
    to, [min(batch_size, N - lower)] of them, at least two. *)
Theorem collect_data_single_sample_batch fill N_train N_test batch_size
    (d : WaveformDataset C R) ifos M q :
  uniform_source ifos M d → ifos ≠ [] → 2 ≤ batch_size →
  wfd_len d = q * batch_size + 1 → wfd_len d < N_train + N_test →
  let lower := q * batch_size in
  let k := batch_size `min` (N_train + N_test - lower) in
  2 ≤ k ∧
  ∃ data, collect_data fill N_train N_test batch_size d = Ok data ∧
    keys data = ifos ∧
    Forall (λ kv,
      buffer (N_train + N_test) M kv.2 ∧
      take lower (rows kv.2) = signal d kv.1 <$> seq 0 lower ∧
      take k (drop lower (rows kv.2)) = replicate k (signal d kv.1 lower)) data.
Proof.
  intros Hd Hifos Hbs Hlen Hshort. cbv zeta. split; [lia|].
  destruct (Hd 0) as (probe & Hprobe & Hkeys & Hch); [lia|].
  destruct ifos as [|ifo0 ifos'] eqn:E; [done|]. rewrite <-E in *.
  assert (Hifo0 : ifo0 ∈ ifos) by (rewrite E; apply list_elem_of_here).
  destruct (Hch ifo0 Hifo0) as (h & Hh & HM).
  destruct (DataLoader_batches ifos M d batch_size Hd)
    as (batches & Hloader & _ & Hbatches); [lia|].
  assert (Hcount : length batches = q + 1).
  { rewrite (DataLoader_length d batch_size batches Hloader), Hlen.
    replace (q * batch_size + 1 + batch_size - 1)
      with (q * batch_size + batch_size) by lia.
    rewrite Nat.div_add_l by lia. f_equal.
    apply Nat.div_same. lia. }
  rewrite Hcount in Hbatches.
  assert (Hsplit : batches = take q batches ++ drop q batches)
    by (by rewrite take_drop).
  assert (Hfl : length (take q batches) = q) by (rewrite length_take; lia).
  destruct (drop q batches) as [|last [|??]] eqn:Hdrop;
    [apply (f_equal length) in Hdrop; rewrite length_drop in Hdrop;
     simpl in Hdrop; lia| |
     apply (f_equal length) in Hdrop; rewrite length_drop in Hdrop;
     simpl in Hdrop; lia].
  rewrite Hsplit in Hbatches. rewrite seq_app in Hbatches.
  apply Forall2_app_inv in Hbatches as [Hfull Hlast];
    [|by rewrite length_seq].
  simpl in Hlast. apply Forall2_cons_1 in Hlast as [(data & -> & Hdata) _].
  replace (batch_size `min` (wfd_len d - q * batch_size)) with 1 in Hdata by lia.
  unfold collect_data, wfd_getitem. rewrite decide_True by lia.
  rewrite Hprobe. do 2 result_step. rewrite Hkeys.
  replace (ifos !! 0) with (Some ifo0) by (by rewrite E).
  result_step. rewrite Hh. result_step. rewrite Hloader. result_step.
  rewrite HM, Hsplit.
  set (N := N_train + N_test) in *.
  set (bufs := (λ ifo, (ifo, np_empty (fill ifo) N M)) <$> ifos).
  destruct (collect_loop_prefix ifos M d N batch_size (take q batches) 0 bufs)
    as (out & Hout & Hbufs); [done|rewrite Hfl; simpl; lia|
                              rewrite Hfl; simpl; lia| | |].
  { by rewrite Hfl. }
  { apply Forall2_fmap_r, Forall_Forall2_diag, Forall_forall. intros ifo _.
    split; [done|]. split; [apply buffer_np_empty|done]. }
  rewrite (collect_loop_app N batch_size (take q batches) [Ok data] 0 bufs out)
    by (rewrite ?Hfl; simpl; done || lia).
  rewrite Hfl in *. simpl (0 + q) in *.
  set (lower := q * batch_size) in *.
  set (k := batch_size `min` (N - lower)).
  assert (Hk : 2 ≤ k ∧ lower + k ≤ N) by lia.
  cbn [collect_loop]. result_step. fold lower. fold k.
  assert (Hstep : ∃ step,
    for_each (λ '(ch, buf),
        src ← dict_get data.2 ch;
        buf' ← setitem_rows buf lower (lower + k) (slice_rows k src);
        Ok (ch, buf')) out = Ok step ∧
    Forall2 (λ ch kv, kv.1 = ch ∧ buffer N M kv.2 ∧
      take lower (rows kv.2) = signal d ch <$> seq 0 lower ∧
      take k (drop lower (rows kv.2)) = replicate k (signal d ch lower))
      ifos step).
  { assert (Hin : Forall2 (λ ch kv, ch ∈ ifos ∧ filled d N M lower ch kv)
                    ifos out).
    { apply Forall2_same_length_lookup. split; [by eapply Forall2_length|].
      intros i ch kv Hch' Hkv. split; [by eapply list_elem_of_lookup_2|].
      by eapply Forall2_lookup_lr. }
    apply for_each_Forall2. eapply Forall2_impl; [exact Hin|].
    intros ch [ch' b] (Hch' & Hkey & Hb & Htake). simpl in *. subst ch'.
    rewrite (Hdata ch Hch'). result_step.
    destruct Hb as ([Hblen Hbrows] & HbN & HbM).
    assert (Hsig : length (signal d ch lower) = M).
    { eapply signal_length; [done|lia|done]. }
    assert (Hset : setitem_rows b lower (lower + k)
                     (slice_rows k (Matrix 1 M [signal d ch lower]))
                   = Ok (Matrix N M (take lower (rows b)
                           ++ replicate k (signal d ch lower)
                           ++ drop (lower + k) (rows b)))).
    { unfold setitem_rows, broadcast_to, slice_rows. cbn [shape0 shape1 rows].
      rewrite HbN, HbM.
      replace (lower `min` N) with lower by lia.
      replace (lower `max` ((lower + k) `min` N)) with (lower + k) by lia.
      replace (lower + k - lower) with k by lia.
      replace (k `min` 1) with 1 by lia.
      rewrite decide_True by auto.
      rewrite decide_False by lia. destruct (decide (M = M)); [|done].
      result_step. rewrite list_fmap_id.
      assert (Hnew : take k [signal d ch lower] ≫= replicate k
                     = replicate k (signal d ch lower)).
      { destruct k as [|k']; [lia|]. csimpl. rewrite take_nil. csimpl.
        by rewrite app_nil_r. }
      by rewrite Hnew. }
    rewrite Hset. result_step. eexists. split; [done|]. cbn [fst snd rows].
    split; [done|]. split_and!.
    - split; [|done]. rewrite HbM in Hbrows. split; cbn [shape0 shape1 rows].
      + rewrite !length_app, length_take, length_replicate, length_drop. lia.
      + apply Forall_app. split; [by apply Forall_take|].
        apply Forall_app. split; [|by apply Forall_drop].
        apply Forall_replicate. by rewrite Hsig.
    - rewrite take_app_le by (rewrite length_take; lia).
      rewrite take_take. replace (lower `min` lower) with lower by lia. done.
    - rewrite drop_app_length' by (rewrite length_take; lia).
      rewrite take_app_length' by (by rewrite length_replicate). done. }
  destruct Hstep as (step & -> & Hstep). result_step.
  exists step. split; [by case_decide|]. split.
  - transitivity (keys ((λ ifo, (ifo, ())) <$> ifos)).
    + apply Forall2_keys, Forall2_fmap_l.
      eapply Forall2_impl; [exact Hstep|]. by intros ?? (? & _).
    + unfold keys. rewrite <-list_fmap_compose. apply list_fmap_id.
  - eapply Forall2_Forall_r; [done|]. apply Forall_forall.
    by intros ifo _ kv (<- & ? & ? & ?).
Qed.

End properties.

(** * The statements on concrete inputs *)

Import Gauss.

Lemma wf_A0 : wf_matrix A0.
Proof. split; [reflexivity | repeat constructor]. Qed.

Lemma generate_basis_scipy_truncates_witness :
  ∃ b, generate_basis SVDBasis_init A0 1 "scipy" = Ok b ∧
       V b = Some (slice_cols 1 (conj_transpose (unit_rows 2 3))) ∧
       n b = Some 1.
Proof.
  destruct (generate_basis_scipy_truncates SVDBasis_init A0 1
              (zeros 2 2) [0; 0]%Z (unit_rows 2 3) wf_A0)
    as (b & Hb & Hcut & _); [reflexivity|].
  exists b. split; [exact Hb|].
  destruct Hcut as (HV & _ & Hn); [simpl; lia|]. by split.
Defined.

Lemma generate_basis_random_keeps_request_witness :
  generate_basis SVDBasis_init A0 5 "random"
  = Ok (mkSVDBasis (Some (conj_transpose (unit_rows 2 3)))
                   (Some (unit_rows 2 3)) (Some 5) (Some [0; 0]%Z)) ∧
  shape0 (unit_rows 2 3) = 2.
Proof.
  destruct (generate_basis_random_keeps_request SVDBasis_init A0 5
              (zeros 2 2) [0; 0]%Z (unit_rows 2 3)) as [Hfit Hrows];
    [reflexivity|].
  split; [exact Hfit|]. apply Hrows; [exact wf_A0|simpl; lia].
Defined.

Lemma generate_basis_random_rank_above_columns_witness :
  ∃ b v, generate_basis SVDBasis_init A0 5 "random" = Ok b ∧
    V b = Some v ∧ shape1 v = 2 ∧ n b = Some 5 ∧ ¬ rank_is_columns b.
Proof.
  apply (generate_basis_random_rank_above_columns SVDBasis_init A0 5
           (zeros 2 2) [0; 0]%Z (unit_rows 2 3) wf_A0).
  - simpl. lia.
  - reflexivity.
Defined.



Lemma test_basis_statistics_witness :
  ∃ stats st',
    test_basis b0 (slice_rows 1 A0) [1; 5] (Some "stats") empty_disk
    = Ok (stats, st') ∧
    mismatches stats !! 1
    = Some (mismatch (conj_transpose (unit_rows 2 3)) (unit_rows 2 3) 1
              <$> rows (slice_rows 1 A0)) ∧
    mismatches stats !! 5 = None ∧
    files st' = <[npy_path "stats" := NpyPickle stats]> (files empty_disk).
Proof.
  destruct (test_basis_statistics b0 (conj_transpose (unit_rows 2 3))
              (unit_rows 2 3) 2 [0; 0]%Z (slice_rows 1 A0) [1; 5]
              (Some "stats") empty_disk)
    as (stats & st' & Hrun & _ & Hin & Hout & _ & Hfile);
    try reflexivity.
  - simpl. lia.
  - repeat constructor.
  - discriminate.
  - exists stats, st'. split; [exact Hrun|]. split_and!.
    + apply (Hin 1); [apply list_elem_of_here | lia].
    + apply (Hout 5). lia.
    + exact Hfile.
Defined.

Lemma to_file_from_file_round_trip_witness :
  ∃ st' b, to_file b0 "V_H1" empty_disk = Ok st' ∧
    from_file SVDBasis_init "V_H1.npy" st' = (Ok (), object_of b) ∧
    V b = V b0 ∧ Vh b = Vh b0 ∧ n b = n b0.
Proof.
  pose proof (to_file_from_file_round_trip b0 SVDBasis_init "V_H1" empty_disk
                eq_refl) as (st' & b & Hsave & _ & _ & Hload & HV & HVh & Hn & _).
  exists st', b. split_and!; [exact Hsave|exact Hload|exact HV|exact HVh|exact Hn].
Defined.

Lemma ApplySVD_UndoSVD_shapes_witness :
  let d := [("H1", NdArray [2] 3 (rows A0)); ("L1", NdArray [] 3 (take 1 (rows A0)))] in
  ∃ c d', ApplySVD b0 d = Ok c ∧ UndoSVD b0 c = Ok d' ∧
    keys d' = ["H1"; "L1"] ∧ shape <$> d'.*2 = [[2; 3]; [3]].
Proof.
  intros d.
  destruct (ApplySVD_UndoSVD_shapes b0 (conj_transpose (unit_rows 2 3)) d)
    as (c & d' & Hc & Hd' & _ & Hkeys & Hshapes & _); try reflexivity.
  - repeat constructor.
  - exists c, d'. split_and!; [exact Hc|exact Hd'|exact Hkeys|].
    inversion Hshapes as [|kv1 kv1' t1 t1' (_ & H1 & _) Hrest]; subst.
    inversion Hrest as [|kv2 kv2' t2 t2' (_ & H2 & _) Hnil]; subst.
    inversion Hnil; subst. csimpl. by rewrite H1, H2.
Defined.

Lemma uniform_dataset len :
  uniform_source ["H1"; "L1"] 3 (dataset len).
Proof.
  intros i _. eexists. split; [reflexivity|]. split; [reflexivity|].
  intros ch Hch. apply elem_of_cons in Hch as [->|Hch];
    [|apply elem_of_cons in Hch as [->|Hch]; [|by apply elem_of_nil in Hch]];
    by eexists.
Qed.

Lemma collect_data_short_source_witness :
  ∃ data, collect_data no_fill 2 1 2 (dataset 2) = Ok data ∧
    keys data = ["H1"; "L1"] ∧
    Forall (λ kv, shape0 kv.2 = 3 ∧
                  drop 2 (rows kv.2) = [[(7, 7); (7, 7); (7, 7)]%Z]) data.
Proof.
  destruct (collect_data_short_source no_fill 2 1 2 (dataset 2)
              ["H1"; "L1"] 3 1 (uniform_dataset 2))
    as (data & Hdata & Hkeys & Hrows);
    [discriminate|lia|lia|reflexivity|simpl; lia|].
  exists data. split_and!; [exact Hdata|exact Hkeys|].
  eapply Forall_impl; [exact Hrows|]. intros kv ((_ & HN & _) & Hdrop).
  split; [exact HN|exact Hdrop].
Defined.

(** C7, as stated, fails: with an output directory that cannot be
    written the first save raises, and the data source is left with the
    reduced pipeline. *)
Lemma build_error_leaves_reduced_pipeline :
  let w := mkWorld (dataset 2) (Storage ∅ (λ _, false)) in
  let out := generate_and_save_reduced_basis no_fill
               ["AddNoise"; "RepackageStrains"] 1 1 2 0 1 (Some "out") "" w in
  out.1 = Raise OSError ∧
  transform (wfd out.2) = [mkTransform "ProjectOntoDetectors" 0] ∧
  transform (wfd out.2) ≠ transform (wfd w).
Proof. vm_compute. split_and!; [reflexivity..|discriminate]. Qed.

(** C8, as stated, fails: a source of two samples cannot fill buffers of
    three rows, and the builder returns the paths of the bases it made. *)
Lemma build_on_short_source_returns :
  let w := mkWorld (dataset 2) empty_disk in
  let out := generate_and_save_reduced_basis no_fill
               ["AddNoise"; "RepackageStrains"] 2 1 2 0 1 (Some "out") "" w in
  wfd_len (wfd w) < 2 + 1 ∧
  out.1 = Ok ["out/V_H1.npy"; "out/V_L1.npy"] ∧
  is_Some (files (disk out.2) !! "out/V_H1.npy").
Proof. vm_compute. split_and!; [lia|reflexivity|by eexists]. Qed.

Lemma generate_basis_keeps_invariant_witness :
  hermitian_pair b0 ∧ rank_is_columns b0.
Proof.
  destruct (generate_basis_keeps_invariant SVDBasis_init A0 2 "scipy" b0 wf_A0)
    as [Hh Hr]; [reflexivity|].
  split; [exact Hh|]. apply Hr. by left.
Defined.

Lemma fitted_basis_projects_witness :
  ∃ c y v, fseries_to_basis_coefficients b0 (NdArray [2] 3 (rows A0)) = Ok c ∧
    basis_coefficients_to_fseries b0 c = Ok y ∧
    V b0 = Some v ∧ shape c = [2; 2] ∧ shape y = [2; 3].
Proof.
  destruct (fitted_basis_projects SVDBasis_init A0 2 "scipy" b0
              (NdArray [2] 3 (rows A0)) wf_A0)
    as (c & y & v & Hc & Hy & HV & Hsc & _ & Hsy & _);
    [reflexivity|split; [reflexivity|repeat constructor]|reflexivity|].
  exists c, y, v. split_and!; [exact Hc|exact Hy|exact HV| |exact Hsy].
  rewrite Hsc. injection HV as <-. reflexivity.
Defined.

Lemma fit_save_load_witness :
  ∃ st' b', to_file b0 "V_H1" empty_disk = Ok st' ∧
    from_file SVDBasis_init "V_H1.npy" st' = (Ok (), object_of b') ∧
    V b' = V b0 ∧ Vh b' = Vh b0 ∧ s b' = None ∧ n b' = n b0.
Proof.
  destruct (fit_save_load SVDBasis_init SVDBasis_init A0 2 "scipy" b0
              "V_H1" empty_disk wf_A0)
    as (st' & b' & Hsave & Hload & HV & HVh & Hs & Hn);
    [reflexivity|reflexivity|].
  exists st', b'.
  split_and!; [exact Hsave|exact Hload|exact HV|exact HVh|exact Hs|].
  apply Hn. by left.
Defined.

Lemma test_basis_empty_test_set_witness :
  test_basis b0 (slice_rows 0 A0) [50; 2] None empty_disk = Raise ValueError ∧
  test_basis b0 (slice_rows 0 A0) [50; 100] None empty_disk
  = Ok (TestStats [0; 0]%Z ∅ ∅, empty_disk).
Proof.
  destruct (test_basis_empty_test_set b0 2 [0; 0]%Z (slice_rows 0 A0) [50; 2]
              None empty_disk) as [Hraise _]; [reflexivity..|].
  destruct (test_basis_empty_test_set b0 2 [0; 0]%Z (slice_rows 0 A0) [50; 100]
              None empty_disk) as [_ Hskip]; [reflexivity..|].
  split.
  - apply Hraise. apply Exists_cons_tl, Exists_cons_hd. lia.
  - apply Hskip. repeat constructor; lia.
Defined.

Lemma test_basis_wrong_length_witness :
  test_basis b0 (Matrix 1 2 [[(1, 0); (2, 0)]%Z]) [1] None empty_disk
  = Raise ValueError.
Proof.
  apply (test_basis_wrong_length b0 (conj_transpose (unit_rows 2 3))
           (unit_rows 2 3) 2 [0; 0]%Z); try reflexivity.
  - apply Exists_cons_hd. simpl. lia.
  - apply Exists_cons_hd. lia.
Defined.

Lemma to_file_from_file_same_name_witness :
  ∃ st', to_file b0 "V_H1" empty_disk = Ok st' ∧
    from_file SVDBasis_init "V_H1" st'
    = (Raise FileNotFoundError, object_of SVDBasis_init) ∧
    ∃ b, from_file SVDBasis_init "V_H1.npy" st' = (Ok (), object_of b) ∧
         V b = V b0.
Proof.
  destruct (to_file_from_file_same_name b0 SVDBasis_init "V_H1" empty_disk
              (conj_transpose (unit_rows 2 3)) eq_refl eq_refl)
    as (st' & Hsave & _ & Hext).
  destruct Hext as (_ & Hmissing & Hfound); [discriminate|].
  exists st'. split_and!; [exact Hsave|by apply Hmissing|exact Hfound].
Defined.

Lemma build_returns_V_paths_witness :
  let w := mkWorld (dataset 4) empty_disk in
  let out := generate_and_save_reduced_basis no_fill
               ["AddNoise"; "RepackageStrains"] 2 1 2 0 1 (Some "out") "_a" w in
  out.1 = Ok ["out/V_H1_a.npy"; "out/V_L1_a.npy"] ∧
  Forall (λ p, is_Some (files (disk out.2) !! p))
         ["out/V_H1_a.npy"; "out/V_L1_a.npy"].
Proof.
  intros w out.
  assert (Hout : out.1 = Ok ["out/V_H1_a.npy"; "out/V_L1_a.npy"])
    by (vm_compute; reflexivity).
  split; [exact Hout|].
  destruct (build_returns_V_paths no_fill ["AddNoise"; "RepackageStrains"]
              2 1 2 0 1 "out" "_a" w _ Hout) as (probe & _ & _ & Hfiles).
  exact Hfiles.
Defined.

Lemma collect_data_fills_witness :
  ∃ data, collect_data no_fill 2 1 2 (dataset 4) = Ok data ∧
    keys data = ["H1"; "L1"] ∧
    Forall (λ kv, rows kv.2 = signal (dataset 4) kv.1 <$> seq 0 3) data.
Proof.
  destruct (collect_data_fills no_fill 2 1 2 (dataset 4) ["H1"; "L1"] 3
              (uniform_dataset 4))
    as (data & Hdata & Hkeys & Hrows); [discriminate|lia|lia|simpl; lia|].
  exists data. split_and!; [exact Hdata|exact Hkeys|].
  eapply Forall_impl; [exact Hrows|]. intros kv (_ & Hr & _). exact Hr.
Defined.

Lemma collect_data_short_batch_witness :
  collect_data no_fill 3 3 3 (dataset 5) = Raise ValueError.
Proof.
  apply (collect_data_short_batch no_fill 3 3 3 (dataset 5) ["H1"; "L1"] 3 1 2
           (uniform_dataset 5)); [discriminate|reflexivity|lia|lia|simpl; lia].
Defined.


Lemma build_without_test_samples_witness :
  let w := mkWorld (dataset 2) empty_disk in
  let out := generate_and_save_reduced_basis no_fill
               ["AddNoise"; "RepackageStrains"] 2 0 2 0 50 (Some "out") "" w in
  out.1 = Raise ValueError ∧
  Forall (λ ifo, is_Some (files (disk out.2) !! V_path "out" "" ifo))
         ["H1"; "L1"] ∧
  transform (wfd out.2) = [mkTransform "ProjectOntoDetectors" 0].
Proof.
  apply (build_without_test_samples no_fill ["AddNoise"; "RepackageStrains"]
           2 2 0 50 "out" "" (mkWorld (dataset 2) empty_disk) ["H1"; "L1"] 3).
  - intros i _. eexists. split; [reflexivity|]. split; [reflexivity|].
    intros ch Hch. apply elem_of_cons in Hch as [->|Hch];
      [|apply elem_of_cons in Hch as [->|Hch]; [|by apply elem_of_nil in Hch]];
      by eexists.
  - discriminate.
  - lia.
  - lia.
  - simpl; lia.
  - lia.
  - intros ifo _. by eexists.
  - intros ifo _. split; reflexivity.
Defined.


Lemma build_succeeds_witness :
  let w := mkWorld (dataset 4) empty_disk in
  let out := generate_and_save_reduced_basis no_fill
               ["AddNoise"; "RepackageStrains"] 2 1 2 0 1 (Some "out") "_a" w in
  out.1 = Ok ["out/V_H1_a.npy"; "out/V_L1_a.npy"] ∧
  transform (wfd out.2) = pipeline ∧
  files (disk out.2) !! "out/V_H1_a.npy"
  = Some (NpyMatrix (conj_transpose (unit_rows 1 3))) ∧
  files (disk out.2) !! "out/s_L1_a.npy" = Some (NpyVector [0%Z]).
Proof.
  destruct (build_succeeds no_fill ["AddNoise"; "RepackageStrains"]
              2 1 2 0 1 "out" "_a" (mkWorld (dataset 4) empty_disk)
              ["H1"; "L1"] 3) as (Hout & Htr & Hfiles).
  - intros i _. eexists. split; [reflexivity|]. split; [reflexivity|].
    intros ch Hch. apply elem_of_cons in Hch as [->|Hch];
      [|apply elem_of_cons in Hch as [->|Hch]; [|by apply elem_of_nil in Hch]];
      by eexists.
  - discriminate.
  - lia.
  - lia.
  - lia.
  - lia.
  - simpl; lia.
  - intros ifo _. by eexists.
  - apply (bool_decide_unpack (NoDup _)). vm_compute. exact I.
  - intros p _. reflexivity.
  - split_and!; [exact Hout|exact Htr|reflexivity|reflexivity].
Defined.


Lemma collect_data_single_sample_batch_witness :
  ∃ data, collect_data no_fill 3 2 2 (dataset 3) = Ok data ∧
    keys data = ["H1"; "L1"] ∧
    Forall (λ kv, take 2 (drop 2 (rows kv.2))
                  = replicate 2 (signal (dataset 3) kv.1 2)) data.
Proof.
  destruct (collect_data_single_sample_batch no_fill 3 2 2 (dataset 3)
              ["H1"; "L1"] 3 1 (uniform_dataset 3))
    as (_ & data & Hdata & Hkeys & Hrows);
    [discriminate|lia|reflexivity|simpl; lia|].
  exists data. split_and!; [exact Hdata|exact Hkeys|].
  eapply Forall_impl; [exact Hrows|]. intros kv (_ & _ & Hr). exact Hr.
Defined.
